(** * Eagles Analytics: a shallow embedding of [src/analytics.py]

    The module reads per-game statistics from CSV sources, reduces them to a
    nested season report and writes the report as JSON.  Each Python function
    of the module is embedded below under its own name:

    - [read_game_stats]      (reader, lines 14-41),
    - [calculate_analytics]  (aggregator, lines 44-105),
    - [write_analytics]      (writer, lines 108-118),
    - [run_analytics]        (orchestrator, lines 121-156),
    - [main]                 (entry point, lines 159-185).

    Python integers are [Z]; Python floats are IEEE-754 binary64 values,
    taken from the standard library's [spec_float]; exceptions are values of
    [exn] carried by the [outcome] type; the file system and the console are
    explicit state.  What belongs to the interpreter and its library rather
    than to the module is taken as a parameter: [int] on text, the CSV
    tokenizer with the decoding of its source, and the printing of floats. *)

From Stdlib Require Import ZArith List String Ascii Bool Lia.
From Stdlib Require Import DecimalString SpecFloat Permutation.
Import ListNotations.

Local Open Scope string_scope.
Local Open Scope Z_scope.


(* ================================================================== *)
(** * Exceptions and fallible computations *)

(** The exceptions the module can raise. *)
Inductive exn : Type :=
| KeyError (key : string)
| TypeError
| ValueError
| OverflowError
| ZeroDivisionError
| FileNotFoundError
| FileExistsError
| NotADirectoryError
| IsADirectoryError
| UnicodeDecodeError
| CsvError.

Inductive outcome (A : Type) : Type :=
| Ok (a : A)
| Raise (e : exn).

Arguments Ok {A} a.
Arguments Raise {A} e.

Definition bind {A B : Type} (r : outcome A) (k : A -> outcome B) : outcome B :=
  match r with
  | Ok a => k a
  | Raise e => Raise e
  end.

Notation "x <- r ;; k" := (bind r (fun x => k))
  (at level 61, r at next level, right associativity).

Definition is_ok {A : Type} (r : outcome A) : bool :=
  match r with Ok _ => true | Raise _ => false end.

(* ================================================================== *)
(** * Python numbers *)

Module PyNum.

(** binary64: 53 bits of precision, exponents below 1024. *)
Definition prec : Z := 53.
Definition emax : Z := 1024.

Definition float : Type := spec_float.

(** A signed magnitude read as an exact integer-valued operand of a float
    operation. *)
Definition signed (neg : bool) (mag : Z) : spec_float :=
  match mag with
  | Zpos p => S754_finite neg p 0
  | _ => S754_zero neg
  end.

(** Where the interpreter checks the range of a result, an infinity is an
    [OverflowError]. *)
Definition checked (f : float) : outcome float :=
  match f with
  | S754_infinity _ => Raise OverflowError
  | _ => Ok f
  end.

(** [float(k)] for an integer [k]: the nearest binary64, or [OverflowError]
    when [k] is too large to convert. *)
Definition float_of_int (k : Z) : outcome float :=
  checked (SFdiv prec emax (signed (k <? 0) (Z.abs k)) (signed false 1)).

(** [a / b] on two integers: the correctly rounded quotient of the exact
    integers.  A zero divisor raises [ZeroDivisionError]; a quotient beyond
    the float range raises [OverflowError]; a zero dividend gives a zero whose
    sign is that of the divisor. *)
Definition truediv (a b : Z) : outcome float :=
  if b =? 0 then Raise ZeroDivisionError
  else checked (SFdiv prec emax (signed (a <? 0) (Z.abs a))
                                (signed (b <? 0) (Z.abs b))).

(** [x * k] for a float [x] and an integer [k]: [k] is converted first, the
    product is rounded, and an overflowing product is an infinity. *)
Definition mul_int (x : float) (k : Z) : outcome float :=
  y <- float_of_int k ;;
  Ok (SFmul prec emax x y).

(** Round-half-even of the exact rational [n / d] ([d > 0], [n >= 0]). *)
Definition round_half_even (n d : Z) : Z :=
  let q := n / d in
  let r := n mod d in
  match 2 * r ?= d with
  | Lt => q
  | Gt => q + 1
  | Eq => if Z.even q then q else q + 1
  end.

(** The magnitude of [x * 10^nd] rounded half-even to an integer, computed
    on the exact binary value [m * 2^e] of [x]. *)
Definition scaled_magnitude (m : positive) (e : Z) (nd : nat) : Z :=
  let n := Zpos m * 10 ^ Z.of_nat nd in
  match e with
  | Zneg p => round_half_even n (2 ^ Zpos p)
  | _ => n * 2 ^ e
  end.

(** The float nearest to the decimal [mag / 10^nd], negated when [neg] is
    set: what a decimal literal such as [66.7] denotes. *)
Definition decimal (neg : bool) (mag : Z) (nd : nat) : float :=
  SFdiv prec emax (signed neg mag) (signed false (10 ^ Z.of_nat nd)).

(** [round(x, nd)] for a float [x] and [nd >= 0] digits: the exact value of
    [x] is rounded half-even to [nd] decimals and the decimal is converted
    back to the nearest float.  Zeros, infinities and NaN round to
    themselves. *)
Definition round (x : float) (nd : nat) : outcome float :=
  match x with
  | S754_finite s m e => checked (decimal s (scaled_magnitude m e nd) nd)
  | _ => Ok x
  end.

(** [str(k)] for an integer [k]. *)
Definition str_of_int (k : Z) : string :=
  NilZero.string_of_int (Z.to_int k).

End PyNum.

(* ================================================================== *)
(** * Python values *)

(** What a field of a CSV row dictionary can hold: a cell's text, [None]
    (the filler of a short row), or the list of surplus cells of a long
    row. *)
Inductive pyobj : Type :=
| PNone
| PStr (s : string)
| PList (l : list string).

(** [o == lit] for a string literal [lit]. *)
Definition eq_str (o : pyobj) (lit : string) : bool :=
  match o with
  | PStr s => String.eqb s lit
  | _ => false
  end.

(** The values of the report: integers, floats, strings and nested
    dictionaries, whose items keep their insertion order. *)
#[warnings="-register-all"]
Inductive pyval : Type :=
| PyInt (z : Z)
| PyFloat (f : PyNum.float)
| PyStr (s : string)
| PyDict (items : list (string * pyval)).

(** [d[k]] on the items of a dictionary. *)
Fixpoint assoc {V : Type} (k : string) (items : list (string * V)) : option V :=
  match items with
  | [] => None
  | (k', v) :: rest => if String.eqb k' k then Some v else assoc k rest
  end.

(** [v[k]]: the value under key [k] when [v] is a dictionary that has it. *)
Definition item (k : string) (v : pyval) : option pyval :=
  match v with
  | PyDict items => assoc k items
  | _ => None
  end.

(** [v[k1][k2]]. *)
Definition item2 (k1 k2 : string) (v : pyval) : option pyval :=
  match item k1 v with
  | Some d => item k2 d
  | None => None
  end.

(** The empty-result sentinel [{}]. *)
Definition empty_dict : pyval := PyDict [].

(* ================================================================== *)
(** * Game records *)

(** One game as [read_game_stats] builds it: six integers and four fields
    passed through from the row as they are. *)
Record game : Type := mkGame {
  game_id : Z;
  date : pyobj;
  opponent : pyobj;
  home_away : pyobj;
  points_scored : Z;
  points_allowed : Z;
  rushing_yards : Z;
  passing_yards : Z;
  turnovers : Z;
  result : pyobj
}.

(* ================================================================== *)
(** * The aggregator: [calculate_analytics] *)

(** [sum(xs)]: the built-in adds from the left, starting at [0]. *)
Definition py_sum (xs : list Z) : Z := fold_left Z.add xs 0.

(** [len(xs)]. *)
Definition py_len {A : Type} (xs : list A) : Z := Z.of_nat (List.length xs).

Definition is_win (g : game) : bool := eq_str (result g) "W".
Definition is_home (g : game) : bool := eq_str (home_away g) "home".
Definition is_away (g : game) : bool := eq_str (home_away g) "away".

(** [sum(1 for g in games if g["result"] == "W")]. *)
Definition count_wins (games : list game) : Z :=
  py_sum (map (fun _ => 1) (filter is_win games)).

(** [f"{a}-{b}"]. *)
Definition record_string (a b : Z) : string :=
  (PyNum.str_of_int a ++ "-" ++ PyNum.str_of_int b)%string.

Definition calculate_analytics (games : list game) : outcome pyval :=
  match games with
  | [] => Ok empty_dict
  | _ :: _ =>
      let total_games := py_len games in
      let wins := count_wins games in
      let losses := total_games - wins in
      let total_points_scored := py_sum (map points_scored games) in
      let total_points_allowed := py_sum (map points_allowed games) in
      let total_rushing_yards := py_sum (map rushing_yards games) in
      let total_passing_yards := py_sum (map passing_yards games) in
      let total_turnovers := py_sum (map turnovers games) in
      let home_games := filter is_home games in
      let away_games := filter is_away games in
      let home_wins := count_wins home_games in
      let away_wins := count_wins away_games in
      win_percentage <-
        (if 0 <? total_games then
           q <- PyNum.truediv wins total_games ;;
           p <- PyNum.mul_int q 100 ;;
           r <- PyNum.round p 1 ;;
           Ok (PyFloat r)
         else Ok (PyInt 0)) ;;
      avg_points_scored <-
        (q <- PyNum.truediv total_points_scored total_games ;; PyNum.round q 1) ;;
      avg_points_allowed <-
        (q <- PyNum.truediv total_points_allowed total_games ;; PyNum.round q 1) ;;
      avg_rushing_yards <-
        (q <- PyNum.truediv total_rushing_yards total_games ;; PyNum.round q 1) ;;
      avg_passing_yards <-
        (q <- PyNum.truediv total_passing_yards total_games ;; PyNum.round q 1) ;;
      avg_total_yards <-
        (q <- PyNum.truediv (total_rushing_yards + total_passing_yards) total_games ;;
         PyNum.round q 1) ;;
      avg_turnovers_per_game <-
        (q <- PyNum.truediv total_turnovers total_games ;; PyNum.round q 2) ;;
      Ok (PyDict
        [ ("summary", PyDict
            [ ("total_games", PyInt total_games);
              ("wins", PyInt wins);
              ("losses", PyInt losses);
              ("win_percentage", win_percentage) ]);
          ("scoring", PyDict
            [ ("total_points_scored", PyInt total_points_scored);
              ("total_points_allowed", PyInt total_points_allowed);
              ("avg_points_scored", PyFloat avg_points_scored);
              ("avg_points_allowed", PyFloat avg_points_allowed);
              ("point_differential", PyInt (total_points_scored - total_points_allowed)) ]);
          ("offense", PyDict
            [ ("total_rushing_yards", PyInt total_rushing_yards);
              ("total_passing_yards", PyInt total_passing_yards);
              ("total_yards", PyInt (total_rushing_yards + total_passing_yards));
              ("avg_rushing_yards", PyFloat avg_rushing_yards);
              ("avg_passing_yards", PyFloat avg_passing_yards);
              ("avg_total_yards", PyFloat avg_total_yards) ]);
          ("turnovers", PyDict
            [ ("total_turnovers", PyInt total_turnovers);
              ("avg_turnovers_per_game", PyFloat avg_turnovers_per_game) ]);
          ("home_away", PyDict
            [ ("home_record", PyStr (record_string home_wins (py_len home_games - home_wins)));
              ("away_record", PyStr (record_string away_wins (py_len away_games - away_wins))) ]) ])
  end.

(* ================================================================== *)
(** * Integer literals: [int(s)] *)

Module IntLiteral.

(** [int(o)] on a row value.  On text, [int] belongs to the interpreter: it
    reads the decimal digits of every script, skips surrounding white space
    and refuses a literal of too many digits.  It is taken as the parameter
    [int_of_str], where no value stands for a [ValueError].  [None] and
    lists are a [TypeError]. *)
Definition of_obj (int_of_str : string -> option Z) (o : pyobj) : outcome Z :=
  match o with
  | PStr s =>
      match int_of_str s with
      | Some k => Ok k
      | None => Raise ValueError
      end
  | PNone => Raise TypeError
  | PList _ => Raise TypeError
  end.

(** An instance on ASCII text, to evaluate the reader on concrete rows. *)

Definition code (c : ascii) : Z := Z.of_nat (nat_of_ascii c).

(** The characters [int] skips around an ASCII literal: tab to carriage
    return, and the space. *)
Definition is_space (c : ascii) : bool :=
  let n := code c in
  ((9 <=? n) && (n <=? 13)) || (n =? 32).

Definition digit_of (c : ascii) : option Z :=
  let n := code c in
  if (48 <=? n) && (n <=? 57) then Some (n - 48) else None.

Definition is_underscore (c : ascii) : bool := code c =? 95.

Fixpoint lstrip (s : list ascii) : list ascii :=
  match s with
  | c :: rest => if is_space c then lstrip rest else s
  | [] => []
  end.

(** The digits after the first one: a single underscore may sit between two
    digits.  Returns the value read and the unread rest, or no value on a
    misplaced underscore. *)
Fixpoint digits (acc : Z) (s : list ascii) : option (Z * list ascii) :=
  match s with
  | [] => Some (acc, [])
  | c :: rest =>
      match digit_of c with
      | Some d => digits (acc * 10 + d) rest
      | None =>
          if is_underscore c then
            match rest with
            | c2 :: rest2 =>
                match digit_of c2 with
                | Some d2 => digits (acc * 10 + d2) rest2
                | None => None
                end
            | [] => None
            end
          else Some (acc, s)
      end
  end.

Definition sign_of (s : list ascii) : bool * list ascii :=
  match s with
  | c :: rest =>
      if code c =? 45 then (true, rest)
      else if code c =? 43 then (false, rest)
      else (false, s)
  | [] => (false, [])
  end.

(** [int(s)] in base 10 for ASCII text of at most 4300 digits: optional
    surrounding white space, an optional sign, then digits. *)
Definition of_string (s : string) : option Z :=
  let (neg, body) := sign_of (lstrip (list_ascii_of_string s)) in
  match body with
  | c :: rest =>
      match digit_of c with
      | Some d =>
          match digits d rest with
          | Some (n, tail) =>
              match lstrip tail with
              | [] =>
                  if (4300 <? List.length (filter (fun c => match digit_of c with
                                                            | Some _ => true
                                                            | None => false
                                                            end) body))%nat
                  then None
                  else Some (if neg then - n else n)
              | _ :: _ => None
              end
          | None => None
          end
      | None => None
      end
  | [] => None
  end.

End IntLiteral.

(* ================================================================== *)
(** * Row dictionaries: [csv.DictReader] *)

Module DictReader.

(** A row as [csv.reader] yields it: the list of its cells.  A blank line is
    the empty list. *)
Definition row : Type := list string.

(** The dictionary of one row.  Keys are field names, or [None] for the
    surplus cells of a long row. *)
Definition rowdict : Type := list (option string * pyobj).

Definition key_eqb (a b : option string) : bool :=
  match a, b with
  | Some x, Some y => String.eqb x y
  | None, None => true
  | _, _ => false
  end.

(** [d[k] = v]: replaces the value of an existing key in place, appends a
    new key. *)
Fixpoint set (k : option string) (v : pyobj) (d : rowdict) : rowdict :=
  match d with
  | [] => [(k, v)]
  | (k', v') :: rest =>
      if key_eqb k' k then (k', v) :: rest else (k', v') :: set k v rest
  end.

Fixpoint get (k : option string) (d : rowdict) : option pyobj :=
  match d with
  | [] => None
  | (k', v) :: rest => if key_eqb k' k then Some v else get k rest
  end.

(** [row[k]] for a field name [k]. *)
Definition getitem (k : string) (d : rowdict) : outcome pyobj :=
  match get (Some k) d with
  | Some v => Ok v
  | None => Raise (KeyError k)
  end.

(** [dict(zip(fieldnames, cells))]. *)
Definition of_zip (fieldnames cells : row) : rowdict :=
  fold_left (fun d kv => set (Some (fst kv)) (PStr (snd kv)) d)
            (combine fieldnames cells) [].

(** The dictionary [DictReader] builds for one non-blank row: the zip of
    names and cells, then the surplus cells under [None] when the row is
    longer than the header, or [None] under each unmatched name when it is
    shorter. *)
Definition row_dict (fieldnames cells : row) : rowdict :=
  let d := of_zip fieldnames cells in
  let lf := List.length fieldnames in
  let lr := List.length cells in
  if (lf <? lr)%nat then set None (PList (skipn lf cells)) d
  else if (lr <? lf)%nat then
    fold_left (fun d k => set (Some k) PNone d) (skipn lr fieldnames) d
  else d.

Definition is_blank (r : row) : bool :=
  match r with [] => true | _ :: _ => false end.

(** The dictionaries [DictReader] yields for the rows of a source: the first
    row names the fields, blank rows after it are passed over. *)
Definition rows (source : list row) : list rowdict :=
  match source with
  | [] => []
  | fieldnames :: data =>
      map (row_dict fieldnames) (filter (fun r => negb (is_blank r)) data)
  end.

End DictReader.

(* ================================================================== *)
(** * Text *)

Module Text.

(** The pieces of [s] between occurrences of [sep]. *)
Fixpoint split (sep : ascii) (s : string) : list string :=
  match s with
  | EmptyString => [EmptyString]
  | String c rest =>
      if Ascii.eqb c sep then EmptyString :: split sep rest
      else
        match split sep rest with
        | piece :: pieces => String c piece :: pieces
        | [] => [String c EmptyString]
        end
  end.

End Text.

(* ================================================================== *)
(** * Paths: [pathlib.Path] *)

Module PosixPath.

Definition slash : ascii := ascii_of_nat 47.

(** Where a path starts: at the current directory, at the root, or at the
    root that exactly two leading slashes name. *)
Inductive anchor : Type :=
| Relative
| Root
| DoubleRoot.

(** A path as [pathlib] holds it: its anchor and its components. *)
Record pure_path : Type := mkPath {
  anchor_of : anchor;
  parts : list string
}.

Fixpoint leading_slashes (s : string) : nat :=
  match s with
  | String c rest => if Ascii.eqb c slash then S (leading_slashes rest) else O
  | EmptyString => O
  end.

Definition anchor_from (s : string) : anchor :=
  match leading_slashes s with
  | O => Relative
  | S (S O) => DoubleRoot
  | S _ => Root
  end.

(** A piece that counts as a component: empty pieces and [.] are dropped,
    [..] is kept. *)
Definition is_part (c : string) : bool :=
  negb (String.eqb c EmptyString) && negb (String.eqb c ".").

(** [Path(s)]. *)
Definition parse (s : string) : pure_path :=
  mkPath (anchor_from s) (filter is_part (Text.split slash s)).

Fixpoint join (ps : list string) : string :=
  match ps with
  | [] => EmptyString
  | [x] => x
  | x :: rest => (x ++ "/" ++ join rest)%string
  end.

(** [str(P)]. *)
Definition render (P : pure_path) : string :=
  match anchor_of P, parts P with
  | Relative, [] => "."
  | Relative, ps => join ps
  | Root, ps => ("/" ++ join ps)%string
  | DoubleRoot, ps => ("//" ++ join ps)%string
  end.

(** [P / name] for a single component [name]. *)
Definition child (P : pure_path) (name : string) : pure_path :=
  mkPath (anchor_of P) (parts P ++ [name]).

Definition anchor_eqb (a b : anchor) : bool :=
  match a, b with
  | Relative, Relative | Root, Root | DoubleRoot, DoubleRoot => true
  | _, _ => false
  end.

Fixpoint parts_eqb (xs ys : list string) : bool :=
  match xs, ys with
  | [], [] => true
  | x :: xs', y :: ys' => String.eqb x y && parts_eqb xs' ys'
  | _, _ => false
  end.

Definition eqb (P Q : pure_path) : bool :=
  anchor_eqb (anchor_of P) (anchor_of Q) && parts_eqb (parts P) (parts Q).

Fixpoint starts_with (xs ys : list string) : bool :=
  match xs, ys with
  | [], _ => true
  | x :: xs', y :: ys' => String.eqb x y && starts_with xs' ys'
  | _ :: _, [] => false
  end.

(** [P] is [Q] or lies above it. *)
Definition is_prefix (P Q : pure_path) : bool :=
  anchor_eqb (anchor_of P) (anchor_of Q) && starts_with (parts P) (parts Q).

(** The paths from the first component of [P] down to [P] itself. *)
Definition prefixes (P : pure_path) : list pure_path :=
  map (fun k => mkPath (anchor_of P) (firstn k (parts P)))
      (seq 1 (List.length (parts P))).

(** The path of the current directory, which [str] renders as [.] and whose
    files have an empty [os.path.dirname]. *)
Definition is_cwd (P : pure_path) : bool :=
  match anchor_of P, parts P with
  | Relative, [] => true
  | _, _ => false
  end.

(** The name of [P] when [P] is an entry of the directory [D]. *)
Fixpoint name_under (front : list string) (ps : list string) : option string :=
  match front, ps with
  | [], [name] => Some name
  | x :: front', y :: ps' => if String.eqb x y then name_under front' ps' else None
  | _, _ => None
  end.

Definition name_in (D P : pure_path) : option string :=
  if anchor_eqb (anchor_of D) (anchor_of P) then name_under (parts D) (parts P)
  else None.

End PosixPath.

(* ================================================================== *)
(** * The file system and the console *)

(** A POSIX file system.  A file is named as the module names it: by a
    directory, given as the text handed to [Path], and a name within it.
    Two such pairs name the same file when their paths are equal as
    [pathlib] normalises them.  Paths are taken at face value: symbolic
    links, the meaning of [..] components and permissions are outside the
    model, as are device errors. *)
Definition path : Type := (string * string)%type.

(** [Path(dir) / name]. *)
Definition pure (p : path) : PosixPath.pure_path :=
  PosixPath.child (PosixPath.parse (fst p)) (snd p).

Definition path_eqb (p q : path) : bool := PosixPath.eqb (pure p) (pure q).

(** [str(Path(dir) / name)]. *)
Definition path_str (p : path) : string := PosixPath.render (pure p).

(** [os.path.dirname(str(Path(dir) / name))]: the directory, or the empty
    string, here no value, for a file of the current directory, whose text
    is the bare name. *)
Definition dirname (p : path) : option PosixPath.pure_path :=
  let D := PosixPath.parse (fst p) in
  if PosixPath.is_cwd D then None else Some D.

(** What a directory listing reports: a regular file with its bytes, or a
    directory. *)
Inductive entry : Type :=
| FileAt (p : path) (text : string)
| DirAt (d : PosixPath.pure_path).

(** The world a run acts on: the entries of the file system, in the order a
    directory listing reports them, and the lines printed so far. *)
Record world : Type := mkWorld {
  entries : list entry;
  stdout : list string
}.

(** The regular files among the entries, with their bytes. *)
Fixpoint regular (es : list entry) : list (path * string) :=
  match es with
  | [] => []
  | FileAt p text :: rest => (p, text) :: regular rest
  | DirAt _ :: rest => regular rest
  end.

Fixpoint directories (es : list entry) : list PosixPath.pure_path :=
  match es with
  | [] => []
  | FileAt _ _ :: rest => directories rest
  | DirAt d :: rest => d :: directories rest
  end.

Definition files (w : world) : list (path * string) := regular (entries w).

Fixpoint lookup_file (p : path) (fs : list (path * string)) : option string :=
  match fs with
  | [] => None
  | (q, text) :: rest => if path_eqb q p then Some text else lookup_file p rest
  end.

(** The files after a write of [text] to [p]: an existing file is
    overwritten where it is, a new one is added to the listing. *)
Fixpoint store_file (p : path) (text : string) (fs : list (path * string))
  : list (path * string) :=
  match fs with
  | [] => [(p, text)]
  | (q, old) :: rest =>
      if path_eqb q p then (q, text) :: rest
      else (q, old) :: store_file p text rest
  end.

(** The same on the entries. *)
Fixpoint store_entry (p : path) (text : string) (es : list entry) : list entry :=
  match es with
  | [] => [FileAt p text]
  | FileAt q old :: rest =>
      if path_eqb q p then FileAt q text :: rest
      else FileAt q old :: store_entry p text rest
  | DirAt d :: rest => DirAt d :: store_entry p text rest
  end.

(** [P] is a directory: the current directory or a root, a listed directory,
    or a directory above a listed one. *)
Definition is_directory (P : PosixPath.pure_path) (es : list entry) : bool :=
  match PosixPath.parts P with
  | [] => true
  | _ :: _ => existsb (PosixPath.is_prefix P) (directories es)
  end.

(** [P] is a regular file. *)
Definition is_regular (P : PosixPath.pure_path) (es : list entry) : bool :=
  existsb (fun f => PosixPath.eqb (pure (fst f)) P) (regular es).

(** A regular file sits at [P] or above it, where a directory is needed. *)
Definition blocked (P : PosixPath.pure_path) (es : list entry) : bool :=
  existsb (fun A => is_regular A es) (PosixPath.prefixes P).

(** [s] ends with [suffix]. *)
Definition ends_with (s suffix : string) : bool :=
  let ls := String.length s in
  let lx := String.length suffix in
  ((lx <=? ls) && String.eqb (substring (ls - lx) lx s) suffix)%nat.

(** What one entry adds to the listing of [dir]: itself, as [Path(dir) /
    name], when it is an entry of [dir] whose name ends in [.csv]. *)
Definition csv_entry (dir : string) (e : entry) : list path :=
  match e with
  | FileAt q _ =>
      if PosixPath.eqb (PosixPath.parse (fst q)) (PosixPath.parse dir)
         && ends_with (snd q) ".csv"
      then [(dir, snd q)] else []
  | DirAt d =>
      match PosixPath.name_in (PosixPath.parse dir) d with
      | Some name => if ends_with name ".csv" then [(dir, name)] else []
      | None => []
      end
  end.

(** [Path(dir).glob("*.csv")]: the entries of [dir] itself whose name ends
    in [.csv], regular files and directories alike, in listing order. *)
Definition glob_csv (dir : string) (w : world) : list path :=
  flat_map (csv_entry dir) (entries w).

(** Computations that act on the world and may raise. *)
Definition io (A : Type) : Type := world -> world * outcome A.

Definition ret {A : Type} (a : A) : io A := fun w => (w, Ok a).

Definition lift {A : Type} (r : outcome A) : io A := fun w => (w, r).

Definition io_bind {A B : Type} (m : io A) (k : A -> io B) : io B :=
  fun w =>
    match m w with
    | (w', Ok a) => k a w'
    | (w', Raise e) => (w', Raise e)
    end.

Notation "x <~ m ;; k" := (io_bind m (fun x => k))
  (at level 61, m at next level, right associativity).

Notation "m ;;; k" := (io_bind m (fun _ => k))
  (at level 61, right associativity).

(** [print(line)]. *)
Definition print (line : string) : io unit :=
  fun w => (mkWorld (entries w) (stdout w ++ [line]), Ok tt).

(** The error of opening what is no regular file at [p]. *)
Definition no_file_error (p : path) (es : list entry) : exn :=
  if is_directory (pure p) es then IsADirectoryError
  else if blocked (PosixPath.parse (fst p)) es then NotADirectoryError
  else FileNotFoundError.

(** [open(p, "r", newline="", encoding="utf-8")]: the file at [p], here the
    bytes that are decoded as the reader consumes them; see [csv_reader]
    below for the decoding. *)
Definition read_text (p : path) : io string :=
  fun w =>
    match lookup_file p (files w) with
    | Some text => (w, Ok text)
    | None => (w, Raise (no_file_error p (entries w)))
    end.

(** The directories [os.makedirs] has to create for [D]. *)
Definition missing (D : PosixPath.pure_path) (es : list entry) : list PosixPath.pure_path :=
  filter (fun A => negb (is_directory A es)) (PosixPath.prefixes D).

(** [os.makedirs(name, exist_ok=True)], where [name] is a [dirname]: the
    empty string names nothing, an existing directory is left as it is, a
    regular file in the way is an error, and otherwise every missing
    directory down to [name] is created. *)
Definition makedirs (name : option PosixPath.pure_path) : io unit :=
  fun w =>
    match name with
    | None => (w, Raise FileNotFoundError)
    | Some D =>
        if is_directory D (entries w) then (w, Ok tt)
        else if is_regular D (entries w) then (w, Raise FileExistsError)
        else if blocked D (entries w) then (w, Raise NotADirectoryError)
        else (mkWorld (entries w ++ map DirAt (missing D (entries w))) (stdout w), Ok tt)
    end.

(** [open(p, "w")] followed by a write of [text]: the file is created in
    its directory, or overwritten. *)
Definition write_text (p : path) (text : string) : io unit :=
  fun w =>
    if is_directory (pure p) (entries w) then (w, Raise IsADirectoryError)
    else if is_directory (PosixPath.parse (fst p)) (entries w)
    then (mkWorld (store_entry p text (entries w)) (stdout w), Ok tt)
    else if blocked (PosixPath.parse (fst p)) (entries w)
    then (w, Raise NotADirectoryError)
    else (w, Raise FileNotFoundError).

(** * JSON text: [json.dump(obj, f, indent=2)] *)

Module Json.

Definition quote_char : ascii := ascii_of_nat 34.
Definition backslash : ascii := ascii_of_nat 92.
Definition newline : string := String (ascii_of_nat 10) EmptyString.

Definition hex_digit (n : nat) : ascii :=
  if (n <? 10)%nat then ascii_of_nat (48 + n) else ascii_of_nat (87 + n).

(** The escape of one character under [ensure_ascii]: the two-character
    escapes of the encoder, [\u00xx] for the other characters outside the
    printable range, the character itself otherwise. *)
Definition escape_char (c : ascii) : string :=
  let n := nat_of_ascii c in
  let esc (x : nat) := String backslash (String (ascii_of_nat x) EmptyString) in
  if (n =? 34)%nat then esc 34%nat
  else if (n =? 92)%nat then esc 92%nat
  else if (n =? 10)%nat then esc 110%nat
  else if (n =? 13)%nat then esc 114%nat
  else if (n =? 9)%nat then esc 116%nat
  else if (n =? 12)%nat then esc 102%nat
  else if (n =? 8)%nat then esc 98%nat
  else if ((n <? 32) || (126 <? n))%nat then
    String backslash (String "u" (String "0" (String "0"
      (String (hex_digit (n / 16)) (String (hex_digit (n mod 16)) EmptyString)))))
  else String c EmptyString.

Fixpoint escape (s : string) : string :=
  match s with
  | EmptyString => EmptyString
  | String c rest => (escape_char c ++ escape rest)%string
  end.

Definition quote (s : string) : string :=
  (String quote_char (escape s) ++ String quote_char EmptyString)%string.

Fixpoint spaces (n : nat) : string :=
  match n with
  | O => EmptyString
  | S k => String " " (spaces k)
  end.

(** A line break followed by the indentation of nesting depth [level]. *)
Definition newline_indent (level : nat) : string :=
  (newline ++ spaces (2 * level))%string.

Fixpoint join (sep : string) (parts : list string) : string :=
  match parts with
  | [] => EmptyString
  | [x] => x
  | x :: rest => (x ++ sep ++ join sep rest)%string
  end.

Section Encode.

(** [float.__repr__]: the shortest decimal text that reads back as the same
    float.  It belongs to the interpreter, not to the module, and is taken as
    a parameter. *)
Variable float_repr : PyNum.float -> string.

Definition floatstr (f : PyNum.float) : string :=
  match f with
  | S754_nan => "NaN"
  | S754_infinity false => "Infinity"
  | S754_infinity true => "-Infinity"
  | _ => float_repr f
  end.

(** The encoding of [v] at nesting depth [level]. *)
Fixpoint encode (level : nat) (v : pyval) : string :=
  match v with
  | PyInt z => PyNum.str_of_int z
  | PyFloat f => floatstr f
  | PyStr s => quote s
  | PyDict [] => "{}"
  | PyDict items =>
      let fix members (its : list (string * pyval)) : list string :=
        match its with
        | [] => []
        | (k, x) :: rest =>
            (quote k ++ ": " ++ encode (S level) x)%string :: members rest
        end in
      ("{" ++ newline_indent (S level)
           ++ join ("," ++ newline_indent (S level)) (members items)
           ++ newline_indent level ++ "}")%string
  end.

Definition dumps (v : pyval) : string := encode 0 v.

End Encode.

End Json.

(* ================================================================== *)
(** * Reader, writer and orchestrator *)

Section Pipeline.

(** [csv.reader] under the default dialect on a source opened as UTF-8 text:
    the rows it yields from the bytes of the source and, when decoding or
    tokenizing fails on the way, the exception that ends the iteration after
    these rows, such as [UnicodeDecodeError] or [CsvError].  Decoder and
    tokenizer belong to the standard library and are taken as a
    parameter. *)
Variable csv_reader : string -> list DictReader.row * option exn.

(** [int] on text; see [IntLiteral.of_obj]. *)
Variable int_of_str : string -> option Z.

Variable float_repr : PyNum.float -> string.

(** [int(row[k])]. *)
Definition int_field (k : string) (r : DictReader.rowdict) : outcome Z :=
  v <- DictReader.getitem k r ;; IntLiteral.of_obj int_of_str v.

(** The dictionary literal of lines 28-39: fields are looked up and
    converted in the order they are written, and the first failure is the
    one raised. *)
Definition game_of_row (r : DictReader.rowdict) : outcome game :=
  game_id <- int_field "game_id" r ;;
  date <- DictReader.getitem "date" r ;;
  opponent <- DictReader.getitem "opponent" r ;;
  home_away <- DictReader.getitem "home_away" r ;;
  points_scored <- int_field "points_scored" r ;;
  points_allowed <- int_field "points_allowed" r ;;
  rushing_yards <- int_field "rushing_yards" r ;;
  passing_yards <- int_field "passing_yards" r ;;
  turnovers <- int_field "turnovers" r ;;
  result <- DictReader.getitem "result" r ;;
  Ok (mkGame game_id date opponent home_away points_scored points_allowed
             rushing_yards passing_yards turnovers result).

(** The loop of lines 27-40: each row's game is appended to [games]. *)
Fixpoint read_rows (rs : list DictReader.rowdict) (games : list game)
  : outcome (list game) :=
  match rs with
  | [] => Ok games
  | r :: rest =>
      g <- game_of_row r ;;
      read_rows rest (games ++ [g])
  end.

(** The loop over what the reader yields: its rows, then the exception that
    ended the iteration, if any. *)
Definition read_source (source : list DictReader.row * option exn)
  : outcome (list game) :=
  games <- read_rows (DictReader.rows (fst source)) [] ;;
  match snd source with
  | Some e => Raise e
  | None => Ok games
  end.

Definition read_game_stats (input_path : path) : io (list game) :=
  text <~ read_text input_path ;;
  lift (read_source (csv_reader text)).

Definition write_analytics (analytics : pyval) (output_path : path) : io unit :=
  makedirs (dirname output_path) ;;;
  write_text output_path (Json.dumps float_repr analytics).

(** The loop of lines 145-147: each file's games extend [all_games]. *)
Fixpoint read_all (csv_files : list path) (all_games : list game)
  : io (list game) :=
  match csv_files with
  | [] => ret all_games
  | csv_file :: rest =>
      games <~ read_game_stats csv_file ;;
      read_all rest (all_games ++ games)
  end.

Definition report_name : string := "eagles_analytics_report.json".

Definition run_analytics (input_dir output_dir : string) : io pyval :=
  fun w =>
    match glob_csv input_dir w with
    | [] =>
        (print ("No CSV files found in " ++ input_dir) ;;;
         ret empty_dict) w
    | csv_files =>
        (all_games <~ read_all csv_files [] ;;
         analytics <~ lift (calculate_analytics all_games) ;;
         let output_file := (output_dir, report_name) in
         write_analytics analytics output_file ;;;
         print ("Analytics report generated: " ++ path_str output_file) ;;;
         ret analytics) w
    end.

End Pipeline.

(* ================================================================== *)
(** * A plain tokenizer and a float printer, to run the pipeline

    The theorems below hold for every tokenizer, every reading of integers
    and every float printer.  To evaluate the pipeline on concrete text,
    [Plain.rows] reads ASCII text whose lines end in a line feed and whose
    cells hold no quote, where the standard tokenizer splits at commas and
    never fails; [IntLiteral.of_string] reads ASCII integers;
    [Repr.float_repr] prints the shortest decimal that reads back as the
    same float. *)

Module Plain.

Definition comma : ascii := ascii_of_nat 44.
Definition line_feed : ascii := ascii_of_nat 10.

(** The lines of a text; a final line feed ends the last line and opens no
    new one. *)
Definition lines (text : string) : list string :=
  let pieces := Text.split line_feed text in
  match rev pieces with
  | EmptyString :: front => rev front
  | _ => pieces
  end.

(** The cells of a line; an empty line is a blank row. *)
Definition cells (line : string) : DictReader.row :=
  match line with
  | EmptyString => []
  | _ => Text.split comma line
  end.

Definition rows (text : string) : list DictReader.row * option exn :=
  (map cells (lines text), None).

End Plain.

Module Repr.

(** The exact value [m * 2^e] as a fraction. *)
Definition exact (m : positive) (e : Z) : Z * Z :=
  match e with
  | Zneg p => (Zpos m, 2 ^ Zpos p)
  | _ => (Zpos m * 2 ^ e, 1)
  end.

Fixpoint up (fuel : nat) (num den k : Z) : Z :=
  match fuel with
  | O => k
  | S f => if den * 10 ^ (k + 1) <=? num then up f num den (k + 1) else k
  end.

Fixpoint down (fuel : nat) (num den k : Z) : Z :=
  match fuel with
  | O => k
  | S f => if den <=? num * 10 ^ (- k) then k else down f num den (k - 1)
  end.

(** The decimal exponent of [num / den]: the largest [k] with
    [10^k <= num / den]. *)
Definition exp10 (num den : Z) : Z :=
  if den <=? num then up 400 num den 0 else down 400 num den (-1).

(** The float nearest to [c * 10^e10]. *)
Definition of_decimal (c e10 : Z) : PyNum.float :=
  match e10 with
  | Zneg p => SFdiv PyNum.prec PyNum.emax (PyNum.signed false c)
                    (PyNum.signed false (10 ^ Zpos p))
  | _ => SFdiv PyNum.prec PyNum.emax (PyNum.signed false (c * 10 ^ e10))
               (PyNum.signed false 1)
  end.

Definition same (f : PyNum.float) (m : positive) (e : Z) : bool :=
  match f with
  | S754_finite false m' e' => Pos.eqb m' m && Z.eqb e' e
  | _ => false
  end.

(** The [p]-digit decimal that reads back as [m * 2^e], if there is one:
    the closer of the two [p]-digit neighbours of the value when both do. *)
Definition candidate (m : positive) (e : Z) (p : Z) : option (Z * Z) :=
  let (num, den) := exact m e in
  let e10 := exp10 num den - p + 1 in
  let n := num * 10 ^ Z.max (- e10) 0 in
  let d := den * 10 ^ Z.max e10 0 in
  let lo := n / d in
  let r := n mod d in
  let hi := lo + 1 in
  let lo_ok := same (of_decimal lo e10) m e in
  let hi_ok := same (of_decimal hi e10) m e in
  if r =? 0 then (if lo_ok then Some (lo, e10) else None)
  else if lo_ok && hi_ok then
    match 2 * r ?= d with
    | Lt => Some (lo, e10)
    | Gt => Some (hi, e10)
    | Eq => Some (if Z.even lo then lo else hi, e10)
    end
  else if lo_ok then Some (lo, e10)
  else if hi_ok then Some (hi, e10)
  else None.

Fixpoint shortest (fuel : nat) (m : positive) (e : Z) (p : Z) : Z * Z :=
  match fuel with
  | O => (Zpos m, e)
  | S f =>
      match candidate m e p with
      | Some c => c
      | None => shortest f m e (p + 1)
      end
  end.

Fixpoint strip_zeros (fuel : nat) (c e10 : Z) : Z * Z :=
  match fuel with
  | O => (c, e10)
  | S f => if (c mod 10 =? 0) && negb (c =? 0) then strip_zeros f (c / 10) (e10 + 1)
           else (c, e10)
  end.

Fixpoint zeros (n : nat) : string :=
  match n with
  | O => EmptyString
  | S k => String "0" (zeros k)
  end.

Definition two_digits (k : Z) : string :=
  if k <? 10 then String "0" (PyNum.str_of_int k) else PyNum.str_of_int k.

(** The text of the digits [c] scaled by [10^e10]: positional between
    [1e-4] and [1e16], with an exponent outside. *)
Definition layout (c e10 : Z) : string :=
  let digits := PyNum.str_of_int c in
  let len := Z.of_nat (String.length digits) in
  let decpt := len + e10 in
  if (decpt <=? -4) || (16 <? decpt) then
    let mantissa :=
      match digits with
      | String c0 EmptyString => digits
      | String c0 rest => String c0 (String "." rest)
      | EmptyString => digits
      end in
    let x := decpt - 1 in
    let sign := if x <? 0 then "-" else "+" in
    (mantissa ++ "e" ++ sign ++ two_digits (Z.abs x))%string
  else if decpt <=? 0 then
    ("0." ++ zeros (Z.to_nat (- decpt)) ++ digits)%string
  else if len <=? decpt then
    (digits ++ zeros (Z.to_nat (decpt - len)) ++ ".0")%string
  else
    (substring 0 (Z.to_nat decpt) digits ++ "."
       ++ substring (Z.to_nat decpt) (Z.to_nat (len - decpt)) digits)%string.

Definition float_repr (f : PyNum.float) : string :=
  match f with
  | S754_zero false => "0.0"
  | S754_zero true => "-0.0"
  | S754_infinity false => "inf"
  | S754_infinity true => "-inf"
  | S754_nan => "nan"
  | S754_finite s m e =>
      let (c, e10) := shortest 17 m e 1 in
      let (c', e10') := strip_zeros 400 c e10 in
      ((if s then "-" else EmptyString) ++ layout c' e10')%string
  end.

End Repr.

(* ================================================================== *)
(** * The vocabulary of the specification *)

Module Spec.

(** [count(p)]: how many records satisfy [p]. *)
Definition count {A : Type} (p : A -> bool) (xs : list A) : Z :=
  Z.of_nat (List.length (filter p xs)).

(** The exact integer sum of one field over the records. *)
Fixpoint total (field : game -> Z) (games : list game) : Z :=
  match games with
  | [] => 0
  | g :: rest => field g + total field rest
  end.

(** [round(sum / n, nd)]. *)
Definition average (sum n : Z) (nd : nat) : outcome PyNum.float :=
  q <- PyNum.truediv sum n ;; PyNum.round q nd.

(** [round(part / whole * 100, 1)]. *)
Definition percentage (part whole : Z) : outcome PyNum.float :=
  q <- PyNum.truediv part whole ;;
  p <- PyNum.mul_int q 100 ;;
  PyNum.round p 1.

(** The totals that are averaged. *)
Definition averaged_totals (games : list game) : list Z :=
  [ total points_scored games;
    total points_allowed games;
    total rushing_yards games;
    total passing_yards games;
    total rushing_yards games + total passing_yards games;
    total turnovers games ].

(** Every averaged total is far inside the range of a float, so that no
    quotient overflows. *)
Definition in_float_range (games : list game) : Prop :=
  Forall (fun t => Z.abs t < 2 ^ 1000) (averaged_totals games).

(** A record in neither split. *)
Definition is_neither (g : game) : bool := negb (is_home g) && negb (is_away g).

(** [f] is a zero or a finite float of magnitude below [2^k]. *)
Definition below (f : spec_float) (k : Z) : Prop :=
  match f with
  | S754_zero _ => True
  | S754_finite _ m e => Zdigits2 (Zpos m) + e <= k /\ e <= 971
  | _ => False
  end.

(** The report assembled from its values, category by category. *)
Definition report (n wins : Z) (win_pct : PyNum.float)
    (scored allowed : Z) (avg_scored avg_allowed : PyNum.float)
    (rushing passing : Z) (avg_rushing avg_passing avg_yards : PyNum.float)
    (lost_balls : Z) (avg_lost_balls : PyNum.float)
    (home_won home_lost away_won away_lost : Z) : pyval :=
  PyDict
    [ ("summary", PyDict
        [ ("total_games", PyInt n);
          ("wins", PyInt wins);
          ("losses", PyInt (n - wins));
          ("win_percentage", PyFloat win_pct) ]);
      ("scoring", PyDict
        [ ("total_points_scored", PyInt scored);
          ("total_points_allowed", PyInt allowed);
          ("avg_points_scored", PyFloat avg_scored);
          ("avg_points_allowed", PyFloat avg_allowed);
          ("point_differential", PyInt (scored - allowed)) ]);
      ("offense", PyDict
        [ ("total_rushing_yards", PyInt rushing);
          ("total_passing_yards", PyInt passing);
          ("total_yards", PyInt (rushing + passing));
          ("avg_rushing_yards", PyFloat avg_rushing);
          ("avg_passing_yards", PyFloat avg_passing);
          ("avg_total_yards", PyFloat avg_yards) ]);
      ("turnovers", PyDict
        [ ("total_turnovers", PyInt lost_balls);
          ("avg_turnovers_per_game", PyFloat avg_lost_balls) ]);
      ("home_away", PyDict
        [ ("home_record", PyStr (record_string home_won home_lost));
          ("away_record", PyStr (record_string away_won away_lost)) ]) ].

(** The ten field names of the input schema, in their fixed order. *)
Definition fieldnames : list string :=
  [ "game_id"; "date"; "opponent"; "home_away"; "points_scored";
    "points_allowed"; "rushing_yards"; "passing_yards"; "turnovers"; "result" ].

(** The six fields read as integers. *)
Definition int_fields : list string :=
  [ "game_id"; "points_scored"; "points_allowed"; "rushing_yards";
    "passing_yards"; "turnovers" ].

(** The header does not name field [k]: the row dictionary has no such
    key. *)
Definition lacks_key (d : DictReader.rowdict) : Prop :=
  exists k, In k fieldnames /\ DictReader.get (Some k) d = None.

(** An integer field holds no integer: its cell is missing or [int] does
    not read its text. *)
Definition bad_integer (int_of_str : string -> option Z) (d : DictReader.rowdict) : Prop :=
  exists k v, In k int_fields /\ DictReader.get (Some k) d = Some v /\
              is_ok (IntLiteral.of_obj int_of_str v) = false.

Definition defective (int_of_str : string -> option Z) (d : DictReader.rowdict) : Prop :=
  lacks_key d \/ bad_integer int_of_str d.

(** The rows that are not defective: every field is named, and every
    integer field holds an integer. *)
Definition acceptable (int_of_str : string -> option Z) (d : DictReader.rowdict) : Prop :=
  (forall k, In k fieldnames -> DictReader.get (Some k) d <> None) /\
  (forall k v, In k int_fields -> DictReader.get (Some k) d = Some v ->
               is_ok (IntLiteral.of_obj int_of_str v) = true).

(** The record [g] holds the fields of the row [d]: the integer fields as
    [int] reads them, the text fields as they are. *)
Definition holds_fields (int_of_str : string -> option Z) (d : DictReader.rowdict)
    (g : game) : Prop :=
  let int_at k z :=
    exists v, DictReader.get (Some k) d = Some v /\ IntLiteral.of_obj int_of_str v = Ok z in
  int_at "game_id" (game_id g) /\
  DictReader.get (Some "date") d = Some (date g) /\
  DictReader.get (Some "opponent") d = Some (opponent g) /\
  DictReader.get (Some "home_away") d = Some (home_away g) /\
  int_at "points_scored" (points_scored g) /\
  int_at "points_allowed" (points_allowed g) /\
  int_at "rushing_yards" (rushing_yards g) /\
  int_at "passing_yards" (passing_yards g) /\
  int_at "turnovers" (turnovers g) /\
  DictReader.get (Some "result") d = Some (result g).

(** The errors a defective row raises: the specification's ParseError. *)
Definition parse_error (e : exn) : Prop :=
  match e with
  | KeyError k => In k fieldnames
  | TypeError | ValueError => True
  | _ => False
  end.

(** The directories the writer creates on its way to the file [p]. *)
Definition created (p : path) (es : list entry) : list PosixPath.pure_path :=
  match dirname p with
  | Some D => if is_directory D es then [] else missing D es
  | None => []
  end.

(** The exception the writer raises on the file [p], if any:
    [FileNotFoundError] for a file of the current directory, whose
    [dirname] is empty; [FileExistsError] for a regular file where its
    directory should be, [NotADirectoryError] for one above that place;
    [IsADirectoryError] for a directory where the file should be. *)
Definition write_error (p : path) (es : list entry) : option exn :=
  match dirname p with
  | None => Some FileNotFoundError
  | Some D =>
      if is_directory D es then
        if is_directory (pure p) es then Some IsADirectoryError else None
      else if is_regular D es then Some FileExistsError
      else if blocked D es then Some NotADirectoryError
      else None
  end.

(** The record of a data row read by position: ten cells, the six integer
    cells read by [int]. *)
Definition game_of_cells (int_of_str : string -> option Z) (cells : DictReader.row)
  : option game :=
  match cells with
  | [gid; d; o; h; ps; pa; ry; py; t; r] =>
      match int_of_str gid, int_of_str ps, int_of_str pa,
            int_of_str ry, int_of_str py, int_of_str t with
      | Some gid', Some ps', Some pa', Some ry', Some py', Some t' =>
          Some (mkGame gid' (PStr d) (PStr o) (PStr h) ps' pa' ry' py' t' (PStr r))
      | _, _, _, _, _, _ => None
      end
  | _ => None
  end.

(** A well-formed source: the reader yields its rows to the end, the header
    names the ten fields and every data row supplies ten cells whose integer
    cells [int] reads. *)
Definition well_formed (int_of_str : string -> option Z)
    (source : list DictReader.row * option exn) (data : list DictReader.row) : Prop :=
  source = (fieldnames :: data, None) /\
  Forall (fun cells => game_of_cells int_of_str cells <> None) data.

End Spec.

(* ================================================================== *)
(** * Sample data *)

Module Sample.

Definition played (id : Z) (where_ : string) (scored allowed rushing passing lost : Z)
    (res : string) : game :=
  mkGame id (PStr "2024-09-08") (PStr "DAL") (PStr where_)
         scored allowed rushing passing lost (PStr res).

(** Scenario A: one home win, 30 to 20. *)
Definition opener : game := played 1 "home" 30 20 100 200 1 "W".

(** Scenario B: three home games, won, lost, won. *)
Definition home_stand : list game :=
  [ played 1 "home" 30 20 100 200 1 "W";
    played 2 "home" 17 24 80 250 2 "L";
    played 3 "home" 27 13 150 210 0 "W" ].

(** Scenario C: a home win, an away loss and a win on neutral ground. *)
Definition with_neutral : list game :=
  [ played 1 "home" 30 20 100 200 1 "W";
    played 2 "away" 17 24 80 250 2 "L";
    played 3 "neutral" 27 13 150 210 0 "W" ].

(** A game whose score does not fit a float. *)
Definition runaway : game := played 1 "home" (2 ^ 1030) 20 100 200 1 "W".

Definition line_feed : string := String (ascii_of_nat 10) EmptyString.

Definition header : string :=
  "game_id,date,opponent,home_away,points_scored,points_allowed,rushing_yards,passing_yards,turnovers,result".

(** A source of two complete rows. *)
Definition two_games : string :=
  (header ++ line_feed
    ++ "1,2024-09-08,DAL,home,30,20,100,200,1,W" ++ line_feed
    ++ "2,2024-09-15,NYG,away,17,24,80,250,2,L" ++ line_feed)%string.

(** A source whose only data row stops after the turnovers cell: the result
    field is missing. *)
Definition no_result : string :=
  (header ++ line_feed
    ++ "1,2024-09-08,DAL,home,30,20,100,200,1" ++ line_feed)%string.

(** Scenario D: the data row stops before the turnovers cell. *)
Definition no_turnovers : string :=
  (header ++ line_feed
    ++ "1,2024-09-08,DAL,home,30,20,100,200" ++ line_feed)%string.


(** The input directory. *)
Definition input : entry := DirAt (PosixPath.parse "input").

(** A season directory holding one source, and nothing printed yet. *)
Definition season (text : string) : world :=
  mkWorld [input; FileAt ("input", "games.csv") text] [].




End Sample.

(* ================================================================== *)
(** * The entry point: [main] *)

Section EntryPoint.

Variable csv_reader : string -> list DictReader.row * option exn.
Variable int_of_str : string -> option Z.
Variable float_repr : PyNum.float -> string.

(** [str(d)] for a dictionary [d].  It belongs to the interpreter and is
    taken as a parameter. *)
Variable dict_str : list (string * pyval) -> string.

(** [bool(v)], as [if analytics:] tests it. *)
Definition truthy (v : pyval) : bool :=
  match v with
  | PyInt z => negb (z =? 0)
  | PyFloat (S754_zero _) => false
  | PyFloat _ => true
  | PyStr EmptyString => false
  | PyStr _ => true
  | PyDict [] => false
  | PyDict (_ :: _) => true
  end.

(** [v[k]] for a string key [k]: a [KeyError] on a dictionary without the
    key, a [TypeError] on a value that is no dictionary. *)
Definition subscript (k : string) (v : pyval) : outcome pyval :=
  match v with
  | PyDict items =>
      match assoc k items with
      | Some x => Ok x
      | None => Raise (KeyError k)
      end
  | _ => Raise TypeError
  end.

(** A value inside an f-string: [format(v, "")]. *)
Definition format_value (v : pyval) : string :=
  match v with
  | PyInt z => PyNum.str_of_int z
  | PyFloat f => float_repr f
  | PyStr s => s
  | PyDict items => dict_str items
  end.

(** The text of [{analytics[k1][k2]}]. *)
Definition shown (k1 k2 : string) (analytics : pyval) : io string :=
  lift (d <- subscript k1 analytics ;;
        v <- subscript k2 d ;;
        Ok (format_value v)).

(** ["=" * 40]. *)
Definition rule : string := Json.join EmptyString (repeat "=" 40%nat).

(** [main], run from a script whose grandparent directory is
    [project_root]; [input_dir] and [output_dir] are the texts of
    [project_root / "input"] and [project_root / "output"]. *)
Definition main (project_root : string) : io unit :=
  let input_dir := path_str (project_root, "input") in
  let output_dir := path_str (project_root, "output") in
  print "Eagles Analytics" ;;;
  print rule ;;;
  analytics <~ run_analytics csv_reader int_of_str float_repr input_dir output_dir ;;
  if truthy analytics then
    print (Json.newline ++ "Season Summary:") ;;;
    wins <~ shown "summary" "wins" analytics ;;
    losses <~ shown "summary" "losses" analytics ;;
    print ("  Record: " ++ wins ++ "-" ++ losses) ;;;
    win_percentage <~ shown "summary" "win_percentage" analytics ;;
    print ("  Win Percentage: " ++ win_percentage ++ "%") ;;;
    print (Json.newline ++ "Scoring:") ;;;
    avg_points_scored <~ shown "scoring" "avg_points_scored" analytics ;;
    print ("  Avg Points Scored: " ++ avg_points_scored) ;;;
    avg_points_allowed <~ shown "scoring" "avg_points_allowed" analytics ;;
    print ("  Avg Points Allowed: " ++ avg_points_allowed) ;;;
    point_differential <~ shown "scoring" "point_differential" analytics ;;
    print ("  Point Differential: " ++ point_differential) ;;;
    print (Json.newline ++ "Offense:") ;;;
    avg_total_yards <~ shown "offense" "avg_total_yards" analytics ;;
    print ("  Avg Total Yards: " ++ avg_total_yards) ;;;
    print (Json.newline ++ "Home/Away:") ;;;
    home_record <~ shown "home_away" "home_record" analytics ;;
    print ("  Home Record: " ++ home_record) ;;;
    away_record <~ shown "home_away" "away_record" analytics ;;
    print ("  Away Record: " ++ away_record)
  else ret tt.

End EntryPoint.

(** The world in which [main] starts its run: the two lines of the banner
    are printed. *)
Definition after_banner (w : world) : world :=
  mkWorld (entries w) ((stdout w ++ ["Eagles Analytics"]) ++ [rule])%list.

(* ================================================================== *)
(** * Columns by name *)

Module Columns.

(** What [row[k]] holds for a header [names] and a row [cells], read off the
    positions: the cell under the last column named [k], [None] when the row
    ends before that column, no value when no column is named [k]. *)
Fixpoint field_value (k : string) (names cells : list string) : option pyobj :=
  match names with
  | [] => None
  | n :: ns =>
      match field_value k ns (tl cells) with
      | Some v => Some v
      | None =>
          if String.eqb n k
          then Some (match cells with c :: _ => PStr c | [] => PNone end)
          else None
      end
  end.

End Columns.

(* ================================================================== *)
(** * The shape of a report *)

(** The keys of a dictionary, in insertion order. *)
Definition keys (v : pyval) : list string :=
  match v with
  | PyDict items => map fst items
  | _ => []
  end.

(** The categories of a value with their keys. *)
Definition layout_of (v : pyval) : list (string * list string) :=
  match v with
  | PyDict items => map (fun kv => (fst kv, keys (snd kv))) items
  | _ => []
  end.

(** The five categories of the dictionary literal of lines 73-103. *)
Definition schema : list (string * list string) :=
  [ ("summary", ["total_games"; "wins"; "losses"; "win_percentage"]);
    ("scoring", ["total_points_scored"; "total_points_allowed"; "avg_points_scored";
                 "avg_points_allowed"; "point_differential"]);
    ("offense", ["total_rushing_yards"; "total_passing_yards"; "total_yards";
                 "avg_rushing_yards"; "avg_passing_yards"; "avg_total_yards"]);
    ("turnovers", ["total_turnovers"; "avg_turnovers_per_game"]);
    ("home_away", ["home_record"; "away_record"]) ].

(** The integer fields of a report. *)
Definition integer_keys : list (string * string) :=
  [ ("summary", "total_games"); ("summary", "wins"); ("summary", "losses");
    ("scoring", "total_points_scored"); ("scoring", "total_points_allowed");
    ("scoring", "point_differential");
    ("offense", "total_rushing_yards"); ("offense", "total_passing_yards");
    ("offense", "total_yards"); ("turnovers", "total_turnovers") ].

(* ================================================================== *)
(** * More sample data *)

Module Fixture.

Definition row_one : string := "1,2024-09-08,DAL,home,30,20,100,200,1,W".
Definition row_two : string := "2,2024-09-15,NYG,away,17,24,80,250,2,L".

(** The two games of [Sample.two_games] with blank lines around them. *)
Definition spaced_out : string :=
  (Sample.header ++ Sample.line_feed ++ Sample.line_feed
     ++ row_one ++ Sample.line_feed ++ Sample.line_feed
     ++ row_two ++ Sample.line_feed)%string.

(** One game per source. *)
Definition week_one : string :=
  (Sample.header ++ Sample.line_feed ++ row_one ++ Sample.line_feed)%string.
Definition week_two : string :=
  (Sample.header ++ Sample.line_feed ++ row_two ++ Sample.line_feed)%string.

(** A directory with the plain and the spaced-out source. *)
Definition twice : world :=
  mkWorld [ Sample.input;
            FileAt ("input", "a.csv") Sample.two_games;
            FileAt ("input", "b.csv") spaced_out ] [].

(** The season split over two sources. *)
Definition split_season : world :=
  mkWorld [ Sample.input;
            FileAt ("input", "week1.csv") week_one;
            FileAt ("input", "week2.csv") week_two ] [].

(** The season among files that are no sources of the input directory, and
    with an old report in place. *)
Definition cluttered : world :=
  mkWorld [ Sample.input;
            FileAt ("input", "notes.txt") "to do";
            DirAt (PosixPath.parse "archive");
            FileAt ("archive", "old.csv") "not a table";
            FileAt ("input", "games.csv") Sample.two_games;
            DirAt (PosixPath.parse "output");
            FileAt ("output", "eagles_analytics_report.json") "stale" ]
          ["earlier output"].

(** The project of [main]: a root directory with its input directory. *)
Definition project (text : string) : world :=
  mkWorld [ DirAt (PosixPath.parse "root/input");
            FileAt ("root/input", "games.csv") text ] [].

(** A season whose input directory also holds a directory named like a
    source. *)
Definition with_directory : world :=
  mkWorld [ Sample.input;
            DirAt (PosixPath.parse "input/archive.csv");
            FileAt ("input", "games.csv") Sample.two_games ] [].


(** A season with a regular file where the output directory should be. *)
Definition output_taken : world :=
  mkWorld [ Sample.input;
            FileAt ("input", "games.csv") Sample.two_games;
            FileAt ("", "output") "in the way" ] [].

End Fixture.

(* ================================================================== *)
(** * Floats stay in range

    Rounding a bounded mantissa gives a finite float: no division,
    multiplication or decimal conversion of the aggregator overflows while
    its operands are bounded. *)

Import PyNum Spec.

Lemma digits2_pos_bounds (p : positive) :
  2 ^ (Zpos (digits2_pos p) - 1) <= Zpos p < 2 ^ Zpos (digits2_pos p).
Proof.
  induction p as [p IH | p IH | ]; cbn [digits2_pos].
  - rewrite Pos2Z.inj_succ.
    replace (Z.succ (Zpos (digits2_pos p)) - 1) with (Z.succ (Zpos (digits2_pos p) - 1)) by lia.
    rewrite !Z.pow_succ_r by lia. lia.
  - rewrite Pos2Z.inj_succ.
    replace (Z.succ (Zpos (digits2_pos p)) - 1) with (Z.succ (Zpos (digits2_pos p) - 1)) by lia.
    rewrite !Z.pow_succ_r by lia. lia.
  - cbn. lia.
Qed.

Lemma Zdigits2_nonneg (m : Z) : 0 <= Zdigits2 m.
Proof. destruct m; cbn; lia. Qed.

Lemma Zdigits2_le_iff (m k : Z) : 0 <= m -> 0 <= k -> (Zdigits2 m <= k <-> m < 2 ^ k).
Proof.
  intros Hm Hk. destruct m as [ | p | p]; try lia.
  - cbn. split; intros _; [apply Z.pow_pos_nonneg|]; lia.
  - cbn [Zdigits2]. pose proof (digits2_pos_bounds p) as [Hlo Hhi]. split; intros H.
    + eapply Z.lt_le_trans; [exact Hhi|]. apply Z.pow_le_mono_r; lia.
    + destruct (Z_le_gt_dec (Zpos (digits2_pos p)) k) as [ | Hgt]; [assumption|].
      exfalso. assert (2 ^ k <= 2 ^ (Zpos (digits2_pos p) - 1)) by (apply Z.pow_le_mono_r; lia). lia.
Qed.

Lemma Zdigits2_lt_pow (m : Z) : 0 <= m -> m < 2 ^ Zdigits2 m.
Proof. intros Hm. apply Zdigits2_le_iff; try lia. apply Zdigits2_nonneg. Qed.

Lemma Zdigits2_mono (a b : Z) : 0 <= a <= b -> Zdigits2 a <= Zdigits2 b.
Proof.
  intros H. apply Zdigits2_le_iff; try lia. apply Zdigits2_nonneg.
  pose proof (Zdigits2_lt_pow b). lia.
Qed.

Lemma Zdigits2_succ (m : Z) : 0 <= m -> Zdigits2 (m + 1) <= Zdigits2 m + 1.
Proof.
  intros Hm. pose proof (Zdigits2_nonneg m). apply Zdigits2_le_iff; try lia.
  rewrite Z.pow_add_r by lia. pose proof (Zdigits2_lt_pow m Hm). lia.
Qed.

Lemma Zdigits2_mul (a b : Z) : 0 <= a -> 0 <= b -> Zdigits2 (a * b) <= Zdigits2 a + Zdigits2 b.
Proof.
  intros Ha Hb. pose proof (Zdigits2_nonneg a). pose proof (Zdigits2_nonneg b).
  apply Zdigits2_le_iff; try nia.
  rewrite Z.pow_add_r by lia.
  pose proof (Zdigits2_lt_pow a Ha). pose proof (Zdigits2_lt_pow b Hb). nia.
Qed.

Lemma shr_1_digits (s : shr_record) :
  0 <= shr_m s ->
  0 <= shr_m (shr_1 s) /\ Zdigits2 (shr_m (shr_1 s)) = Z.max 0 (Zdigits2 (shr_m s) - 1).
Proof.
  destruct s as [m r t]. cbn [shr_m]. intros Hm.
  destruct m as [ | p | p]; try lia.
  - cbn. split; lia.
  - destruct p; cbn [shr_1 shr_m Zdigits2 digits2_pos];
      rewrite ?Pos2Z.inj_succ; split; lia.
Qed.

Lemma iter_shr_1_digits (p : positive) : forall s : shr_record,
  0 <= shr_m s ->
  0 <= shr_m (iter_pos shr_1 p s) /\
  Zdigits2 (shr_m (iter_pos shr_1 p s)) = Z.max 0 (Zdigits2 (shr_m s) - Zpos p).
Proof.
  induction p as [p IH | p IH | ]; intros s Hs; cbn [iter_pos].
  - destruct (shr_1_digits s Hs) as [H1 E1].
    destruct (IH _ H1) as [H2 E2]. destruct (IH _ H2) as [H3 E3].
    split; [assumption|]. rewrite E3, E2, E1. lia.
  - destruct (IH _ Hs) as [H2 E2]. destruct (IH _ H2) as [H3 E3].
    split; [assumption|]. rewrite E3, E2. lia.
  - apply shr_1_digits; assumption.
Qed.

Lemma fexp_eq (d : Z) : fexp prec emax d = Z.max (d - 53) (-1074).
Proof. reflexivity. Qed.

Lemma shr_m_of_loc (m : Z) (l : location) : shr_m (shr_record_of_loc m l) = m.
Proof. destruct l as [ | [ | | ]]; reflexivity. Qed.

Lemma round_nearest_even_bounds (m : Z) (l : location) :
  m <= round_nearest_even m l <= m + 1.
Proof.
  destruct l as [ | [ | | ]]; cbn [round_nearest_even]; try lia.
  destruct (Z.even m); lia.
Qed.

Lemma shr_fexp_spec (m e : Z) (l : location) :
  0 <= m ->
  exists mrs e',
    shr_fexp prec emax m e l = (mrs, e') /\
    0 <= shr_m mrs /\
    e' = Z.max e (fexp prec emax (Zdigits2 m + e)) /\
    Zdigits2 (shr_m mrs) + e' <= Z.max (Zdigits2 m + e) e'.
Proof.
  intros Hm. unfold shr_fexp, shr.
  pose proof (shr_m_of_loc m l) as Hrec.
  destruct (fexp prec emax (Zdigits2 m + e) - e) as [ | p | p] eqn:En.
  - eexists _, _. split; [reflexivity|]. rewrite Hrec. repeat split; lia.
  - destruct (iter_shr_1_digits p (shr_record_of_loc m l)) as [H0 Hd]; [rewrite Hrec; lia|].
    eexists _, _. split; [reflexivity|]. rewrite Hd, Hrec. repeat split; lia.
  - eexists _, _. split; [reflexivity|]. rewrite Hrec. repeat split; lia.
Qed.

Lemma binary_round_aux_below (s : bool) (mx ex : Z) (lx : location) (k : Z) :
  0 <= mx -> ex <= 970 -> Zdigits2 mx + ex <= k -> -1074 <= k <= 1023 ->
  below (binary_round_aux prec emax s mx ex lx) (k + 1).
Proof.
  intros Hm He Hd Hk. unfold binary_round_aux.
  destruct (shr_fexp_spec mx ex lx Hm) as (mrs1 & e1 & E1 & Hm1 & He1 & Hd1).
  rewrite E1.
  pose proof (round_nearest_even_bounds (shr_m mrs1) (loc_of_shr_record mrs1)) as Hr.
  set (m1 := round_nearest_even (shr_m mrs1) (loc_of_shr_record mrs1)) in *.
  assert (Hm1' : 0 <= m1) by lia.
  destruct (shr_fexp_spec m1 e1 loc_Exact Hm1') as (mrs2 & e2 & E2 & Hm2 & He2 & Hd2).
  rewrite E2.
  pose proof (Zdigits2_nonneg mx) as Hn.
  assert (Hdm1 : Zdigits2 m1 <= Zdigits2 (shr_m mrs1) + 1).
  { etransitivity; [|apply Zdigits2_succ; assumption]. apply Zdigits2_mono; lia. }
  rewrite fexp_eq in He1, He2.
  destruct (shr_m mrs2) as [ | p | p] eqn:Em2; [exact I | | lia].
  assert (He2' : e2 <= 971) by lia.
  replace (emax - prec) with 971 by reflexivity.
  destruct (Z.leb_spec e2 971); [|lia]. cbn [below]. lia.
Qed.

Lemma Zdigits2_pow2_le (a s : Z) : 0 <= a -> 0 <= s -> Zdigits2 (a * 2 ^ s) <= Zdigits2 a + s.
Proof.
  intros Ha Hs. pose proof (Zdigits2_nonneg a).
  assert (0 < 2 ^ s) by (apply Z.pow_pos_nonneg; lia).
  apply Zdigits2_le_iff; try nia.
  rewrite Z.pow_add_r by lia. pose proof (Zdigits2_lt_pow a Ha). nia.
Qed.

Lemma Zdigits2_quot_le (a b j : Z) :
  0 <= a -> 0 < b -> 0 <= j -> Zdigits2 a <= j + Zdigits2 b - 1 -> Zdigits2 (a / b) <= j.
Proof.
  intros Ha Hb Hj Hd.
  apply Zdigits2_le_iff; [apply Z.div_pos; lia | lia |].
  apply Z.div_lt_upper_bound; [lia|].
  destruct b as [ | p | p]; try lia. cbn [Zdigits2] in Hd.
  pose proof (digits2_pos_bounds p) as [Hlo _].
  assert (Ha' : a < 2 ^ (j + (Zpos (digits2_pos p) - 1))).
  { apply Zdigits2_le_iff; lia. }
  rewrite Z.pow_add_r in Ha' by lia.
  assert (0 < 2 ^ j) by (apply Z.pow_pos_nonneg; lia). nia.
Qed.

Lemma SFdiv_int_below (sa sb : bool) (a b : positive) (k : Z) :
  0 <= k <= 1023 ->
  Zdigits2 (Zpos a) - Zdigits2 (Zpos b) + 1 <= k ->
  below (SFdiv prec emax (S754_finite sa a 0) (S754_finite sb b 0)) (k + 1).
Proof.
  intros Hk Hd. unfold SFdiv, SFdiv_core_binary.
  set (d1 := Zdigits2 (Zpos a)) in *. set (d2 := Zdigits2 (Zpos b)) in *.
  replace (d1 + 0 - (d2 + 0)) with (d1 - d2) by lia.
  replace (0 - 0) with 0 by lia. rewrite fexp_eq.
  set (e' := Z.min (Z.max (d1 - d2 - 53) (-1074)) 0).
  set (m' := match 0 - e' with Z.pos _ => Z.shiftl (Zpos a) (0 - e') | 0 => Zpos a | Z.neg _ => 0 end).
  assert (He' : e' <= 0) by (subst e'; lia).
  assert (Hm' : m' = Zpos a * 2 ^ (- e')).
  { subst m'. destruct (0 - e') as [ | p | p] eqn:E; try lia.
    - replace (- e') with 0 by lia. lia.
    - rewrite Z.shiftl_mul_pow2 by lia. f_equal. f_equal. lia. }
  assert (Hpow : 0 < 2 ^ (- e')) by (apply Z.pow_pos_nonneg; lia).
  pose proof (Z_div_mod m' (Zpos b) eq_refl) as Hdm.
  assert (Hq : fst (Z.div_eucl m' (Zpos b)) = m' / Zpos b) by reflexivity.
  destruct (Z.div_eucl m' (Zpos b)) as [q r]. cbn [fst] in Hq. subst q.
  apply binary_round_aux_below; try lia.
  - apply Z.div_pos; lia.
  - assert (Zdigits2 (m' / Zpos b) <= k - e'); [|lia].
    apply Zdigits2_quot_le; try lia.
    rewrite Hm'. etransitivity; [apply Zdigits2_pow2_le; lia|]. fold d1 d2. lia.
Qed.

(** [signed] operands divided: the quotient is a zero or a bounded finite
    float. *)
Lemma SFdiv_signed_below (sa sb : bool) (a b k : Z) :
  0 <= a -> 0 < b -> 0 <= k <= 1023 ->
  Zdigits2 a - Zdigits2 b + 1 <= k ->
  below (SFdiv prec emax (signed sa a) (signed sb b)) (k + 1).
Proof.
  intros Ha Hb Hk Hd.
  destruct b as [ | q | q]; try lia.
  destruct a as [ | p | p]; try lia.
  - exact I.
  - cbn [signed]. apply SFdiv_int_below; assumption.
Qed.

Lemma below_ok (f : spec_float) (k : Z) :
  below f k -> checked f = Ok f.
Proof. destruct f; cbn; intros H; try reflexivity; contradiction. Qed.

Lemma below_mono (f : spec_float) (k k' : Z) : below f k -> k <= k' -> below f k'.
Proof. destruct f; cbn; intros H Hk; try assumption. lia. Qed.

Lemma truediv_below (a b k : Z) :
  0 < b -> 0 <= k <= 1023 -> Zdigits2 (Z.abs a) - Zdigits2 b + 1 <= k ->
  exists f, truediv a b = Ok f /\ below f (k + 1).
Proof.
  intros Hb Hk Hd. unfold truediv.
  destruct (Z.eqb_spec b 0); [lia|].
  assert (H : below (SFdiv prec emax (signed (a <? 0) (Z.abs a)) (signed (b <? 0) (Z.abs b))) (k + 1)).
  { apply SFdiv_signed_below; try lia. rewrite (Z.abs_eq b) by lia. assumption. }
  eexists. split; [apply (below_ok _ _ H) | exact H].
Qed.

Lemma pow10_pos (nd : nat) : 0 < 10 ^ Z.of_nat nd.
Proof. apply Z.pow_pos_nonneg; lia. Qed.

Lemma decimal_below (s : bool) (mag : Z) (nd : nat) (k : Z) :
  0 <= mag -> 0 <= k <= 1023 -> Zdigits2 mag <= k ->
  below (decimal s mag nd) (k + 1).
Proof.
  intros Hm Hk Hd. unfold decimal.
  pose proof (pow10_pos nd) as Hp.
  apply SFdiv_signed_below; try lia.
  assert (1 <= Zdigits2 (10 ^ Z.of_nat nd)); [|lia].
  destruct (10 ^ Z.of_nat nd) as [ | p | p]; try lia.
  cbn. lia.
Qed.

Lemma round_half_even_bounds (n d : Z) :
  0 <= n -> 0 < d -> n / d <= round_half_even n d <= n / d + 1.
Proof.
  intros Hn Hd. unfold round_half_even.
  destruct (2 * (n mod d) ?= d); [destruct (Z.even (n / d))| | ]; lia.
Qed.

Lemma scaled_magnitude_nonneg (m : positive) (e : Z) (nd : nat) :
  0 <= scaled_magnitude m e nd.
Proof.
  unfold scaled_magnitude. pose proof (pow10_pos nd).
  destruct e as [ | p | p].
  - cbn [Z.pow]. lia.
  - assert (0 < 2 ^ Zpos p) by (apply Z.pow_pos_nonneg; lia). nia.
  - assert (0 < 2 ^ Zpos p) by (apply Z.pow_pos_nonneg; lia).
    pose proof (round_half_even_bounds (Zpos m * 10 ^ Z.of_nat nd) (2 ^ Zpos p)).
    assert (0 <= Zpos m * 10 ^ Z.of_nat nd / 2 ^ Zpos p) by (apply Z.div_pos; nia).
    nia.
Qed.

Lemma scaled_magnitude_digits (m : positive) (e : Z) (nd : nat) (k : Z) :
  0 <= k -> Zdigits2 (Zpos m) + e <= k ->
  Zdigits2 (scaled_magnitude m e nd) <= k + Zdigits2 (10 ^ Z.of_nat nd) + 1.
Proof.
  intros Hk Hd. unfold scaled_magnitude. pose proof (pow10_pos nd) as Hp.
  set (t := 10 ^ Z.of_nat nd) in *.
  pose proof (Zdigits2_mul (Zpos m) t ltac:(lia) ltac:(lia)) as Hmul.
  pose proof (Zdigits2_nonneg t) as Ht.
  destruct e as [ | p | p].
  - rewrite Z.pow_0_r, Z.mul_1_r. lia.
  - etransitivity; [apply Zdigits2_pow2_le; nia|]. lia.
  - assert (H2 : 0 < 2 ^ Zpos p) by (apply Z.pow_pos_nonneg; lia).
    pose proof (round_half_even_bounds (Zpos m * t) (2 ^ Zpos p) ltac:(nia) H2) as Hr.
    assert (Hq : 0 <= Zpos m * t / 2 ^ Zpos p) by (apply Z.div_pos; nia).
    etransitivity; [apply (Zdigits2_mono _ (Zpos m * t / 2 ^ Zpos p + 1)); lia|].
    etransitivity; [apply Zdigits2_succ; assumption|].
    assert (Zdigits2 (Zpos m * t / 2 ^ Zpos p) <= k + Zdigits2 t); [|lia].
    apply Zdigits2_quot_le; try lia.
    assert (Zdigits2 (2 ^ Zpos p) = Zpos p + 1); [|lia].
    apply Z.le_antisymm.
    + apply Zdigits2_le_iff; try lia. apply Z.pow_lt_mono_r; lia.
    + destruct (Z_le_gt_dec (Zpos p + 1) (Zdigits2 (2 ^ Zpos p))) as [ | Hgt]; [assumption|].
      exfalso. assert (Zdigits2 (2 ^ Zpos p) <= Zpos p) as Hle by lia.
      apply Zdigits2_le_iff in Hle; lia.
Qed.

Lemma round_below (x : spec_float) (nd : nat) (k : Z) :
  0 <= k -> k + Zdigits2 (10 ^ Z.of_nat nd) + 1 <= 1023 -> below x k ->
  exists f, round x nd = Ok f /\ below f (k + Zdigits2 (10 ^ Z.of_nat nd) + 2).
Proof.
  intros Hk Hb Hx. pose proof (Zdigits2_nonneg (10 ^ Z.of_nat nd)) as Ht.
  destruct x as [s | s | | s m e]; cbn [below] in Hx; try contradiction.
  - exists (S754_zero s). split; [reflexivity | exact I].
  - destruct Hx as [Hd He]. unfold round.
    assert (H : below (decimal s (scaled_magnitude m e nd) nd)
                      (k + Zdigits2 (10 ^ Z.of_nat nd) + 1 + 1)).
    { apply decimal_below; try lia.
      - apply scaled_magnitude_nonneg.
      - apply scaled_magnitude_digits; assumption. }
    eexists. split; [apply (below_ok _ _ H)|].
    eapply below_mono; [exact H | lia].
Qed.

Lemma mul_int_100_below (x : spec_float) (k : Z) :
  0 <= k <= 1016 -> below x k ->
  exists f, mul_int x 100 = Ok f /\ below f (k + 8).
Proof.
  intros Hk Hx. unfold mul_int.
  change (float_of_int 100) with (Ok (S754_finite false 7036874417766400 (-46))).
  cbn [bind]. eexists. split; [reflexivity|].
  destruct x as [s | s | | s m e]; cbn [below] in Hx; try contradiction.
  - exact I.
  - destruct Hx as [Hd He]. cbn [SFmul].
    replace (k + 8) with (k + 7 + 1) by lia.
    apply binary_round_aux_below; try lia.
    rewrite Pos2Z.inj_mul.
    pose proof (Zdigits2_mul (Zpos m) 7036874417766400 ltac:(lia) ltac:(lia)) as Hmul.
    change (Zdigits2 7036874417766400) with 53 in Hmul. lia.
Qed.

Lemma Zdigits2_abs_le (t k : Z) : 0 <= k -> Z.abs t < 2 ^ k -> Zdigits2 (Z.abs t) <= k.
Proof. intros Hk Ht. apply Zdigits2_le_iff; lia. Qed.

Lemma Zdigits2_pos_ge1 (n : Z) : 0 < n -> 1 <= Zdigits2 n.
Proof. destruct n; cbn; lia. Qed.

(** An average of a total inside the float range is computed without
    overflow. *)
Lemma average_ok (t n : Z) (nd : nat) :
  0 < n -> Z.abs t < 2 ^ 1000 -> (nd <= 2)%nat ->
  exists f, average t n nd = Ok f.
Proof.
  intros Hn Ht Hnd. unfold average.
  destruct (truediv_below t n 1000) as (q & Eq & Hq); try lia.
  { pose proof (Zdigits2_abs_le t 1000 ltac:(lia) Ht). pose proof (Zdigits2_pos_ge1 n Hn). lia. }
  rewrite Eq. cbn [bind].
  assert (HD : Zdigits2 (10 ^ Z.of_nat nd) <= 7).
  { destruct nd as [ | [ | [ | nd]]]; try lia; cbn; lia. }
  destruct (round_below q nd 1001) as (f & Ef & _); try lia; [assumption|].
  exists f. exact Ef.
Qed.

(** A percentage of a part of a whole is computed without overflow. *)
Lemma percentage_ok (w n : Z) :
  0 <= w <= n -> 0 < n -> exists f, percentage w n = Ok f.
Proof.
  intros Hw Hn. unfold percentage.
  destruct (truediv_below w n 1) as (q & Eq & Hq); try lia.
  { rewrite Z.abs_eq by lia. pose proof (Zdigits2_mono w n ltac:(lia)). lia. }
  rewrite Eq. cbn [bind].
  destruct (mul_int_100_below q 2) as (p & Ep & Hp); try lia; [assumption|].
  rewrite Ep. cbn [bind].
  destruct (round_below p 1 10) as (f & Ef & _); try lia.
  { cbn. lia. }
  { assumption. }
  exists f. exact Ef.
Qed.

(* ================================================================== *)
(** * The aggregator *)

Lemma fold_add_map (f : game -> Z) (games : list game) : forall acc,
  fold_left Z.add (map f games) acc = acc + total f games.
Proof.
  induction games as [ | g rest IH]; intros acc; cbn [map fold_left total].
  - lia.
  - rewrite IH. lia.
Qed.

Lemma py_sum_total (f : game -> Z) (games : list game) :
  py_sum (map f games) = total f games.
Proof. unfold py_sum. rewrite fold_add_map. lia. Qed.

Lemma fold_add_ones {A : Type} (xs : list A) : forall acc,
  fold_left Z.add (map (fun _ => 1) xs) acc = acc + Z.of_nat (List.length xs).
Proof.
  induction xs as [ | x rest IH]; intros acc; cbn [map fold_left List.length].
  - lia.
  - rewrite IH. lia.
Qed.

Lemma count_wins_count (games : list game) : count_wins games = count is_win games.
Proof. unfold count_wins, py_sum, count. rewrite fold_add_ones. lia. Qed.

Lemma count_bounds {A : Type} (p : A -> bool) (xs : list A) :
  0 <= count p xs <= py_len xs.
Proof.
  unfold count, py_len. pose proof (filter_length_le p xs). lia.
Qed.

Lemma count_split {A : Type} (p : A -> bool) (xs : list A) :
  count p xs + count (fun x => negb (p x)) xs = py_len xs.
Proof.
  unfold count, py_len. induction xs as [ | x rest IH]; cbn [filter List.length].
  - reflexivity.
  - destruct (p x); cbn [negb List.length]; lia.
Qed.

Lemma count_filter {A : Type} (p q : A -> bool) (xs : list A) :
  count p (filter q xs) = count (fun x => q x && p x) xs.
Proof.
  unfold count. f_equal. f_equal.
  induction xs as [ | x rest IH]; cbn [filter]; [reflexivity|].
  destruct (q x); cbn [filter andb]; [destruct (p x)|]; rewrite ?IH; reflexivity.
Qed.

Lemma py_len_pos {A : Type} (x : A) (xs : list A) : 0 < py_len (x :: xs).
Proof. unfold py_len. cbn [List.length]. lia. Qed.

(** The aggregator on a non-empty list, with its sums and counts in the
    vocabulary of the specification. *)
Lemma calculate_analytics_eq (games : list game) :
  games <> [] ->
  let n := py_len games in
  let home := filter is_home games in
  let away := filter is_away games in
  calculate_analytics games =
    (wp <- percentage (count is_win games) n ;;
     a1 <- average (total points_scored games) n 1 ;;
     a2 <- average (total points_allowed games) n 1 ;;
     a3 <- average (total rushing_yards games) n 1 ;;
     a4 <- average (total passing_yards games) n 1 ;;
     a5 <- average (total rushing_yards games + total passing_yards games) n 1 ;;
     a6 <- average (total turnovers games) n 2 ;;
     Ok (report n (count is_win games) wp
           (total points_scored games) (total points_allowed games) a1 a2
           (total rushing_yards games) (total passing_yards games) a3 a4 a5
           (total turnovers games) a6
           (count is_win home) (py_len home - count is_win home)
           (count is_win away) (py_len away - count is_win away))).
Proof.
  intros Hne n home away. destruct games as [ | g rest]; [contradiction|].
  unfold calculate_analytics.
  rewrite !count_wins_count, !py_sum_total.
  fold n home away.
  assert (Hn : (0 <? n) = true) by (apply Z.ltb_lt, py_len_pos).
  rewrite Hn. unfold percentage, average, report.
  destruct (PyNum.truediv (count is_win (g :: rest)) n) as [q | e]; [|reflexivity].
  cbn [bind]. destruct (PyNum.mul_int q 100) as [p | e]; [|reflexivity].
  cbn [bind]. destruct (PyNum.round p 1) as [r | e]; reflexivity.
Qed.

Lemma in_float_range_inv (games : list game) :
  in_float_range games ->
  Z.abs (total points_scored games) < 2 ^ 1000 /\
  Z.abs (total points_allowed games) < 2 ^ 1000 /\
  Z.abs (total rushing_yards games) < 2 ^ 1000 /\
  Z.abs (total passing_yards games) < 2 ^ 1000 /\
  Z.abs (total rushing_yards games + total passing_yards games) < 2 ^ 1000 /\
  Z.abs (total turnovers games) < 2 ^ 1000.
Proof.
  unfold in_float_range, averaged_totals. intros H.
  repeat match goal with
         | H : Forall _ (_ :: _) |- _ => apply Forall_cons_iff in H; destruct H as [? H]
         end.
  repeat split; assumption.
Qed.

(** Inside the float range the aggregator returns the report of the
    specification. *)
Lemma calculate_analytics_ok (games : list game) :
  games <> [] -> in_float_range games ->
  let n := py_len games in
  let home := filter is_home games in
  let away := filter is_away games in
  exists wp a1 a2 a3 a4 a5 a6,
    percentage (count is_win games) n = Ok wp /\
    average (total points_scored games) n 1 = Ok a1 /\
    average (total points_allowed games) n 1 = Ok a2 /\
    average (total rushing_yards games) n 1 = Ok a3 /\
    average (total passing_yards games) n 1 = Ok a4 /\
    average (total rushing_yards games + total passing_yards games) n 1 = Ok a5 /\
    average (total turnovers games) n 2 = Ok a6 /\
    calculate_analytics games =
      Ok (report n (count is_win games) wp
            (total points_scored games) (total points_allowed games) a1 a2
            (total rushing_yards games) (total passing_yards games) a3 a4 a5
            (total turnovers games) a6
            (count is_win home) (py_len home - count is_win home)
            (count is_win away) (py_len away - count is_win away)).
Proof.
  intros Hne Hr n home away.
  assert (Hn : 0 < n) by (destruct games; [contradiction | apply py_len_pos]).
  destruct (in_float_range_inv games Hr) as (R1 & R2 & R3 & R4 & R5 & R6).
  destruct (percentage_ok (count is_win games) n) as [wp Hwp];
    [apply count_bounds | assumption |].
  destruct (average_ok (total points_scored games) n 1) as [a1 H1]; try lia.
  destruct (average_ok (total points_allowed games) n 1) as [a2 H2]; try lia.
  destruct (average_ok (total rushing_yards games) n 1) as [a3 H3]; try lia.
  destruct (average_ok (total passing_yards games) n 1) as [a4 H4]; try lia.
  destruct (average_ok (total rushing_yards games + total passing_yards games) n 1)
    as [a5 H5]; try lia.
  destruct (average_ok (total turnovers games) n 2) as [a6 H6]; try lia.
  exists wp, a1, a2, a3, a4, a5, a6.
  repeat (split; [assumption|]).
  rewrite (calculate_analytics_eq games Hne). fold n home away.
  rewrite Hwp, H1, H2, H3, H4, H5, H6. reflexivity.
Qed.

Lemma checked_error (f : spec_float) (e : exn) :
  PyNum.checked f = Raise e -> e = OverflowError.
Proof. destruct f; cbn; congruence. Qed.

Lemma truediv_error (a b : Z) (e : exn) :
  b <> 0 -> PyNum.truediv a b = Raise e -> e = OverflowError.
Proof.
  intros Hb. unfold PyNum.truediv. destruct (Z.eqb_spec b 0); [contradiction|].
  apply checked_error.
Qed.

Lemma round_error (x : spec_float) (nd : nat) (e : exn) :
  PyNum.round x nd = Raise e -> e = OverflowError.
Proof. destruct x; cbn; try congruence. apply checked_error. Qed.

Lemma average_error (t n : Z) (nd : nat) (e : exn) :
  n <> 0 -> average t n nd = Raise e -> e = OverflowError.
Proof.
  intros Hn. unfold average.
  destruct (PyNum.truediv t n) as [q | e'] eqn:E; cbn [bind].
  - apply round_error.
  - intros H. injection H as <-. exact (truediv_error _ _ _ Hn E).
Qed.

Lemma percentage_error (w n : Z) (e : exn) :
  n <> 0 -> percentage w n = Raise e -> e = OverflowError.
Proof.
  intros Hn. unfold percentage.
  destruct (PyNum.truediv w n) as [q | e'] eqn:E; cbn [bind].
  - unfold PyNum.mul_int.
    change (PyNum.float_of_int 100) with (Ok (S754_finite false 7036874417766400 (-46))).
    cbn [bind]. apply round_error.
  - intros H. injection H as <-. exact (truediv_error _ _ _ Hn E).
Qed.

(** The only exception the aggregator raises is [OverflowError]. *)
Lemma calculate_analytics_error (games : list game) (e : exn) :
  calculate_analytics games = Raise e -> e = OverflowError.
Proof.
  destruct games as [ | g rest] eqn:Eg; [discriminate|]. rewrite <- Eg.
  assert (Hne : games <> []) by (subst; discriminate).
  rewrite (calculate_analytics_eq games Hne).
  assert (Hn : py_len games <> 0) by (subst; pose proof (py_len_pos g rest); lia).
  clear Eg.
  repeat match goal with
         | |- bind ?r _ = Raise e -> _ =>
             let E := fresh "E" in
             destruct r eqn:E; cbn [bind];
             [ | intros H; injection H as <-;
                 first [ exact (percentage_error _ _ _ Hn E) | exact (average_error _ _ _ _ Hn E) ] ]
         end.
  discriminate.
Qed.

Lemma eq_str_iff (o : pyobj) (lit : string) : eq_str o lit = true <-> o = PStr lit.
Proof.
  destruct o as [ | s | l]; cbn; split; try congruence.
  - intros H. apply String.eqb_eq in H. congruence.
  - intros H. injection H as ->. apply String.eqb_refl.
Qed.

Lemma count_ext {A : Type} (p q : A -> bool) (xs : list A) :
  (forall x, p x = q x) -> count p xs = count q xs.
Proof.
  intros H. unfold count. f_equal. f_equal. apply filter_ext. exact H.
Qed.

Lemma count_minus {A : Type} (p q : A -> bool) (xs : list A) :
  py_len (filter q xs) - count p (filter q xs) = count (fun x => q x && negb (p x)) xs.
Proof.
  pose proof (count_split p (filter q xs)) as H.
  rewrite (count_filter (fun x => negb (p x)) q xs) in H. lia.
Qed.

(** Records split three ways: each is at home, away or neither. *)
Lemma count_three_ways (q : game -> bool) (games : list game) :
  count q games =
    count (fun g => is_home g && q g) games
    + count (fun g => is_away g && q g) games
    + count (fun g => is_neither g && q g) games.
Proof.
  unfold count. induction games as [ | g rest IH]; [reflexivity|].
  cbn [filter]. unfold is_neither at 1.
  assert (Hx : is_home g = true -> is_away g = false).
  { unfold is_home, is_away. intros H. apply eq_str_iff in H. rewrite H. reflexivity. }
  destruct (is_home g) eqn:Eh; [rewrite (Hx eq_refl) | destruct (is_away g)];
    destruct (q g); cbn [andb negb List.length]; lia.
Qed.

Lemma runaway_overflows : calculate_analytics [Sample.runaway] = Raise OverflowError.
Proof. vm_compute. reflexivity. Qed.

(** Scenario A of the specification: one home win, 30 to 20. *)
Example opener_report :
  exists d, calculate_analytics [Sample.opener] = Ok d /\
    item2 "summary" "wins" d = Some (PyInt 1) /\
    item2 "summary" "losses" d = Some (PyInt 0) /\
    item2 "summary" "win_percentage" d = Some (PyFloat (decimal false 1000 1)) /\
    item2 "scoring" "point_differential" d = Some (PyInt 10) /\
    item2 "home_away" "home_record" d = Some (PyStr "1-0") /\
    item2 "home_away" "away_record" d = Some (PyStr "0-0").
Proof. eexists. split; [vm_compute; reflexivity|]. repeat split. Qed.

(** The floats of the decimals [66.7] and [100.0] print as such. *)
Example decimals_print :
  Repr.float_repr (decimal false 667 1) = "66.7" /\
  Repr.float_repr (decimal false 1000 1) = "100.0".
Proof. split; vm_compute; reflexivity. Qed.

(** C1 (amended).  For every non-empty list of game records whose averaged
    totals are inside the float range, [calculate_analytics] returns a report
    whose [summary.total_games] is the length of the list, whose
    [summary.wins] is the number of records whose result is exactly the text
    [W], and whose [summary.losses] is the number of all other records, which
    is [total_games - wins]; hence [wins + losses = total_games]. *)
Theorem summary_counts (games : list game) :
  games <> [] -> in_float_range games ->
  let won := count (fun g => eq_str (result g) "W") games in
  let lost := count (fun g => negb (eq_str (result g) "W")) games in
  exists d,
    calculate_analytics games = Ok d /\
    item2 "summary" "total_games" d = Some (PyInt (Z.of_nat (List.length games))) /\
    item2 "summary" "wins" d = Some (PyInt won) /\
    item2 "summary" "losses" d = Some (PyInt lost) /\
    lost = Z.of_nat (List.length games) - won /\
    won + lost = Z.of_nat (List.length games) /\
    (forall g, eq_str (result g) "W" = true <-> result g = PStr "W").
Proof.
  intros Hne Hr won lost.
  destruct (calculate_analytics_ok games Hne Hr)
    as (wp & a1 & a2 & a3 & a4 & a5 & a6 & _ & _ & _ & _ & _ & _ & _ & E).
  pose proof (count_split is_win games) as Hs. unfold py_len in Hs.
  change (count is_win games) with won in Hs.
  change (count (fun x => negb (is_win x)) games) with lost in Hs.
  eexists. split; [exact E|].
  split; [reflexivity|]. split; [reflexivity|].
  split.
  { cbn. do 2 f_equal. change (count is_win games) with won. unfold py_len. lia. }
  split; [lia|]. split; [lia|].
  intros g. apply eq_str_iff.
Qed.

Lemma summary_counts_witness :
  exists d, calculate_analytics Sample.home_stand = Ok d /\
            item2 "summary" "wins" d = Some (PyInt 2) /\
            item2 "summary" "losses" d = Some (PyInt 1).
Proof.
  destruct (summary_counts Sample.home_stand) as (d & E & _ & Hw & Hl & _).
  - discriminate.
  - repeat constructor.
  - exists d. split; [exact E|]. split; [exact Hw | exact Hl].
Defined.

(** C1 as stated fails: a single record whose score is [2^1030] is a
    non-empty list, and the aggregator raises [OverflowError] on it instead
    of returning a summary. *)
Lemma summary_counts_overflow :
  [Sample.runaway] <> [] /\
  ~ exists d, calculate_analytics [Sample.runaway] = Ok d /\
              item2 "summary" "total_games" d = Some (PyInt 1).
Proof.
  split; [discriminate|]. intros (d & E & _).
  rewrite runaway_overflows in E. discriminate.
Qed.

Lemma count_all {A : Type} (xs : list A) : count (fun _ => true) xs = py_len xs.
Proof.
  unfold count, py_len. do 2 f_equal.
  induction xs as [ | x rest IH]; cbn [filter]; congruence.
Qed.

(** C2 (amended).  For every non-empty list of game records whose averaged
    totals are inside the float range, the records are split by comparing
    [home_away] with the exact texts [home] and [away]; in each split the
    wins are the records whose result is [W], the losses are the others, and
    the record string is [wins-losses], so wins and losses of a split add up
    to its size.  A record in neither split is still counted in
    [total_games] and in the season's wins. *)
Theorem home_away_split (games : list game) :
  games <> [] -> in_float_range games ->
  let at_home g := eq_str (home_away g) "home" in
  let away g := eq_str (home_away g) "away" in
  let won g := eq_str (result g) "W" in
  let home_wins := count (fun g => at_home g && won g) games in
  let home_losses := count (fun g => at_home g && negb (won g)) games in
  let away_wins := count (fun g => away g && won g) games in
  let away_losses := count (fun g => away g && negb (won g)) games in
  let neither g := negb (at_home g) && negb (away g) in
  exists d,
    calculate_analytics games = Ok d /\
    item2 "home_away" "home_record" d =
      Some (PyStr (str_of_int home_wins ++ "-" ++ str_of_int home_losses)) /\
    item2 "home_away" "away_record" d =
      Some (PyStr (str_of_int away_wins ++ "-" ++ str_of_int away_losses)) /\
    home_losses = count at_home games - home_wins /\
    away_losses = count away games - away_wins /\
    home_wins + home_losses = count at_home games /\
    away_wins + away_losses = count away games /\
    item2 "summary" "total_games" d =
      Some (PyInt (count at_home games + count away games + count neither games)) /\
    item2 "summary" "wins" d =
      Some (PyInt (home_wins + away_wins + count (fun g => neither g && won g) games)) /\
    (forall g, at_home g = true <-> home_away g = PStr "home") /\
    (forall g, away g = true <-> home_away g = PStr "away").
Proof.
  intros Hne Hr at_home away won home_wins home_losses away_wins away_losses neither.
  destruct (calculate_analytics_ok games Hne Hr)
    as (wp & a1 & a2 & a3 & a4 & a5 & a6 & _ & _ & _ & _ & _ & _ & _ & E).
  change at_home with is_home in *. change away with is_away in *.
  change won with is_win in *. change neither with is_neither in *.
  assert (Hh : py_len (filter is_home games) - count is_win (filter is_home games) = home_losses)
    by apply count_minus.
  assert (Ha : py_len (filter is_away games) - count is_win (filter is_away games) = away_losses)
    by apply count_minus.
  assert (Hhw : count is_win (filter is_home games) = home_wins) by apply count_filter.
  assert (Haw : count is_win (filter is_away games) = away_wins) by apply count_filter.
  assert (Hhs : home_wins + home_losses = count is_home games).
  { rewrite <- Hh, Hhw. unfold py_len, count. lia. }
  assert (Has : away_wins + away_losses = count is_away games).
  { rewrite <- Ha, Haw. unfold py_len, count. lia. }
  pose proof (count_three_ways (fun _ => true) games) as H3.
  pose proof (count_three_ways is_win games) as Hw3. fold home_wins away_wins in Hw3.
  assert (Hall : count (fun _ : game => true) games = py_len games) by apply count_all.
  rewrite Hall in H3.
  rewrite !(count_ext (fun g => _ && true) _ games (fun g => andb_true_r _)) in H3.
  eexists. split; [exact E|].
  unfold report.
  repeat split.
  - cbn. rewrite Hh, Hhw. reflexivity.
  - cbn. rewrite Ha, Haw. reflexivity.
  - lia.
  - lia.
  - assumption.
  - assumption.
  - cbn. do 2 f_equal. exact H3.
  - cbn. do 2 f_equal. exact Hw3.
  - apply eq_str_iff.
  - intros H. apply eq_str_iff. exact H.
  - apply eq_str_iff.
  - intros H. apply eq_str_iff. exact H.
Qed.

Lemma home_away_split_witness :
  exists d, calculate_analytics Sample.with_neutral = Ok d /\
            item2 "home_away" "home_record" d = Some (PyStr "1-0") /\
            item2 "home_away" "away_record" d = Some (PyStr "0-1") /\
            item2 "summary" "total_games" d = Some (PyInt 3) /\
            item2 "summary" "wins" d = Some (PyInt 2).
Proof.
  destruct (home_away_split Sample.with_neutral) as (d & E & Hh & Ha & _ & _ & _ & _ & Ht & Hw & _).
  - discriminate.
  - repeat constructor.
  - exists d. repeat split; assumption.
Defined.

(** C2 as stated fails: on the single record whose score is [2^1030] the
    aggregator raises [OverflowError] and renders no record string. *)
Lemma home_away_split_overflow :
  [Sample.runaway] <> [] /\
  ~ exists d, calculate_analytics [Sample.runaway] = Ok d /\
              item2 "home_away" "home_record" d = Some (PyStr "1-0").
Proof.
  split; [discriminate|]. intros (d & E & _).
  rewrite runaway_overflows in E. discriminate.
Qed.

Lemma decimal_zero (s : bool) (nd : nat) : decimal s 0 nd = S754_zero s.
Proof.
  unfold decimal. pose proof (pow10_pos nd) as Hp.
  destruct (10 ^ Z.of_nat nd) as [ | p | p]; try lia.
  destruct s; reflexivity.
Qed.

Lemma checked_ok (f g : spec_float) : checked f = Ok g -> g = f.
Proof. destruct f; cbn; congruence. Qed.

(** What [round] returns is the float of a decimal with [nd] places. *)
Lemma round_decimal (x : spec_float) (nd : nat) (k : Z) (f : spec_float) :
  below x k -> round x nd = Ok f ->
  exists s mag, 0 <= mag /\ f = decimal s mag nd.
Proof.
  intros Hx. destruct x as [s | s | | s m e]; cbn [below] in Hx; try contradiction.
  - cbn. intros H. injection H as <-. exists s, 0. split; [lia|].
    symmetry. apply decimal_zero.
  - cbn [round]. intros H. apply checked_ok in H.
    exists s, (scaled_magnitude m e nd). split; [apply scaled_magnitude_nonneg | exact H].
Qed.

Lemma average_decimal (t n : Z) (nd : nat) (f : spec_float) :
  0 < n -> Z.abs t < 2 ^ 1000 -> average t n nd = Ok f ->
  exists s mag, 0 <= mag /\ f = decimal s mag nd.
Proof.
  intros Hn Ht. unfold average.
  destruct (truediv_below t n 1000) as (q & Eq & Hq); try lia.
  { pose proof (Zdigits2_abs_le t 1000 ltac:(lia) Ht). pose proof (Zdigits2_pos_ge1 n Hn). lia. }
  rewrite Eq. cbn [bind]. apply (round_decimal _ _ _ _ Hq).
Qed.

Lemma percentage_decimal (w n : Z) (f : spec_float) :
  0 <= w <= n -> 0 < n -> percentage w n = Ok f ->
  exists s mag, 0 <= mag /\ f = decimal s mag 1.
Proof.
  intros Hw Hn. unfold percentage.
  destruct (truediv_below w n 1) as (q & Eq & Hq); try lia.
  { rewrite Z.abs_eq by lia. pose proof (Zdigits2_mono w n ltac:(lia)). lia. }
  rewrite Eq. cbn [bind].
  destruct (mul_int_100_below q 2) as (p & Ep & Hp); try lia; [assumption|].
  rewrite Ep. cbn [bind]. apply (round_decimal _ _ _ _ Hp).
Qed.

Lemma two_of_three_is_66_7 : percentage 2 3 = Ok (decimal false 667 1).
Proof. vm_compute. reflexivity. Qed.

(** C3 (amended).  For every non-empty list of game records whose averaged
    totals are inside the float range, [win_percentage] is
    [round(wins / total_games * 100, 1)], [avg_turnovers_per_game] is
    [round(total_turnovers / total_games, 2)] and is the only field with two
    decimals, the five other averages having one; for three records with
    results [W], [L], [W], all at home, the report has [wins = 2],
    [losses = 1], [win_percentage = 66.7] and [home_record = "2-1"]. *)
Theorem rounded_fields (games : list game) :
  games <> [] -> in_float_range games ->
  let n := Z.of_nat (List.length games) in
  let wins := count (fun g => eq_str (result g) "W") games in
  exists d win_pct avg_lost,
    calculate_analytics games = Ok d /\
    percentage wins n = Ok win_pct /\
    item2 "summary" "win_percentage" d = Some (PyFloat win_pct) /\
    (exists s mag, win_pct = decimal s mag 1) /\
    average (total turnovers games) n 2 = Ok avg_lost /\
    item2 "turnovers" "avg_turnovers_per_game" d = Some (PyFloat avg_lost) /\
    (exists s mag, avg_lost = decimal s mag 2) /\
    (forall category key,
       In (category, key)
          [ ("scoring", "avg_points_scored"); ("scoring", "avg_points_allowed");
            ("offense", "avg_rushing_yards"); ("offense", "avg_passing_yards");
            ("offense", "avg_total_yards") ] ->
       exists s mag, item2 category key d = Some (PyFloat (decimal s mag 1))) /\
    (map result games = [PStr "W"; PStr "L"; PStr "W"] ->
     Forall (fun g => home_away g = PStr "home") games ->
     item2 "summary" "wins" d = Some (PyInt 2) /\
     item2 "summary" "losses" d = Some (PyInt 1) /\
     item2 "summary" "win_percentage" d = Some (PyFloat (decimal false 667 1)) /\
     item2 "home_away" "home_record" d = Some (PyStr "2-1")).
Proof.
  intros Hne Hr n wins.
  destruct (calculate_analytics_ok games Hne Hr)
    as (wp & a1 & a2 & a3 & a4 & a5 & a6 & Hwp & H1 & H2 & H3 & H4 & H5 & H6 & E).
  destruct (in_float_range_inv games Hr) as (R1 & R2 & R3 & R4 & R5 & R6).
  assert (Hn : 0 < py_len games) by (destruct games; [contradiction | apply py_len_pos]).
  exists (report (py_len games) (count is_win games) wp
            (total points_scored games) (total points_allowed games) a1 a2
            (total rushing_yards games) (total passing_yards games) a3 a4 a5
            (total turnovers games) a6
            (count is_win (filter is_home games))
            (py_len (filter is_home games) - count is_win (filter is_home games))
            (count is_win (filter is_away games))
            (py_len (filter is_away games) - count is_win (filter is_away games))),
         wp, a6.
  split; [exact E|]. split; [exact Hwp|]. split; [reflexivity|].
  split.
  { destruct (percentage_decimal _ _ _ (count_bounds is_win games) Hn Hwp) as (s & mag & _ & ->).
    eauto. }
  split; [exact H6|]. split; [reflexivity|].
  split.
  { destruct (average_decimal _ _ _ _ Hn R6 H6) as (s & mag & _ & ->). eauto. }
  split.
  { intros category key Hin. cbn [In] in Hin.
    destruct Hin as [Hin | [Hin | [Hin | [Hin | [Hin | []]]]]]; injection Hin as <- <-.
    - destruct (average_decimal _ _ _ _ Hn R1 H1) as (s & mag & _ & ->). exists s, mag. reflexivity.
    - destruct (average_decimal _ _ _ _ Hn R2 H2) as (s & mag & _ & ->). exists s, mag. reflexivity.
    - destruct (average_decimal _ _ _ _ Hn R3 H3) as (s & mag & _ & ->). exists s, mag. reflexivity.
    - destruct (average_decimal _ _ _ _ Hn R4 H4) as (s & mag & _ & ->). exists s, mag. reflexivity.
    - destruct (average_decimal _ _ _ _ Hn R5 H5) as (s & mag & _ & ->). exists s, mag. reflexivity. }
  intros Hres Hhome.
  destruct games as [ | g1 [ | g2 [ | g3 [ | g4 rest]]]]; try discriminate.
  cbn [map] in Hres. injection Hres as W1 L2 W3.
  apply Forall_cons_iff in Hhome. destruct Hhome as [Q1 Hhome].
  apply Forall_cons_iff in Hhome. destruct Hhome as [Q2 Hhome].
  apply Forall_cons_iff in Hhome. destruct Hhome as [Q3 _].
  assert (Hc : count is_win [g1; g2; g3] = 2).
  { unfold count, is_win. cbn [filter]. rewrite W1, L2, W3. reflexivity. }
  assert (Hf : filter is_home [g1; g2; g3] = [g1; g2; g3]).
  { unfold is_home. cbn [filter]. rewrite Q1, Q2, Q3. reflexivity. }
  rewrite Hc in Hwp. change (py_len [g1; g2; g3]) with 3 in Hwp.
  rewrite two_of_three_is_66_7 in Hwp.
  assert (Ewp : wp = decimal false 667 1) by congruence. subst wp.
  unfold report. rewrite Hf, Hc. repeat split.
Qed.

Lemma rounded_fields_witness :
  exists d, calculate_analytics Sample.home_stand = Ok d /\
            item2 "summary" "win_percentage" d = Some (PyFloat (decimal false 667 1)) /\
            item2 "home_away" "home_record" d = Some (PyStr "2-1").
Proof.
  destruct (rounded_fields Sample.home_stand) as (d & wp & al & E & _ & _ & _ & _ & _ & _ & _ & H).
  - discriminate.
  - repeat constructor.
  - destruct H as (_ & _ & Hp & Hh).
    + reflexivity.
    + repeat constructor.
    + exists d. repeat split; assumption.
Defined.

(** C3 as stated fails: three records with results [W], [L], [W], all at
    home, the first with a score of [2^1030], make the aggregator raise
    [OverflowError]; no [win_percentage] is computed. *)
Lemma rounded_fields_overflow :
  let games := [ Sample.runaway;
                 Sample.played 2 "home" 17 24 80 250 2 "L";
                 Sample.played 3 "home" 27 13 150 210 0 "W" ] in
  map result games = [PStr "W"; PStr "L"; PStr "W"] /\
  Forall (fun g => home_away g = PStr "home") games /\
  ~ exists d, calculate_analytics games = Ok d /\
              item2 "summary" "win_percentage" d = Some (PyFloat (decimal false 667 1)).
Proof.
  cbv zeta. split; [reflexivity|]. split; [repeat constructor|].
  intros (d & E & _). vm_compute in E. discriminate.
Qed.

(** C4 (amended).  For every non-empty list of game records whose averaged
    totals are inside the float range, the scoring and offense totals are the
    exact integer sums of the per-game fields, [point_differential] is the
    integer [total_points_scored - total_points_allowed], [total_yards] is the
    sum of the rushing and passing totals, and each average is the
    corresponding exact sum divided by [total_games] and rounded to one
    decimal. *)
Theorem scoring_and_offense (games : list game) :
  games <> [] -> in_float_range games ->
  let n := Z.of_nat (List.length games) in
  let scored := total points_scored games in
  let allowed := total points_allowed games in
  let rushing := total rushing_yards games in
  let passing := total passing_yards games in
  exists d a1 a2 a3 a4 a5,
    calculate_analytics games = Ok d /\
    item2 "scoring" "total_points_scored" d = Some (PyInt scored) /\
    item2 "scoring" "total_points_allowed" d = Some (PyInt allowed) /\
    item2 "scoring" "point_differential" d = Some (PyInt (scored - allowed)) /\
    item2 "offense" "total_rushing_yards" d = Some (PyInt rushing) /\
    item2 "offense" "total_passing_yards" d = Some (PyInt passing) /\
    item2 "offense" "total_yards" d = Some (PyInt (rushing + passing)) /\
    average scored n 1 = Ok a1 /\
    item2 "scoring" "avg_points_scored" d = Some (PyFloat a1) /\
    average allowed n 1 = Ok a2 /\
    item2 "scoring" "avg_points_allowed" d = Some (PyFloat a2) /\
    average rushing n 1 = Ok a3 /\
    item2 "offense" "avg_rushing_yards" d = Some (PyFloat a3) /\
    average passing n 1 = Ok a4 /\
    item2 "offense" "avg_passing_yards" d = Some (PyFloat a4) /\
    average (rushing + passing) n 1 = Ok a5 /\
    item2 "offense" "avg_total_yards" d = Some (PyFloat a5).
Proof.
  intros Hne Hr n scored allowed rushing passing.
  destruct (calculate_analytics_ok games Hne Hr)
    as (wp & a1 & a2 & a3 & a4 & a5 & a6 & Hwp & H1 & H2 & H3 & H4 & H5 & H6 & E).
  eexists _, a1, a2, a3, a4, a5. split; [exact E|].
  repeat (split; [first [reflexivity | assumption]|]).
  reflexivity.
Qed.

Lemma scoring_and_offense_witness :
  exists d, calculate_analytics Sample.home_stand = Ok d /\
            item2 "scoring" "total_points_scored" d = Some (PyInt 74) /\
            item2 "scoring" "point_differential" d = Some (PyInt 17) /\
            item2 "offense" "total_yards" d = Some (PyInt 990) /\
            item2 "offense" "avg_total_yards" d = Some (PyFloat (decimal false 3300 1)).
Proof.
  destruct (scoring_and_offense Sample.home_stand)
    as (d & a1 & a2 & a3 & a4 & a5 & E & Hs & _ & Hd & _ & _ & Hy & _ & _ & _ & _ & _ & _ & _ & _ & H5 & Ha).
  - discriminate.
  - repeat constructor.
  - exists d. repeat split; try assumption.
    rewrite Ha. assert (a5 = decimal false 3300 1) as -> by (vm_compute in H5 |- *; congruence).
    reflexivity.
Defined.

(** C4 as stated fails: on the single record whose score is [2^1030] the
    aggregator raises [OverflowError] and reports no total. *)
Lemma scoring_and_offense_overflow :
  [Sample.runaway] <> [] /\
  ~ exists d, calculate_analytics [Sample.runaway] = Ok d /\
              item2 "scoring" "total_points_scored" d = Some (PyInt (2 ^ 1030)).
Proof.
  split; [discriminate|]. intros (d & E & _).
  rewrite runaway_overflows in E. discriminate.
Qed.

(** C5 (amended).  On the empty list [calculate_analytics] returns the empty
    dictionary and no error.  On any list it is a function of its argument
    alone; it returns whenever the averaged totals are inside the float
    range, and the one exception it can raise is [OverflowError]. *)
Theorem empty_input_and_errors :
  calculate_analytics [] = Ok empty_dict /\
  empty_dict = PyDict [] /\
  (forall games, in_float_range games -> exists d, calculate_analytics games = Ok d) /\
  (forall games e, calculate_analytics games = Raise e -> e = OverflowError).
Proof.
  split; [reflexivity|]. split; [reflexivity|]. split.
  - intros games Hr. destruct games as [ | g rest] eqn:Eg.
    + exists empty_dict. reflexivity.
    + rewrite <- Eg in *.
      destruct (calculate_analytics_ok games) as (? & ? & ? & ? & ? & ? & ? & H); try assumption.
      * subst. discriminate.
      * decompose [and] H. eauto.
  - apply calculate_analytics_error.
Qed.

Lemma empty_input_and_errors_witness :
  exists d, calculate_analytics Sample.with_neutral = Ok d.
Proof.
  destruct empty_input_and_errors as (_ & _ & H & _).
  apply (H Sample.with_neutral). repeat constructor.
Defined.

(** C5 as stated fails: the aggregator has an error condition.  On the
    single record whose score is [2^1030] it raises [OverflowError]. *)
Lemma aggregator_can_raise :
  calculate_analytics [Sample.runaway] = Raise OverflowError.
Proof. vm_compute. reflexivity. Qed.

(* ================================================================== *)
(** * The reader *)

Lemma getitem_error (k : string) (d : DictReader.rowdict) (e : exn) :
  DictReader.getitem k d = Raise e -> e = KeyError k /\ DictReader.get (Some k) d = None.
Proof.
  unfold DictReader.getitem. destruct (DictReader.get (Some k) d); [discriminate|].
  intros H. injection H as <-. split; reflexivity.
Qed.

Lemma getitem_ok (k : string) (d : DictReader.rowdict) (v : pyobj) :
  DictReader.getitem k d = Ok v -> DictReader.get (Some k) d = Some v.
Proof.
  unfold DictReader.getitem. destruct (DictReader.get (Some k) d); congruence.
Qed.

Ltac step_row :=
  match goal with
  | |- bind (int_field ?f ?k ?d) _ = _ -> _ =>
      let z := fresh "z" in let E := fresh "E" in
      destruct (int_field f k d) as [z | ?] eqn:E; cbn [bind]
  | |- bind (DictReader.getitem ?k ?d) _ = _ -> _ =>
      let v := fresh "v" in let E := fresh "E" in
      destruct (DictReader.getitem k d) as [v | ?] eqn:E; cbn [bind]
  end.

Section ReaderFacts.

Variable int_of_str : string -> option Z.

Lemma of_obj_error (o : pyobj) (e : exn) :
  IntLiteral.of_obj int_of_str o = Raise e -> e = TypeError \/ e = ValueError.
Proof.
  destruct o as [ | s | l]; cbn.
  - left. congruence.
  - destruct (int_of_str s); [discriminate|]. right. congruence.
  - left. congruence.
Qed.

Lemma int_field_error (k : string) (d : DictReader.rowdict) (e : exn) :
  int_field int_of_str k d = Raise e ->
  (e = KeyError k /\ DictReader.get (Some k) d = None) \/
  (exists v, DictReader.get (Some k) d = Some v /\
             IntLiteral.of_obj int_of_str v = Raise e /\
             (e = TypeError \/ e = ValueError)).
Proof.
  unfold int_field. destruct (DictReader.getitem k d) as [v | e'] eqn:E; cbn [bind].
  - intros H. right. exists v. split; [apply getitem_ok; assumption|].
    split; [assumption | eapply of_obj_error; eassumption].
  - intros H. injection H as <-. left. eapply getitem_error; eassumption.
Qed.

Lemma int_field_ok (k : string) (d : DictReader.rowdict) (z : Z) :
  int_field int_of_str k d = Ok z ->
  exists v, DictReader.get (Some k) d = Some v /\ IntLiteral.of_obj int_of_str v = Ok z.
Proof.
  unfold int_field. destruct (DictReader.getitem k d) as [v | e'] eqn:E; cbn [bind].
  - intros H. exists v. split; [apply getitem_ok; assumption | assumption].
  - discriminate.
Qed.

(** Every exception of a row is a parse error, and the row that raises it
    is defective. *)
Lemma game_of_row_error (d : DictReader.rowdict) (e : exn) :
  game_of_row int_of_str d = Raise e -> parse_error e /\ defective int_of_str d.
Proof.
  unfold game_of_row.
  repeat (step_row;
          [ | intros H; injection H as <-;
              first [ match goal with
                      | E : int_field _ ?k _ = Raise _ |- _ =>
                          apply int_field_error in E;
                          destruct E as [[-> Hn] | (cell & Hg & Hv & [-> | ->])];
                          [ split; [cbn; tauto | left; exists k; split; [cbn; tauto | exact Hn]]
                          | split; [cbn; tauto
                                   | right; exists k, cell; split; [cbn; tauto|];
                                     split; [exact Hg | rewrite Hv; reflexivity]]
                          | split; [cbn; tauto
                                   | right; exists k, cell; split; [cbn; tauto|];
                                     split; [exact Hg | rewrite Hv; reflexivity]] ]
                      end
                    | match goal with
                      | E : DictReader.getitem ?k _ = Raise _ |- _ =>
                          apply getitem_error in E; destruct E as [-> Hn];
                          split; [cbn; tauto | left; exists k; split; [cbn; tauto | exact Hn]]
                      end ] ]).
  discriminate.
Qed.

(** The record a row yields holds the fields of the row. *)
Lemma game_of_row_holds (d : DictReader.rowdict) (g : game) :
  game_of_row int_of_str d = Ok g -> holds_fields int_of_str d g.
Proof.
  unfold game_of_row.
  repeat (step_row; [ | discriminate ]).
  intros H. injection H as <-.
  repeat match goal with
         | E : int_field _ _ _ = Ok _ |- _ => apply int_field_ok in E
         | E : DictReader.getitem _ _ = Ok _ |- _ => apply getitem_ok in E
         end.
  unfold holds_fields. cbn [game_id date opponent home_away points_scored points_allowed
                              rushing_yards passing_yards turnovers result].
  repeat split; assumption.
Qed.

(** A row that yields a record names every field and holds an integer in
    each integer field. *)
Lemma game_of_row_sound (d : DictReader.rowdict) (g : game) :
  game_of_row int_of_str d = Ok g -> acceptable int_of_str d.
Proof.
  intros E. apply game_of_row_holds in E.
  destruct E as ((v0 & G0 & I0) & G1 & G2 & G3 & (v4 & G4 & I4) & (v5 & G5 & I5)
                 & (v6 & G6 & I6) & (v7 & G7 & I7) & (v8 & G8 & I8) & G9).
  split.
  - intros k Hin. cbn [In fieldnames] in Hin.
    repeat (destruct Hin as [<- | Hin]; [congruence|]). contradiction.
  - intros k cell Hin Hget. cbn [In int_fields] in Hin.
    repeat (destruct Hin as [<- | Hin];
            [ match goal with
              | H : DictReader.get (Some ?k) d = Some ?x,
                Hx : IntLiteral.of_obj int_of_str ?x = Ok _ |- _ =>
                  assert (cell = x) by congruence; subst cell; rewrite Hx; reflexivity
              end | ]).
    contradiction.
Qed.

Lemma acceptable_not_defective (d : DictReader.rowdict) :
  acceptable int_of_str d -> defective int_of_str d -> False.
Proof.
  intros [Hk Hi] [(k & Hin & Hnone) | (k & v & Hin & Hget & Hbad)].
  - exact (Hk k Hin Hnone).
  - rewrite (Hi k v Hin Hget) in Hbad. discriminate.
Qed.

(** A defective row yields no record: it raises a parse error. *)
Lemma defective_row_raises (d : DictReader.rowdict) :
  defective int_of_str d -> exists e, game_of_row int_of_str d = Raise e /\ parse_error e.
Proof.
  intros Hd. destruct (game_of_row int_of_str d) as [g | e] eqn:E.
  - exfalso. exact (acceptable_not_defective d (game_of_row_sound d g E) Hd).
  - exists e. split; [reflexivity | exact (proj1 (game_of_row_error d e E))].
Qed.

(** Every other row yields its record. *)
Lemma acceptable_row_returns (d : DictReader.rowdict) :
  acceptable int_of_str d ->
  exists g, game_of_row int_of_str d = Ok g /\ holds_fields int_of_str d g.
Proof.
  intros Ha. destruct (game_of_row int_of_str d) as [g | e] eqn:E.
  - exists g. split; [reflexivity | exact (game_of_row_holds d g E)].
  - exfalso. exact (acceptable_not_defective d Ha (proj2 (game_of_row_error d e E))).
Qed.

(** The loop over the rows appends one record per row, in order, and stops
    at the first row that raises. *)
Lemma read_rows_ok (rs : list DictReader.rowdict) : forall (gs acc : list game),
  Forall2 (fun r g => game_of_row int_of_str r = Ok g) rs gs ->
  read_rows int_of_str rs acc = Ok (acc ++ gs)%list.
Proof.
  induction rs as [ | r rest IH]; intros gs acc H; inversion H; subst; cbn [read_rows].
  - rewrite app_nil_r. reflexivity.
  - match goal with E : game_of_row _ r = Ok _ |- _ => rewrite E end. cbn [bind].
    rewrite (IH _ _ ltac:(eassumption)). rewrite <- app_assoc. reflexivity.
Qed.

Lemma read_rows_error (rs : list DictReader.rowdict) : forall (acc : list game) (e : exn),
  read_rows int_of_str rs acc = Raise e ->
  exists r, In r rs /\ game_of_row int_of_str r = Raise e.
Proof.
  induction rs as [ | r rest IH]; intros acc e; cbn [read_rows]; [discriminate|].
  destruct (game_of_row int_of_str r) as [g | e'] eqn:E; cbn [bind].
  - intros H. destruct (IH _ _ H) as (r' & Hin & Hr'). exists r'. split; [right|]; assumption.
  - intros H. injection H as <-. exists r. split; [left; reflexivity | assumption].
Qed.

Lemma read_rows_defective (rs : list DictReader.rowdict) :
  forall (acc : list game) (d : DictReader.rowdict),
  In d rs -> defective int_of_str d ->
  exists e, read_rows int_of_str rs acc = Raise e /\ parse_error e.
Proof.
  induction rs as [ | r rest IH]; intros acc d Hin Hd; [contradiction|].
  cbn [read_rows]. destruct (game_of_row int_of_str r) as [g | e'] eqn:E; cbn [bind].
  - destruct Hin as [-> | Hin].
    + destruct (defective_row_raises d Hd) as (e & He & _). congruence.
    + exact (IH _ d Hin Hd).
  - exists e'. split; [reflexivity | exact (proj1 (game_of_row_error r e' E))].
Qed.

(** A source with a defective row raises a parse error, whatever ends the
    iteration after its rows. *)
Lemma read_source_defective (source : list DictReader.row * option exn)
    (d : DictReader.rowdict) :
  In d (DictReader.rows (fst source)) -> defective int_of_str d ->
  exists e, read_source int_of_str source = Raise e /\ parse_error e.
Proof.
  intros Hin Hd. unfold read_source.
  destruct (read_rows_defective _ [] d Hin Hd) as (e & -> & He). cbn [bind]. eauto.
Qed.

(** A source whose rows all yield a record returns the records when the
    reader ends without an exception. *)
Lemma read_source_ok (rows : list DictReader.row) (gs : list game) :
  Forall2 (fun r g => game_of_row int_of_str r = Ok g) (DictReader.rows rows) gs ->
  read_source int_of_str (rows, None) = Ok gs.
Proof.
  intros H. unfold read_source. cbn [fst snd].
  rewrite (read_rows_ok _ gs [] H). reflexivity.
Qed.

(** What a source raises: a parse error of a row, or what ended the
    iteration. *)
Lemma read_source_error (source : list DictReader.row * option exn) (e : exn) :
  read_source int_of_str source = Raise e -> parse_error e \/ snd source = Some e.
Proof.
  unfold read_source.
  destruct (read_rows int_of_str (DictReader.rows (fst source)) []) as [gs | e'] eqn:E;
    cbn [bind].
  - destruct (snd source) as [e'' | ]; [|discriminate]. intros H. right. congruence.
  - intros H. injection H as <-. left.
    destruct (read_rows_error _ _ _ E) as (r & _ & Hr).
    exact (proj1 (game_of_row_error r e' Hr)).
Qed.

End ReaderFacts.

(* ================================================================== *)
(** * Paths and the file system *)

Lemma anchor_eqb_eq (a b : PosixPath.anchor) : PosixPath.anchor_eqb a b = true <-> a = b.
Proof. destruct a, b; cbn; split; congruence. Qed.

Lemma parts_eqb_eq (xs : list string) : forall ys,
  PosixPath.parts_eqb xs ys = true <-> xs = ys.
Proof.
  induction xs as [ | x rest IH]; intros [ | y ys]; cbn [PosixPath.parts_eqb];
    try (split; congruence).
  rewrite andb_true_iff, String.eqb_eq, IH. split.
  - intros [-> ->]. reflexivity.
  - intros H. injection H as -> ->. split; reflexivity.
Qed.

Lemma pure_path_eqb_eq (P Q : PosixPath.pure_path) : PosixPath.eqb P Q = true <-> P = Q.
Proof.
  destruct P as [a xs], Q as [b ys]. unfold PosixPath.eqb. cbn [PosixPath.anchor_of PosixPath.parts].
  rewrite andb_true_iff, anchor_eqb_eq, parts_eqb_eq. split.
  - intros [-> ->]. reflexivity.
  - intros H. injection H as -> ->. split; reflexivity.
Qed.

Lemma path_eqb_eq (p q : path) : path_eqb p q = true <-> pure p = pure q.
Proof. apply pure_path_eqb_eq. Qed.

Lemma path_eqb_refl (p : path) : path_eqb p p = true.
Proof. apply path_eqb_eq. reflexivity. Qed.

(** Paths that are equal name the same file for every other path. *)
Lemma path_eqb_same (p q r : path) : path_eqb p q = true -> path_eqb p r = path_eqb q r.
Proof. intros H. apply path_eqb_eq in H. unfold path_eqb. rewrite H. reflexivity. Qed.

Lemma path_eqb_sym (p q : path) : path_eqb p q = path_eqb q p.
Proof.
  destruct (path_eqb p q) eqn:E, (path_eqb q p) eqn:E'; try reflexivity.
  - apply path_eqb_eq in E. symmetry in E. apply path_eqb_eq in E. congruence.
  - apply path_eqb_eq in E'. symmetry in E'. apply path_eqb_eq in E'. congruence.
Qed.


Lemma starts_with_refl (xs : list string) : PosixPath.starts_with xs xs = true.
Proof.
  induction xs as [ | x rest IH]; [reflexivity|].
  cbn [PosixPath.starts_with]. rewrite String.eqb_refl. exact IH.
Qed.

Lemma anchor_eqb_refl (a : PosixPath.anchor) : PosixPath.anchor_eqb a a = true.
Proof. apply anchor_eqb_eq. reflexivity. Qed.

Lemma is_prefix_refl (P : PosixPath.pure_path) : PosixPath.is_prefix P P = true.
Proof. unfold PosixPath.is_prefix. rewrite anchor_eqb_refl, starts_with_refl. reflexivity. Qed.

Lemma starts_with_length (xs : list string) : forall ys,
  PosixPath.starts_with xs ys = true -> (List.length xs <= List.length ys)%nat.
Proof.
  induction xs as [ | x rest IH]; intros [ | y ys]; cbn [PosixPath.starts_with List.length];
    try lia; try discriminate.
  rewrite andb_true_iff. intros [_ H]. apply IH in H. lia.
Qed.

Lemma starts_with_front (xs zs : list string) : forall ys,
  PosixPath.starts_with (xs ++ zs) ys = true -> PosixPath.starts_with xs ys = true.
Proof.
  induction xs as [ | x rest IH]; intros ys; [reflexivity|].
  destruct ys as [ | y ys]; cbn [app PosixPath.starts_with]; [discriminate|].
  rewrite !andb_true_iff. intros [H1 H2]. split; [exact H1 | exact (IH _ H2)].
Qed.

(** What lies above a directory lies above its entries. *)
Lemma is_prefix_child (D X : PosixPath.pure_path) (name : string) :
  PosixPath.is_prefix (PosixPath.child D name) X = true -> PosixPath.is_prefix D X = true.
Proof.
  unfold PosixPath.is_prefix, PosixPath.child. cbn [PosixPath.anchor_of PosixPath.parts].
  rewrite !andb_true_iff. intros [H1 H2]. split; [exact H1 | exact (starts_with_front _ _ _ H2)].
Qed.

Lemma name_under_spec (front : list string) : forall (ps : list string) (name : string),
  PosixPath.name_under front ps = Some name -> ps = (front ++ [name])%list.
Proof.
  induction front as [ | x rest IH]; intros ps name; cbn [PosixPath.name_under].
  - destruct ps as [ | y [ | z zs]]; try discriminate. intros H. injection H as ->. reflexivity.
  - destruct ps as [ | y ys]; [discriminate|].
    destruct (String.eqb x y) eqn:E; [|discriminate].
    apply String.eqb_eq in E. subst y. intros H. rewrite (IH _ _ H). reflexivity.
Qed.

(** An entry of a directory is the directory's child of that name. *)
Lemma name_in_spec (D P : PosixPath.pure_path) (name : string) :
  PosixPath.name_in D P = Some name -> P = PosixPath.child D name.
Proof.
  unfold PosixPath.name_in. destruct (PosixPath.anchor_eqb _ _) eqn:E; [|discriminate].
  apply anchor_eqb_eq in E. intros H. apply name_under_spec in H.
  destruct P as [a ps], D as [b front]. cbn [PosixPath.anchor_of PosixPath.parts] in *.
  subst. reflexivity.
Qed.

(** The paths down to [P] are no longer than [P], and [P] is the last of
    them. *)
Lemma prefixes_length (P A : PosixPath.pure_path) :
  In A (PosixPath.prefixes P) ->
  (List.length (PosixPath.parts A) <= List.length (PosixPath.parts P))%nat.
Proof.
  unfold PosixPath.prefixes. intros H. apply in_map_iff in H. destruct H as (k & <- & _).
  cbn [PosixPath.parts]. rewrite length_firstn. lia.
Qed.

Lemma prefixes_self (P : PosixPath.pure_path) :
  PosixPath.parts P <> [] -> In P (PosixPath.prefixes P).
Proof.
  intros Hne. unfold PosixPath.prefixes. apply in_map_iff.
  exists (List.length (PosixPath.parts P)). split.
  - rewrite firstn_all. destruct P; reflexivity.
  - apply in_seq. destruct (PosixPath.parts P); [contradiction | cbn [List.length]; lia].
Qed.

(** ** The store *)

Lemma lookup_store_same (p : path) (text : string) (fs : list (path * string)) :
  lookup_file p (store_file p text fs) = Some text.
Proof.
  induction fs as [ | [q old] rest IH]; cbn [store_file lookup_file].
  - rewrite path_eqb_refl. reflexivity.
  - destruct (path_eqb q p) eqn:E; cbn [lookup_file]; rewrite E; [reflexivity | exact IH].
Qed.

Lemma lookup_store_other (p q : path) (text : string) (fs : list (path * string)) :
  path_eqb p q = false -> lookup_file p (store_file q text fs) = lookup_file p fs.
Proof.
  intros Hne. induction fs as [ | [q' old] rest IH]; cbn [store_file lookup_file].
  - rewrite path_eqb_sym, Hne. reflexivity.
  - destruct (path_eqb q' q) eqn:E; cbn [lookup_file].
    + rewrite (path_eqb_same q' q p E), path_eqb_sym, Hne. reflexivity.
    + rewrite IH. reflexivity.
Qed.

Lemma store_overwrite (p : path) (old new : string) (fs : list (path * string)) :
  store_file p new (store_file p old fs) = store_file p new fs.
Proof.
  induction fs as [ | [q text] rest IH]; cbn [store_file].
  - rewrite path_eqb_refl. reflexivity.
  - destruct (path_eqb q p) eqn:E; cbn [store_file]; rewrite E; [reflexivity|].
    rewrite IH. reflexivity.
Qed.

Lemma store_length (p : path) (text : string) (fs : list (path * string)) :
  List.length (store_file p text fs) =
    match lookup_file p fs with
    | Some _ => List.length fs
    | None => S (List.length fs)
    end.
Proof.
  induction fs as [ | [q old] rest IH]; cbn [store_file lookup_file List.length].
  - reflexivity.
  - destruct (path_eqb q p); cbn [List.length]; [reflexivity|].
    rewrite IH. destruct (lookup_file p rest); reflexivity.
Qed.

Lemma store_entry_overwrite (p : path) (old new : string) (es : list entry) :
  store_entry p new (store_entry p old es) = store_entry p new es.
Proof.
  induction es as [ | [q text | d] rest IH]; cbn [store_entry].
  - rewrite path_eqb_refl. reflexivity.
  - destruct (path_eqb q p) eqn:E; cbn [store_entry]; rewrite E; [reflexivity|].
    rewrite IH. reflexivity.
  - rewrite IH. reflexivity.
Qed.

(** A write changes the regular files as [store_file] says and leaves the
    directories alone; new directories leave the regular files alone. *)
Lemma regular_store (p : path) (text : string) (es : list entry) :
  regular (store_entry p text es) = store_file p text (regular es).
Proof.
  induction es as [ | [q old | d] rest IH]; cbn [store_entry regular store_file].
  - reflexivity.
  - destruct (path_eqb q p); cbn [regular]; [reflexivity | rewrite IH; reflexivity].
  - exact IH.
Qed.

Lemma directories_store (p : path) (text : string) (es : list entry) :
  directories (store_entry p text es) = directories es.
Proof.
  induction es as [ | [q old | d] rest IH]; cbn [store_entry directories].
  - reflexivity.
  - destruct (path_eqb q p); cbn [directories]; [reflexivity | exact IH].
  - rewrite IH. reflexivity.
Qed.

Lemma regular_new_dirs (es : list entry) (ds : list PosixPath.pure_path) :
  regular (es ++ map DirAt ds) = regular es.
Proof.
  induction es as [ | [q old | d] rest IH]; cbn [app regular].
  - induction ds as [ | d ds IH]; [reflexivity | exact IH].
  - rewrite IH. reflexivity.
  - exact IH.
Qed.

Lemma directories_new_dirs (es : list entry) (ds : list PosixPath.pure_path) :
  directories (es ++ map DirAt ds) = (directories es ++ ds)%list.
Proof.
  induction es as [ | [q old | d] rest IH]; cbn [app directories].
  - induction ds as [ | d ds IH]; [reflexivity | cbn [map directories]; rewrite IH; reflexivity].
  - exact IH.
  - rewrite IH. reflexivity.
Qed.

Lemma is_directory_store (P : PosixPath.pure_path) (p : path) (text : string) (es : list entry) :
  is_directory P (store_entry p text es) = is_directory P es.
Proof. unfold is_directory. rewrite directories_store. reflexivity. Qed.

(** Directories stay directories when entries are added. *)
Lemma is_directory_more (P : PosixPath.pure_path) (es : list entry)
    (ds : list PosixPath.pure_path) :
  is_directory P es = true -> is_directory P (es ++ map DirAt ds) = true.
Proof.
  unfold is_directory. destruct (PosixPath.parts P); [reflexivity|].
  rewrite directories_new_dirs, existsb_app. intros ->. reflexivity.
Qed.

(** A listed directory is a directory. *)
Lemma listed_is_directory (d : PosixPath.pure_path) (es : list entry) :
  In d (directories es) -> is_directory d es = true.
Proof.
  intros Hin. unfold is_directory. destruct (PosixPath.parts d); [reflexivity|].
  apply existsb_exists. exists d. split; [exact Hin | apply is_prefix_refl].
Qed.

(** Where an entry is a directory, so is the directory that holds it. *)
Lemma is_directory_parent (p : path) (es : list entry) :
  is_directory (pure p) es = true -> is_directory (PosixPath.parse (fst p)) es = true.
Proof.
  unfold is_directory, pure.
  destruct (PosixPath.parts (PosixPath.parse (fst p))) eqn:Ep; [reflexivity|].
  destruct (PosixPath.parts (PosixPath.child _ _)) eqn:Ec.
  - unfold PosixPath.child in Ec. cbn [PosixPath.parts] in Ec.
    destruct (PosixPath.parts (PosixPath.parse (fst p))); discriminate.
  - intros H. apply existsb_exists in H. destruct H as (X & Hin & Hp).
    apply existsb_exists. exists X. split; [exact Hin | exact (is_prefix_child _ _ _ Hp)].
Qed.

(** The directories created on the way to [D] do not lie below an entry
    of [D]. *)
Lemma child_not_above_prefixes (p : path) (A : PosixPath.pure_path) :
  In A (PosixPath.prefixes (PosixPath.parse (fst p))) ->
  PosixPath.is_prefix (pure p) A = false.
Proof.
  intros HA. apply prefixes_length in HA.
  destruct (PosixPath.is_prefix (pure p) A) eqn:E; [|reflexivity].
  unfold PosixPath.is_prefix in E. apply andb_true_iff in E. destruct E as [_ E].
  apply starts_with_length in E. unfold pure, PosixPath.child in E.
  cbn [PosixPath.parts] in E. rewrite length_app in E. cbn [List.length] in E. lia.
Qed.

(** ** The writer's two steps *)

(** After [os.makedirs] has created the missing directories, the directory
    of [p] exists and [p] itself is no directory. *)
Lemma makedirs_ready (p : path) (es : list entry) :
  let D := PosixPath.parse (fst p) in
  is_directory D es = false ->
  is_directory D (es ++ map DirAt (missing D es)) = true /\
  is_directory (pure p) (es ++ map DirAt (missing D es)) = false.
Proof.
  cbv zeta. intros Hd. split.
  - apply listed_is_directory. rewrite directories_new_dirs. apply in_or_app. right.
    unfold missing. apply filter_In. split; [|rewrite Hd; reflexivity].
    apply prefixes_self. intros Hnil. unfold is_directory in Hd. rewrite Hnil in Hd.
    discriminate.
  - destruct (is_directory (pure p) (es ++ map DirAt (missing (PosixPath.parse (fst p)) es)))
      eqn:E; [|reflexivity].
    exfalso. unfold is_directory in E.
    destruct (PosixPath.parts (pure p)) as [ | c cs] eqn:Ep.
    { unfold pure, PosixPath.child in Ep. cbn [PosixPath.parts] in Ep.
      destruct (PosixPath.parts (PosixPath.parse (fst p))); discriminate. }
    apply existsb_exists in E. destruct E as (X & Hin & Hp).
    rewrite directories_new_dirs in Hin. apply in_app_or in Hin. destruct Hin as [Hin | Hin].
    + assert (H : is_directory (pure p) es = true).
      { unfold is_directory. rewrite Ep. apply existsb_exists. exists X. split; assumption. }
      apply is_directory_parent in H. congruence.
    + unfold missing in Hin. apply filter_In in Hin. destruct Hin as [Hin _].
      rewrite (child_not_above_prefixes p X Hin) in Hp. discriminate.
Qed.

Lemma dirname_some (p : path) (D : PosixPath.pure_path) :
  dirname p = Some D -> D = PosixPath.parse (fst p).
Proof. unfold dirname. destruct (PosixPath.is_cwd _); congruence. Qed.

(** Where the writer can write, the directory of [p] exists once the
    missing directories are created, and [p] is no directory. *)
Lemma write_ready (p : path) (es : list entry) :
  write_error p es = None ->
  exists D, dirname p = Some D /\
    is_directory D (es ++ map DirAt (created p es)) = true /\
    is_directory (pure p) (es ++ map DirAt (created p es)) = false.
Proof.
  unfold write_error, created. destruct (dirname p) as [D | ] eqn:Ed; [|discriminate].
  pose proof (dirname_some p D Ed) as ->.
  destruct (is_directory (PosixPath.parse (fst p)) es) eqn:E.
  - destruct (is_directory (pure p) es) eqn:E'; [discriminate|]. intros _.
    eexists. split; [reflexivity|]. cbn [map]. rewrite app_nil_r. split; assumption.
  - intros _. eexists. split; [reflexivity|]. exact (makedirs_ready p es E).
Qed.

(** After a write, the same write finds everything in place. *)
Lemma write_again (p : path) (text : string) (es : list entry) :
  write_error p es = None ->
  let es1 := store_entry p text (es ++ map DirAt (created p es)) in
  write_error p es1 = None /\ created p es1 = [].
Proof.
  intros H. cbv zeta. destruct (write_ready p es H) as (D & Hd & H1 & H2).
  generalize dependent (es ++ map DirAt (created p es))%list. intros es' H1 H2.
  unfold write_error, created. rewrite Hd, !is_directory_store, H1, H2.
  split; reflexivity.
Qed.

(** ** Listings *)


Lemma lookup_in (p q : path) (text : string) (fs : list (path * string)) :
  In (q, text) fs -> path_eqb q p = true -> lookup_file p fs <> None.
Proof.
  intros Hin Hq. induction fs as [ | [q' t'] rest IH]; [contradiction|].
  cbn [lookup_file]. destruct (path_eqb q' p) eqn:E; [discriminate|].
  destruct Hin as [Heq | Hin]; [|exact (IH Hin)].
  injection Heq as -> ->. congruence.
Qed.

Lemma regular_in (q : path) (text : string) (es : list entry) :
  In (FileAt q text) es -> In (q, text) (regular es).
Proof.
  induction es as [ | [q' t' | d] rest IH]; cbn [regular]; [contradiction| | ].
  - intros [H | H]; [left; congruence | right; exact (IH H)].
  - intros [H | H]; [discriminate | exact (IH H)].
Qed.

Lemma directories_in (d : PosixPath.pure_path) (es : list entry) :
  In (DirAt d) es -> In d (directories es).
Proof.
  induction es as [ | [q' t' | d'] rest IH]; cbn [directories]; [contradiction| | ].
  - intros [H | H]; [discriminate | exact (IH H)].
  - intros [H | H]; [left; congruence | right; exact (IH H)].
Qed.

(** What a listing reports exists: as a regular file, or as a directory. *)
Lemma listed_exists (dir : string) (w : world) (p : path) :
  In p (glob_csv dir w) ->
  lookup_file p (files w) <> None \/ is_directory (pure p) (entries w) = true.
Proof.
  unfold glob_csv. intros H. apply in_flat_map in H. destruct H as (e & Hin & H).
  destruct e as [q text | d]; cbn [csv_entry] in H.
  - destruct (PosixPath.eqb _ _ && ends_with (snd q) ".csv") eqn:E; [|contradiction].
    destruct H as [<- | []]. left. apply andb_true_iff in E. destruct E as [E _].
    apply pure_path_eqb_eq in E.
    apply (lookup_in _ q text); [apply regular_in; exact Hin|].
    apply path_eqb_eq. unfold pure. cbn [fst snd]. rewrite E. reflexivity.
  - destruct (PosixPath.name_in _ d) as [name | ] eqn:En; [|contradiction].
    destruct (ends_with name ".csv") eqn:E; [|contradiction].
    destruct H as [<- | []]. right. apply name_in_spec in En.
    unfold pure. cbn [fst snd]. rewrite <- En.
    apply listed_is_directory, directories_in. exact Hin.
Qed.

(** Opening a listed source gives its bytes, or fails as on a directory. *)
Lemma read_listed (dir : string) (w : world) (p : path) :
  In p (glob_csv dir w) ->
  snd (read_text p w) =
    match lookup_file p (files w) with
    | Some text => Ok text
    | None => Raise IsADirectoryError
    end.
Proof.
  intros Hin. unfold read_text.
  destruct (lookup_file p (files w)) as [text | ] eqn:El; [reflexivity|].
  destruct (listed_exists dir w p Hin) as [H | H]; [congruence|].
  cbn [snd]. unfold no_file_error. rewrite H. reflexivity.
Qed.


(** Writing a file whose name does not end in [.csv] leaves every listing
    of CSV sources as it was. *)
Lemma glob_csv_store (dir : string) (q : path) (text : string)
    (es : list entry) (out out' : list string) :
  ends_with (snd q) ".csv" = false ->
  glob_csv dir (mkWorld (store_entry q text es) out) = glob_csv dir (mkWorld es out').
Proof.
  intros Hq. unfold glob_csv. cbn [entries].
  induction es as [ | [q' old | d] rest IH]; cbn [store_entry flat_map csv_entry].
  - rewrite Hq, andb_false_r. reflexivity.
  - destruct (path_eqb q' q) eqn:E; cbn [flat_map csv_entry]; [reflexivity|].
    rewrite IH. reflexivity.
  - rewrite IH. reflexivity.
Qed.

Section PipelineFacts.

Variable csv_reader : string -> list DictReader.row * option exn.
Variable int_of_str : string -> option Z.
Variable float_repr : PyNum.float -> string.

(** The writer, case by case: it raises and leaves the world as it is, or
    it creates the missing directories and stores the text. *)
Lemma write_analytics_eq (a : pyval) (p : path) (w : world) :
  write_analytics float_repr a p w =
    match write_error p (entries w) with
    | Some e => (w, Raise e)
    | None =>
        (mkWorld (store_entry p (Json.dumps float_repr a)
                    (entries w ++ map DirAt (created p (entries w))))
                 (stdout w),
         Ok tt)
    end.
Proof.
  unfold write_analytics, io_bind, makedirs, write_error, created.
  destruct (dirname p) as [D | ] eqn:Ed; [|reflexivity].
  pose proof (dirname_some p D Ed) as ->.
  destruct (is_directory (PosixPath.parse (fst p)) (entries w)) eqn:E.
  - unfold write_text. rewrite E.
    destruct (is_directory (pure p) (entries w)); [reflexivity|].
    cbn [map]. rewrite app_nil_r. reflexivity.
  - destruct (is_regular (PosixPath.parse (fst p)) (entries w)); [reflexivity|].
    destruct (blocked (PosixPath.parse (fst p)) (entries w)); [reflexivity|].
    destruct (makedirs_ready p (entries w) E) as [H1 H2].
    unfold write_text. cbn [entries stdout]. rewrite H1, H2. reflexivity.
Qed.

(** Reading leaves the world as it is and depends on it through the bytes
    of the file alone. *)
Lemma read_game_stats_eq (p : path) (w : world) :
  read_game_stats csv_reader int_of_str p w =
    (w, match lookup_file p (files w) with
        | Some text => read_source int_of_str (csv_reader text)
        | None => Raise (no_file_error p (entries w))
        end).
Proof.
  unfold read_game_stats, io_bind, read_text, lift.
  destruct (lookup_file p (files w)); reflexivity.
Qed.

Lemma read_all_world (ps : list path) : forall (acc : list game) (w : world),
  fst (read_all csv_reader int_of_str ps acc w) = w.
Proof.
  induction ps as [ | p rest IH]; intros acc w; cbn [read_all]; [reflexivity|].
  unfold io_bind. rewrite read_game_stats_eq.
  destruct (match lookup_file p (files w) with Some _ => _ | None => _ end);
    [apply IH | reflexivity].
Qed.

Lemma read_all_ok (ps : list path) (w : world) :
  forall (gss : list (list game)) (acc : list game),
  Forall2 (fun p gs => read_game_stats csv_reader int_of_str p w = (w, Ok gs)) ps gss ->
  read_all csv_reader int_of_str ps acc w = (w, Ok (acc ++ List.concat gss)%list).
Proof.
  induction ps as [ | p rest IH]; intros gss acc H; inversion H; subst; cbn [read_all List.concat].
  - rewrite app_nil_r. reflexivity.
  - unfold io_bind.
    match goal with E : read_game_stats _ _ p w = _ |- _ => rewrite E end.
    rewrite (IH _ _ ltac:(eassumption)). rewrite <- app_assoc. reflexivity.
Qed.

(** The reading loop sees the world through what opening its files
    gives. *)
Lemma read_all_ext (ps : list path) (w w' : world) : forall acc : list game,
  (forall p, In p ps -> snd (read_text p w') = snd (read_text p w)) ->
  snd (read_all csv_reader int_of_str ps acc w')
    = snd (read_all csv_reader int_of_str ps acc w).
Proof.
  induction ps as [ | p rest IH]; intros acc H; cbn [read_all]; [reflexivity|].
  unfold io_bind. rewrite !read_game_stats_eq.
  pose proof (H p (or_introl eq_refl)) as Hp. unfold read_text in Hp.
  destruct (lookup_file p (files w')) as [t' | ], (lookup_file p (files w)) as [t | ];
    cbn [snd] in Hp; try discriminate.
  - injection Hp as ->.
    destruct (read_source int_of_str (csv_reader t)); [|reflexivity].
    apply IH. intros q Hq. apply H. right. assumption.
  - cbn [snd]. injection Hp as Hp. rewrite Hp. reflexivity.
Qed.

(** ** The run, case by case *)

Lemma run_analytics_eq (input_dir output_dir : string) (w : world) :
  run_analytics csv_reader int_of_str float_repr input_dir output_dir w =
    match glob_csv input_dir w with
    | [] => (mkWorld (entries w) (stdout w ++ ["No CSV files found in " ++ input_dir]),
             Ok empty_dict)
    | csv_files =>
        match snd (read_all csv_reader int_of_str csv_files [] w) with
        | Raise e => (w, Raise e)
        | Ok all_games =>
            match calculate_analytics all_games with
            | Raise e => (w, Raise e)
            | Ok analytics =>
                match write_error (output_dir, report_name) (entries w) with
                | Some e => (w, Raise e)
                | None =>
                    (mkWorld
                       (store_entry (output_dir, report_name)
                          (Json.dumps float_repr analytics)
                          (entries w ++ map DirAt (created (output_dir, report_name)
                                                           (entries w))))
                       (stdout w ++ ["Analytics report generated: "
                                       ++ path_str (output_dir, report_name)]),
                     Ok analytics)
                end
            end
        end
    end.
Proof.
  unfold run_analytics.
  destruct (glob_csv input_dir w) as [ | p ps] eqn:Eg; [reflexivity|].
  unfold io_bind at 1.
  pose proof (read_all_world (p :: ps) [] w) as Hw.
  destruct (read_all csv_reader int_of_str (p :: ps) [] w) as [w' [games | e]];
    cbn [fst snd] in *; subst w'; [|reflexivity].
  unfold io_bind at 1. unfold lift at 1.
  destruct (calculate_analytics games) as [a | e]; [|reflexivity].
  unfold io_bind at 1. rewrite write_analytics_eq.
  destruct (write_error (output_dir, report_name) (entries w)); reflexivity.
Qed.

End PipelineFacts.

(** Paths print as [pathlib] normalises them, and a file of the current
    directory has no directory name. *)
Example paths_print_normalised :
  path_str ("out/", report_name) = "out/eagles_analytics_report.json" /\
  path_str ("./a//b/", report_name) = "a/b/eagles_analytics_report.json" /\
  path_str (".", report_name) = report_name /\
  path_str ("", report_name) = report_name /\
  path_str ("/", report_name) = "/eagles_analytics_report.json" /\
  dirname (".", report_name) = None /\
  dirname ("out/", report_name) = Some (PosixPath.parse "out").
Proof. repeat split; reflexivity. Qed.

(** A directory named like a source is listed with the sources, and reading
    it fails. *)
Example listed_directory_raises :
  glob_csv "input" Fixture.with_directory
    = [("input", "archive.csv"); ("input", "games.csv")] /\
  snd (run_analytics Plain.rows IntLiteral.of_string Repr.float_repr
         "input" "output" Fixture.with_directory)
    = Raise IsADirectoryError.
Proof. split; vm_compute; reflexivity. Qed.

(** The ASCII reading of integers: white space around the literal, a sign,
    single underscores between digits. *)
Example ascii_integers :
  map IntLiteral.of_string [" 12 "; "-7"; "+5"; "1_0"; "1__0"; "x"; ""; "+ 1"; "1.0"]
    = [Some 12; Some (-7); Some 5; Some 10; None; None; None; None; None] /\
  IntLiteral.of_string (String (ascii_of_nat 28) "1") = None /\
  IntLiteral.of_string (String (ascii_of_nat 11) "1") = Some 1.
Proof. repeat split; vm_compute; reflexivity. Qed.

(* ================================================================== *)
(** * The orchestrator *)

Section Orchestrator.

Variable csv_reader : string -> list DictReader.row * option exn.
Variable int_of_str : string -> option Z.
Variable float_repr : PyNum.float -> string.

(** A defective row anywhere in the listed sources makes the reading loop
    raise; what it raises is a parse error when every source is a regular
    file that the reader reads to its end, up to the defective one. *)
Lemma read_all_defective (ps : list path) (w : world) :
  forall (acc : list game) (p : path) (text : string) (d : DictReader.rowdict),
  In p ps -> lookup_file p (files w) = Some text ->
  In d (DictReader.rows (fst (csv_reader text))) -> defective int_of_str d ->
  exists e, read_all csv_reader int_of_str ps acc w = (w, Raise e) /\
    ((forall q, In q ps ->
        exists t, lookup_file q (files w) = Some t /\
                  (t = text \/ snd (csv_reader t) = None)) ->
     parse_error e).
Proof.
  induction ps as [ | q rest IH]; intros acc p text d Hin Hl Hd Hdef; [contradiction|].
  cbn [read_all]. unfold io_bind. rewrite read_game_stats_eq.
  destruct (lookup_file q (files w)) as [t | ] eqn:Eq.
  - destruct (read_source int_of_str (csv_reader t)) as [gs | e'] eqn:E.
    + destruct Hin as [-> | Hin].
      * assert (t = text) by congruence. subst t.
        destruct (read_source_defective int_of_str _ d Hd Hdef) as (e & He & _). congruence.
      * destruct (IH (acc ++ gs)%list p text d Hin Hl Hd Hdef) as (e & He & Hp).
        exists e. split; [exact He|]. intros Hall. apply Hp.
        intros q' Hq'. apply Hall. right. exact Hq'.
    + exists e'. split; [reflexivity|]. intros Hall.
      destruct (Hall q (or_introl eq_refl)) as (t' & Ht' & Hcase).
      assert (t' = t) by congruence. subst t'.
      destruct (read_source_error int_of_str _ _ E) as [Hp | Hs]; [exact Hp|].
      destruct Hcase as [-> | Hnone]; [|congruence].
      destruct (read_source_defective int_of_str _ d Hd Hdef) as (e & He & Hp).
      congruence.
  - exists (no_file_error q (entries w)). split; [reflexivity|]. intros Hall.
    destruct (Hall q (or_introl eq_refl)) as (t' & Ht' & _). congruence.
Qed.

(** C6 (amended).  When a listed source has a non-blank data row defective
    in one of these ways: the header does not name one of the ten fields, or
    one of the six integer fields has no cell or a text that [int] does not
    read, then the reader raises a parse error on that source and the run
    aborts: it raises, no records are returned, no file is written and
    nothing is printed.  What the run raises is a parse error when every
    listed source is a regular file read to its end, up to the defective
    one.  No other row is rejected: a row is rejected only when it is
    defective, and every row that names the ten fields and holds integers in
    the six integer fields gives its record, whose text fields are the
    values of the row as they are, [None] for a missing cell included. *)
Theorem defective_row_aborts (input_dir output_dir : string) (w : world)
    (p : path) (text : string) (d : DictReader.rowdict) :
  In p (glob_csv input_dir w) ->
  lookup_file p (files w) = Some text ->
  In d (DictReader.rows (fst (csv_reader text))) ->
  defective int_of_str d ->
  (exists e, read_game_stats csv_reader int_of_str p w = (w, Raise e) /\ parse_error e) /\
  (exists e,
     run_analytics csv_reader int_of_str float_repr input_dir output_dir w = (w, Raise e) /\
     ((forall q, In q (glob_csv input_dir w) ->
         exists t, lookup_file q (files w) = Some t /\
                   (t = text \/ snd (csv_reader t) = None)) ->
      parse_error e)) /\
  (forall r e, game_of_row int_of_str r = Raise e ->
               parse_error e /\ defective int_of_str r) /\
  (forall r, acceptable int_of_str r ->
             exists g, game_of_row int_of_str r = Ok g /\ holds_fields int_of_str r g).
Proof.
  intros Hin Hl Hd Hdef. split; [|split; [|split]].
  - rewrite read_game_stats_eq, Hl.
    destruct (read_source_defective int_of_str _ d Hd Hdef) as (e & -> & He). eauto.
  - rewrite run_analytics_eq.
    destruct (glob_csv input_dir w) as [ | q qs] eqn:Eg; [contradiction|].
    destruct (read_all_defective (q :: qs) w [] p text d Hin Hl Hd Hdef) as (e & He & Hp).
    rewrite He. cbn [snd]. exists e. split; [reflexivity | exact Hp].
  - exact (game_of_row_error int_of_str).
  - exact (acceptable_row_returns int_of_str).
Qed.


End Orchestrator.

Lemma defective_row_aborts_witness :
  let w := Sample.season Sample.no_turnovers in
  exists e, run_analytics Plain.rows IntLiteral.of_string Repr.float_repr
              "input" "output" w = (w, Raise e) /\
            parse_error e.
Proof.
  cbv zeta.
  destruct (defective_row_aborts Plain.rows IntLiteral.of_string Repr.float_repr
              "input" "output"
              (Sample.season Sample.no_turnovers) ("input", "games.csv")
              Sample.no_turnovers
              (DictReader.row_dict fieldnames
                 ["1"; "2024-09-08"; "DAL"; "home"; "30"; "20"; "100"; "200"]))
    as (_ & (e & He & Hp) & _).
  - vm_compute. left. reflexivity.
  - reflexivity.
  - vm_compute. left. reflexivity.
  - right. exists "turnovers", PNone. vm_compute. repeat split. tauto.
  - exists e. split; [exact He|]. apply Hp.
    change (glob_csv "input" (Sample.season Sample.no_turnovers)) with [("input", "games.csv")].
    intros q [<- | []]. exists Sample.no_turnovers. split; [reflexivity | left; reflexivity].
Defined.

(** C6 as stated fails: a data row that stops after the turnovers cell is
    missing the required [result] field, yet the reader returns its record,
    with [None] as the result, and the run writes a report. *)
Lemma missing_result_is_accepted :
  let w := Sample.season Sample.no_result in
  let run := run_analytics Plain.rows IntLiteral.of_string Repr.float_repr
               "input" "output" w in
  Plain.rows Sample.no_result =
    ([ fieldnames; ["1"; "2024-09-08"; "DAL"; "home"; "30"; "20"; "100"; "200"; "1"] ], None) /\
  read_game_stats Plain.rows IntLiteral.of_string ("input", "games.csv") w =
    (w, Ok [mkGame 1 (PStr "2024-09-08") (PStr "DAL") (PStr "home") 30 20 100 200 1 PNone]) /\
  is_ok (snd run) = true /\
  lookup_file ("output", report_name) (files (fst run)) <> None.
Proof.
  cbv zeta. split; [vm_compute; reflexivity|]. split; [vm_compute; reflexivity|].
  split; [vm_compute; reflexivity|]. vm_compute. discriminate.
Qed.


(* ================================================================== *)
(** * Order of the records *)

Section Complete.

Variable int_of_str : string -> option Z.

(** A complete row under the standard header is read by position. *)
Lemma game_of_complete_row (cells : DictReader.row) (g : game) :
  game_of_cells int_of_str cells = Some g ->
  game_of_row int_of_str (DictReader.row_dict fieldnames cells) = Ok g.
Proof.
  destruct cells as [ | c0 [ | c1 [ | c2 [ | c3 [ | c4 [ | c5 [ | c6 [ | c7 [ | c8 [ | c9 [ | c10 rest]]]]]]]]]]];
    try discriminate.
  unfold game_of_cells.
  destruct (int_of_str c0) as [z0 | ] eqn:E0; [|discriminate].
  destruct (int_of_str c4) as [z4 | ] eqn:E4; [|discriminate].
  destruct (int_of_str c5) as [z5 | ] eqn:E5; [|discriminate].
  destruct (int_of_str c6) as [z6 | ] eqn:E6; [|discriminate].
  destruct (int_of_str c7) as [z7 | ] eqn:E7; [|discriminate].
  destruct (int_of_str c8) as [z8 | ] eqn:E8; [|discriminate].
  intros H. injection H as <-.
  change (DictReader.row_dict fieldnames [c0; c1; c2; c3; c4; c5; c6; c7; c8; c9])
    with [ (Some "game_id", PStr c0); (Some "date", PStr c1); (Some "opponent", PStr c2);
           (Some "home_away", PStr c3); (Some "points_scored", PStr c4);
           (Some "points_allowed", PStr c5); (Some "rushing_yards", PStr c6);
           (Some "passing_yards", PStr c7); (Some "turnovers", PStr c8);
           (Some "result", PStr c9) ].
  unfold game_of_row, int_field, DictReader.getitem.
  repeat match goal with
         | |- context [DictReader.get (Some ?k) ?d] =>
             let v := eval vm_compute in (DictReader.get (Some k) d) in
             change (DictReader.get (Some k) d) with v; cbn [bind IntLiteral.of_obj]
         end.
  rewrite E0, E4, E5, E6, E7, E8. reflexivity.
Qed.

Lemma complete_row_not_blank (cells : DictReader.row) :
  game_of_cells int_of_str cells <> None -> DictReader.is_blank cells = false.
Proof. destruct cells; [intros H; contradiction H; reflexivity | reflexivity]. Qed.

(** The rows of a well-formed source, read in order. *)
Lemma rows_well_formed (source : list DictReader.row * option exn)
    (data : list DictReader.row) :
  well_formed int_of_str source data ->
  snd source = None /\
  DictReader.rows (fst source) = map (DictReader.row_dict fieldnames) data.
Proof.
  intros [-> Hall]. split; [reflexivity|]. cbn [fst DictReader.rows]. f_equal.
  induction Hall as [ | cells rest Hc _ IH]; [reflexivity|].
  cbn [filter]. rewrite (complete_row_not_blank cells Hc). cbn [negb]. f_equal. exact IH.
Qed.

Lemma rows_of_complete_cells (data : list DictReader.row) (gs : list game) :
  Forall2 (fun cells g => game_of_cells int_of_str cells = Some g) data gs ->
  Forall2 (fun r g => game_of_row int_of_str r = Ok g)
          (map (DictReader.row_dict fieldnames) data) gs.
Proof.
  induction 1 as [ | cells g data gs H _ IH]; cbn [map]; constructor; [|exact IH].
  apply game_of_complete_row. exact H.
Qed.


(** A well-formed source reads to the records of its data rows. *)
Lemma read_well_formed (source : list DictReader.row * option exn)
    (data : list DictReader.row) (gs : list game) :
  well_formed int_of_str source data ->
  Forall2 (fun cells g => game_of_cells int_of_str cells = Some g) data gs ->
  read_source int_of_str source = Ok gs.
Proof.
  intros Hw Hg. destruct (rows_well_formed source data Hw) as [Hs Hr].
  destruct source as [rows failure]. cbn [fst snd] in *. subst failure.
  apply read_source_ok. rewrite Hr. apply rows_of_complete_cells. exact Hg.
Qed.

End Complete.


Section Order.

Variable csv_reader : string -> list DictReader.row * option exn.
Variable int_of_str : string -> option Z.
Variable float_repr : PyNum.float -> string.



End Order.


(* ================================================================== *)
(** * Running again *)


(** Where the directory of [p] exists, the writer creates none. *)
Lemma created_none (p : path) (es : list entry) :
  is_directory (PosixPath.parse (fst p)) es = true -> created p es = [].
Proof.
  intros H. unfold created. destruct (dirname p) as [D | ] eqn:Ed; [|reflexivity].
  rewrite (dirname_some p D Ed), H. reflexivity.
Qed.

Section Rerun.

Variable csv_reader : string -> list DictReader.row * option exn.
Variable int_of_str : string -> option Z.
Variable float_repr : PyNum.float -> string.




End Rerun.




(* ================================================================== *)
(** * More on the aggregator *)

(** A report that is returned is the empty dictionary, for the empty list,
    or the report of the specification. *)
Lemma calculate_analytics_shape (games : list game) (d : pyval) :
  calculate_analytics games = Ok d -> games <> [] ->
  exists wp a1 a2 a3 a4 a5 a6,
    d = report (py_len games) (count is_win games) wp
          (total points_scored games) (total points_allowed games) a1 a2
          (total rushing_yards games) (total passing_yards games) a3 a4 a5
          (total turnovers games) a6
          (count is_win (filter is_home games))
          (py_len (filter is_home games) - count is_win (filter is_home games))
          (count is_win (filter is_away games))
          (py_len (filter is_away games) - count is_win (filter is_away games)).
Proof.
  intros E Hne. rewrite (calculate_analytics_eq games Hne) in E. cbv zeta in E.
  repeat match type of E with
         | bind ?r _ = Ok _ => destruct r; cbn [bind] in E; [|discriminate]
         end.
  injection E as <-. eauto 10.
Qed.

Lemma total_perm (f : game -> Z) (xs ys : list game) :
  Permutation xs ys -> total f xs = total f ys.
Proof. induction 1; cbn [total]; lia. Qed.

Lemma count_perm {A : Type} (p : A -> bool) (xs ys : list A) :
  Permutation xs ys -> count p xs = count p ys.
Proof.
  intros H. unfold count. f_equal.
  induction H as [ | x xs ys _ IH | x y xs | xs ys zs _ IH1 _ IH2]; cbn [filter].
  - reflexivity.
  - destruct (p x); cbn [List.length]; congruence.
  - destruct (p x), (p y); reflexivity.
  - congruence.
Qed.

Lemma py_len_filter {A : Type} (p : A -> bool) (xs : list A) :
  py_len (filter p xs) = count p xs.
Proof. reflexivity. Qed.

(** X1.  The report depends on the records as a multiset: reordering the
    list changes nothing, neither the report nor the error. *)
Theorem report_ignores_order (games games' : list game) :
  Permutation games games' ->
  calculate_analytics games = calculate_analytics games'.
Proof.
  intros H. destruct games as [ | g rest] eqn:Eg.
  - apply Permutation_nil in H. subst. reflexivity.
  - rewrite <- Eg in *.
    assert (Hne : games <> []) by (subst; discriminate).
    assert (Hne' : games' <> []).
    { intros ->. apply Permutation_sym, Permutation_nil in H. contradiction. }
    rewrite (calculate_analytics_eq games Hne), (calculate_analytics_eq games' Hne').
    cbv zeta. rewrite !py_len_filter, !count_filter.
    assert (Hl : py_len games = py_len games').
    { unfold py_len. rewrite (Permutation_length H). reflexivity. }
    rewrite Hl, !(total_perm _ _ _ H).
    rewrite (count_perm is_win _ _ H).
    rewrite (count_perm is_home _ _ H), (count_perm is_away _ _ H).
    rewrite (count_perm (fun x => is_home x && is_win x) _ _ H).
    rewrite (count_perm (fun x => is_away x && is_win x) _ _ H).
    reflexivity.
Qed.

Lemma report_ignores_order_witness :
  calculate_analytics (rev Sample.home_stand) = calculate_analytics Sample.home_stand.
Proof.
  apply report_ignores_order. apply Permutation_sym, Permutation_rev.
Defined.

Lemma total_app (f : game -> Z) (xs ys : list game) :
  total f (xs ++ ys) = total f xs + total f ys.
Proof. induction xs as [ | x rest IH]; cbn [app total]; lia. Qed.

Lemma count_app {A : Type} (p : A -> bool) (xs ys : list A) :
  count p (xs ++ ys) = count p xs + count p ys.
Proof.
  unfold count. rewrite filter_app, length_app. lia.
Qed.

Lemma py_len_app {A : Type} (xs ys : list A) : py_len (xs ++ ys) = py_len xs + py_len ys.
Proof. unfold py_len. rewrite length_app. lia. Qed.

(** X2.  Aggregation adds up: when two non-empty lists and their
    concatenation are each aggregated, every integer field of the combined
    report is the sum of that field in the two reports. *)
Theorem integer_fields_add_up (first second : list game) (d1 d2 d : pyval) :
  first <> [] -> second <> [] ->
  calculate_analytics first = Ok d1 ->
  calculate_analytics second = Ok d2 ->
  calculate_analytics (first ++ second) = Ok d ->
  forall category key, In (category, key) integer_keys ->
    exists a b,
      item2 category key d1 = Some (PyInt a) /\
      item2 category key d2 = Some (PyInt b) /\
      item2 category key d = Some (PyInt (a + b)).
Proof.
  intros Hn1 Hn2 E1 E2 E category key Hin.
  assert (Hn : (first ++ second)%list <> []).
  { destruct first; [contradiction | discriminate]. }
  destruct (calculate_analytics_shape _ _ E1 Hn1) as (? & ? & ? & ? & ? & ? & ? & ->).
  destruct (calculate_analytics_shape _ _ E2 Hn2) as (? & ? & ? & ? & ? & ? & ? & ->).
  destruct (calculate_analytics_shape _ _ E Hn) as (? & ? & ? & ? & ? & ? & ? & ->).
  rewrite !total_app, !py_len_app, !count_app.
  cbn [In integer_keys] in Hin.
  repeat (destruct Hin as [Hin | Hin];
          [ injection Hin as <- <-; eexists _, _;
            split; [reflexivity|]; split; [reflexivity|];
            cbn; do 2 f_equal; lia | ]).
  contradiction.
Qed.

Lemma integer_fields_add_up_witness :
  exists d1 d2 d a b,
    calculate_analytics Sample.home_stand = Ok d1 /\
    calculate_analytics Sample.with_neutral = Ok d2 /\
    calculate_analytics (Sample.home_stand ++ Sample.with_neutral) = Ok d /\
    item2 "summary" "wins" d1 = Some (PyInt a) /\
    item2 "summary" "wins" d2 = Some (PyInt b) /\
    item2 "summary" "wins" d = Some (PyInt (a + b)).
Proof.
  destruct (calculate_analytics Sample.home_stand) as [d1 | ] eqn:E1;
    [|exfalso; vm_compute in E1; discriminate].
  destruct (calculate_analytics Sample.with_neutral) as [d2 | ] eqn:E2;
    [|exfalso; vm_compute in E2; discriminate].
  destruct (calculate_analytics (Sample.home_stand ++ Sample.with_neutral)) as [d | ] eqn:E;
    [|exfalso; vm_compute in E; discriminate].
  destruct (integer_fields_add_up Sample.home_stand Sample.with_neutral d1 d2 d)
    with (category := "summary") (key := "wins") as (a & b & H1 & H2 & H);
    try assumption; try discriminate.
  - cbn. tauto.
  - exists d1, d2, d, a, b. repeat split; assumption.
Defined.

Lemma count_le {A : Type} (p q : A -> bool) (xs : list A) :
  (forall x, p x = true -> q x = true) -> count p xs <= count q xs.
Proof.
  intros H. unfold count. apply inj_le.
  induction xs as [ | x rest IH]; cbn [filter]; [lia|].
  destruct (p x) eqn:Ep.
  - rewrite (H x Ep). cbn [List.length]. lia.
  - destruct (q x); cbn [List.length]; lia.
Qed.

Lemma count_nonneg {A : Type} (p : A -> bool) (xs : list A) : 0 <= count p xs.
Proof. unfold count. lia. Qed.

Lemma count_zero_iff {A : Type} (p : A -> bool) (xs : list A) :
  count p xs = 0 <-> Forall (fun x => p x = false) xs.
Proof.
  unfold count. induction xs as [ | x rest IH]; cbn [filter].
  - split; [constructor | reflexivity].
  - destruct (p x) eqn:E; cbn [List.length].
    + split; [lia|]. intros H. inversion H. congruence.
    + rewrite IH. split; [intros H; constructor; assumption|].
      intros H. inversion H. assumption.
Qed.

(** X3.  In every report of a non-empty list the counts are sound: wins and
    losses lie between zero and the number of games, no side of a record
    string is negative, the two splits never count more wins or more games
    than the season has, and they account for every game exactly when every
    record is a home or an away game. *)
Theorem counts_are_bounded (games : list game) (d : pyval) :
  games <> [] -> calculate_analytics games = Ok d ->
  exists n wins losses hw hl aw al,
    item2 "summary" "total_games" d = Some (PyInt n) /\
    item2 "summary" "wins" d = Some (PyInt wins) /\
    item2 "summary" "losses" d = Some (PyInt losses) /\
    item2 "home_away" "home_record" d = Some (PyStr (record_string hw hl)) /\
    item2 "home_away" "away_record" d = Some (PyStr (record_string aw al)) /\
    0 < n /\ 0 <= wins <= n /\ 0 <= losses <= n /\
    0 <= hw /\ 0 <= hl /\ 0 <= aw /\ 0 <= al /\
    hw + aw <= wins /\ hl + al <= losses /\
    (hw + hl + aw + al = n <->
     Forall (fun g => home_away g = PStr "home" \/ home_away g = PStr "away") games).
Proof.
  intros Hne E.
  destruct (calculate_analytics_shape _ _ E Hne) as (? & ? & ? & ? & ? & ? & ? & ->).
  rewrite !count_minus, !count_filter.
  pose proof (count_three_ways is_win games) as Hw.
  pose proof (count_three_ways (fun g => negb (is_win g)) games) as Hl.
  pose proof (count_split is_win games) as Hs.
  pose proof (count_three_ways (fun _ => true) games) as Ha.
  rewrite count_all in Ha.
  rewrite !(count_ext (fun g => _ && true) _ games (fun g => andb_true_r _)) in Ha.
  pose proof (count_split is_win (filter is_home games)) as Hh.
  pose proof (count_split is_win (filter is_away games)) as Haw.
  rewrite !py_len_filter, !count_filter in Hh, Haw.
  assert (Hn : 0 < py_len games) by (destruct games; [contradiction | apply py_len_pos]).
  pose proof (count_nonneg (fun g => is_home g && is_win g) games).
  pose proof (count_nonneg (fun g => is_away g && is_win g) games).
  pose proof (count_nonneg (fun g => is_neither g && is_win g) games).
  pose proof (count_nonneg (fun g => is_home g && negb (is_win g)) games).
  pose proof (count_nonneg (fun g => is_away g && negb (is_win g)) games).
  pose proof (count_nonneg (fun g => is_neither g && negb (is_win g)) games).
  pose proof (count_nonneg is_neither games).
  pose proof (count_nonneg is_win games).
  pose proof (count_nonneg (fun g => negb (is_win g)) games).
  cbv beta in Hl.
  eexists _, _, _, _, _, _, _.
  split; [reflexivity|]. split; [reflexivity|]. split; [reflexivity|].
  split; [reflexivity|]. split; [reflexivity|].
  repeat (split; [lia|]).
  assert (Hz : count is_neither games = 0 <->
               Forall (fun g => home_away g = PStr "home" \/ home_away g = PStr "away") games).
  { rewrite count_zero_iff, !Forall_forall.
    assert (Hg : forall g, is_neither g = false <->
                           home_away g = PStr "home" \/ home_away g = PStr "away").
    { intros g. unfold is_neither. rewrite <- !eq_str_iff. fold (is_home g) (is_away g).
      destruct (is_home g), (is_away g); cbn; intuition congruence. }
    split; intros Hall g Hin; apply Hg; apply Hall; assumption. }
  rewrite <- Hz. lia.
Qed.

Lemma counts_are_bounded_witness :
  exists d n wins, calculate_analytics Sample.with_neutral = Ok d /\
                   item2 "summary" "total_games" d = Some (PyInt n) /\
                   item2 "summary" "wins" d = Some (PyInt wins) /\
                   0 <= wins <= n.
Proof.
  destruct (calculate_analytics Sample.with_neutral) as [d | ] eqn:E;
    [|exfalso; vm_compute in E; discriminate].
  destruct (counts_are_bounded Sample.with_neutral d)
    as (n & wins & losses & hw & hl & aw & al & Hn & Hw & _ & _ & _ & _ & Hb & _);
    [discriminate | exact E |].
  exists d, n, wins. repeat split; try assumption; apply Hb.
Defined.

(** A positive integer divided by itself is exactly one. *)
Lemma truediv_self (n : Z) :
  0 < n -> truediv n n = Ok (S754_finite false 4503599627370496 (-52)).
Proof.
  intros Hn. unfold truediv. destruct (Z.eqb_spec n 0); [lia|].
  destruct n as [ | p | p]; try lia.
  cbn [Z.ltb Z.compare Z.abs signed SFdiv xorb].
  unfold SFdiv_core_binary.
  replace (Zdigits2 (Zpos p) + 0 - (Zdigits2 (Zpos p) + 0)) with 0 by lia.
  change (Z.min (fexp prec emax 0) (0 - 0)) with (-53).
  change (0 - 0 - -53) with 53.
  cbv beta iota.
  assert (Hq : Z.div_eucl (Z.shiftl (Zpos p) 53) (Zpos p) = (2 ^ 53, 0)).
  { rewrite Z.shiftl_mul_pow2 by lia.
    pose proof (Z_div_mod (Zpos p * 2 ^ 53) (Zpos p) eq_refl) as H.
    assert (Hd : Zpos p * 2 ^ 53 / Zpos p = 2 ^ 53).
    { rewrite Z.mul_comm. apply Z.div_mul. lia. }
    assert (Hm : (Zpos p * 2 ^ 53) mod Zpos p = 0).
    { rewrite Z.mul_comm. apply Z.mod_mul. lia. }
    unfold Z.div in Hd. unfold Z.modulo in Hm.
    destruct (Z.div_eucl (Zpos p * 2 ^ 53) (Zpos p)) as [q r]. congruence. }
  rewrite Hq.
  assert (Hl : new_location (Zpos p) 0 = loc_Exact).
  { unfold new_location, new_location_even, new_location_odd.
    destruct (Z.even (Zpos p)); reflexivity. }
  rewrite Hl. reflexivity.
Qed.

Lemma percentage_of_all (n : Z) :
  0 < n -> percentage n n = Ok (decimal false 1000 1).
Proof.
  intros Hn. unfold percentage. rewrite (truediv_self n Hn). reflexivity.
Qed.

Lemma percentage_of_none (n : Z) :
  0 < n -> percentage 0 n = Ok (S754_zero false).
Proof.
  intros Hn. unfold percentage, truediv. destruct (Z.eqb_spec n 0); [lia|].
  destruct n as [ | p | p]; try lia. reflexivity.
Qed.

Lemma count_all_true {A : Type} (p : A -> bool) (xs : list A) :
  Forall (fun x => p x = true) xs -> count p xs = py_len xs.
Proof.
  intros H. rewrite <- (count_split p xs).
  assert (count (fun x => negb (p x)) xs = 0); [|lia].
  apply count_zero_iff. eapply Forall_impl; [|exact H].
  cbv beta. intros x ->. reflexivity.
Qed.

(** X4.  Whatever the other fields hold, a season of wins only reports a
    win percentage of exactly [100.0] and no loss, and a season without a win
    reports [0.0] and no win. *)
Theorem perfect_and_winless (games : list game) :
  games <> [] -> in_float_range games ->
  exists d,
    calculate_analytics games = Ok d /\
    (Forall (fun g => result g = PStr "W") games ->
     item2 "summary" "win_percentage" d = Some (PyFloat (decimal false 1000 1)) /\
     item2 "summary" "losses" d = Some (PyInt 0)) /\
    (Forall (fun g => result g <> PStr "W") games ->
     item2 "summary" "win_percentage" d = Some (PyFloat (S754_zero false)) /\
     item2 "summary" "wins" d = Some (PyInt 0)).
Proof.
  intros Hne Hr.
  destruct (calculate_analytics_ok games Hne Hr)
    as (wp & a1 & a2 & a3 & a4 & a5 & a6 & Hwp & _ & _ & _ & _ & _ & _ & E).
  assert (Hn : 0 < py_len games) by (destruct games; [contradiction | apply py_len_pos]).
  eexists. split; [exact E|]. split.
  - intros Hall.
    assert (Hc : count is_win games = py_len games).
    { apply count_all_true. eapply Forall_impl; [|exact Hall].
      cbv beta. intros g Hg. apply eq_str_iff. exact Hg. }
    rewrite Hc, (percentage_of_all _ Hn) in Hwp.
    assert (wp = decimal false 1000 1) by congruence. subst wp.
    split; [reflexivity|]. cbn. rewrite Hc. do 2 f_equal. lia.
  - intros Hnone.
    assert (Hc : count is_win games = 0).
    { apply count_zero_iff. eapply Forall_impl; [|exact Hnone].
      cbv beta. intros g Hg. destruct (is_win g) eqn:Ew; [|reflexivity].
      apply eq_str_iff in Ew. contradiction. }
    rewrite Hc, (percentage_of_none _ Hn) in Hwp.
    assert (wp = S754_zero false) by congruence. subst wp.
    split; [reflexivity|]. cbn. rewrite Hc. reflexivity.
Qed.

Lemma perfect_and_winless_witness :
  exists d, calculate_analytics [Sample.opener] = Ok d /\
            item2 "summary" "win_percentage" d = Some (PyFloat (decimal false 1000 1)).
Proof.
  destruct (perfect_and_winless [Sample.opener]) as (d & E & Hall & _).
  - discriminate.
  - repeat constructor.
  - exists d. split; [exact E|]. apply Hall. repeat constructor.
Defined.

(** X5.  The aggregator returns the empty dictionary for the empty list
    only: every report of a non-empty list is truthy and has the five
    categories with their keys, in the order of the dictionary literal. *)
Theorem report_has_the_schema (games : list game) (d : pyval) :
  calculate_analytics games = Ok d ->
  (d = empty_dict <-> games = []) /\
  (games <> [] -> layout_of d = schema /\ truthy d = true).
Proof.
  intros E. destruct games as [ | g rest] eqn:Eg.
  - cbn in E. injection E as <-. split; [tauto|]. intros H. contradiction.
  - rewrite <- Eg in *. assert (Hne : games <> []) by (subst; discriminate).
    destruct (calculate_analytics_shape _ _ E Hne) as (? & ? & ? & ? & ? & ? & ? & ->).
    split.
    + split; [discriminate | intros H; contradiction].
    + intros _. split; reflexivity.
Qed.

Lemma report_has_the_schema_witness :
  exists d, calculate_analytics Sample.home_stand = Ok d /\ layout_of d = schema.
Proof.
  destruct (calculate_analytics Sample.home_stand) as [d | ] eqn:E;
    [|exfalso; vm_compute in E; discriminate].
  exists d. split; [reflexivity|].
  apply (report_has_the_schema Sample.home_stand d E). discriminate.
Defined.

(* ================================================================== *)

(* ================================================================== *)
(** * More on the reader *)

Lemma key_eqb_eq (a b : option string) : DictReader.key_eqb a b = true <-> a = b.
Proof.
  destruct a as [x | ], b as [y | ]; cbn; split; try congruence; try reflexivity.
  - intros H. apply String.eqb_eq in H. congruence.
  - intros H. injection H as ->. apply String.eqb_refl.
Qed.

Lemma get_set (k k' : option string) (v : pyobj) (d : DictReader.rowdict) :
  DictReader.get k (DictReader.set k' v d) =
    if DictReader.key_eqb k' k then Some v else DictReader.get k d.
Proof.
  induction d as [ | [k0 v0] rest IH]; cbn [DictReader.set DictReader.get].
  - reflexivity.
  - destruct (DictReader.key_eqb k0 k') eqn:E0; cbn [DictReader.get].
    + apply key_eqb_eq in E0. subst k0.
      destruct (DictReader.key_eqb k' k); reflexivity.
    + rewrite IH. destruct (DictReader.key_eqb k0 k) eqn:E1; [|reflexivity].
      apply key_eqb_eq in E1. subst k0.
      destruct (DictReader.key_eqb k' k) eqn:E2; [|reflexivity].
      apply key_eqb_eq in E2. subst k'.
      assert (DictReader.key_eqb k k = true) by (apply key_eqb_eq; reflexivity).
      congruence.
Qed.

Lemma get_zipped (k : string) (names : list string) : forall (cells : list string) (d : DictReader.rowdict),
  DictReader.get (Some k)
    (fold_left (fun d kv => DictReader.set (Some (fst kv)) (PStr (snd kv)) d)
               (combine names cells) d) =
    match Columns.field_value k (firstn (List.length cells) names) cells with
    | Some v => Some v
    | None => DictReader.get (Some k) d
    end.
Proof.
  induction names as [ | n ns IH]; intros cells d.
  - rewrite firstn_nil. reflexivity.
  - destruct cells as [ | c cs]; [reflexivity|].
    cbn [combine fold_left List.length firstn Columns.field_value tl fst snd].
    rewrite IH, get_set. cbn [DictReader.key_eqb].
    destruct (Columns.field_value k (firstn (List.length cs) ns) cs); [reflexivity|].
    destruct (String.eqb n k); reflexivity.
Qed.

Lemma get_filled (k : string) (names : list string) : forall d : DictReader.rowdict,
  DictReader.get (Some k) (fold_left (fun d n => DictReader.set (Some n) PNone d) names d) =
    match Columns.field_value k names [] with
    | Some v => Some v
    | None => DictReader.get (Some k) d
    end.
Proof.
  induction names as [ | n ns IH]; intros d; cbn [fold_left Columns.field_value tl].
  - reflexivity.
  - rewrite IH, get_set. cbn [DictReader.key_eqb].
    destruct (Columns.field_value k ns []); [reflexivity|].
    destruct (String.eqb n k); reflexivity.
Qed.

Lemma field_value_app (k : string) (xs ys : list string) : forall cells : list string,
  Columns.field_value k (xs ++ ys) cells =
    match Columns.field_value k ys (skipn (List.length xs) cells) with
    | Some v => Some v
    | None => Columns.field_value k xs cells
    end.
Proof.
  induction xs as [ | x rest IH]; intros cells; cbn [app Columns.field_value List.length skipn].
  - destruct (Columns.field_value k ys cells); reflexivity.
  - rewrite IH. destruct cells as [ | c cs]; cbn [tl skipn].
    + rewrite skipn_nil. destruct (Columns.field_value k ys []); reflexivity.
    + destruct (Columns.field_value k ys (skipn (List.length rest) cs)); reflexivity.
Qed.

(** What a row dictionary holds under a field name is read off the
    positions of header and cells. *)
Lemma get_row_dict (k : string) (names cells : list string) :
  DictReader.get (Some k) (DictReader.row_dict names cells) = Columns.field_value k names cells.
Proof.
  unfold DictReader.row_dict, DictReader.of_zip.
  destruct (Nat.ltb_spec (List.length names) (List.length cells)) as [Hlt | Hge].
  - rewrite get_set. cbn [DictReader.key_eqb]. rewrite get_zipped.
    rewrite firstn_all2 by lia.
    destruct (Columns.field_value k names cells); reflexivity.
  - destruct (Nat.ltb_spec (List.length cells) (List.length names)) as [Hlt | Hge'].
    + rewrite get_filled, get_zipped.
      replace (Columns.field_value k names cells)
        with (Columns.field_value k (firstn (List.length cells) names
                                       ++ skipn (List.length cells) names) cells)
        by (rewrite firstn_skipn; reflexivity).
      rewrite field_value_app, length_firstn, Nat.min_l by lia.
      rewrite skipn_all.
      destruct (Columns.field_value k (skipn (List.length cells) names) []); [reflexivity|].
      destruct (Columns.field_value k (firstn (List.length cells) names) cells); reflexivity.
    + rewrite get_zipped. rewrite firstn_all2 by lia.
      destruct (Columns.field_value k names cells); reflexivity.
Qed.


Lemma filter_all_blank (data : list DictReader.row) :
  Forall (fun r => r = []) data ->
  filter (fun r => negb (DictReader.is_blank r)) data = [].
Proof.
  induction 1 as [ | r rest -> _ IH]; [reflexivity | exact IH].
Qed.

Lemma rows_app (header : DictReader.row) (d1 d2 : list DictReader.row) :
  DictReader.rows (header :: d1 ++ d2)
    = (DictReader.rows (header :: d1) ++ DictReader.rows (header :: d2))%list.
Proof. cbn [DictReader.rows]. rewrite filter_app, map_app. reflexivity. Qed.

Section ReaderEdges.

Variable csv_reader : string -> list DictReader.row * option exn.
Variable int_of_str : string -> option Z.

(** The record of a row is a function of its ten named fields. *)
Lemma game_of_row_ext (d d' : DictReader.rowdict) :
  (forall k, In k fieldnames -> DictReader.get (Some k) d = DictReader.get (Some k) d') ->
  game_of_row int_of_str d = game_of_row int_of_str d'.
Proof.
  intros H. unfold game_of_row, int_field, DictReader.getitem.
  rewrite !H by (cbn; tauto). reflexivity.
Qed.

(** X6.  The reader finds the fields of a row by column name: two rows
    whose ten named fields hold the same values give the same record, or the
    same error, whatever the order of their columns, their other columns or
    their surplus cells. *)
Theorem fields_are_found_by_name (names cells names' cells' : list string) :
  (forall k, In k fieldnames ->
             Columns.field_value k names cells = Columns.field_value k names' cells') ->
  game_of_row int_of_str (DictReader.row_dict names cells)
    = game_of_row int_of_str (DictReader.row_dict names' cells').
Proof.
  intros H. apply game_of_row_ext. intros k Hk. rewrite !get_row_dict. apply H. exact Hk.
Qed.

Lemma read_rows_app (xs ys : list DictReader.rowdict) : forall acc : list game,
  read_rows int_of_str (xs ++ ys) acc
    = (gs <- read_rows int_of_str xs acc ;; read_rows int_of_str ys gs).
Proof.
  induction xs as [ | x rest IH]; intros acc; cbn [app read_rows bind]; [reflexivity|].
  destruct (game_of_row int_of_str x) as [g | e]; cbn [bind]; [apply IH | reflexivity].
Qed.

Lemma read_rows_acc (rs : list DictReader.rowdict) : forall acc : list game,
  read_rows int_of_str rs acc = (gs <- read_rows int_of_str rs [] ;; Ok (acc ++ gs)%list).
Proof.
  induction rs as [ | r rest IH]; intros acc; cbn [read_rows bind].
  - rewrite app_nil_r. reflexivity.
  - destruct (game_of_row int_of_str r) as [g | e]; cbn [bind]; [|reflexivity].
    rewrite (IH (acc ++ [g])%list), (IH ([] ++ [g])%list).
    destruct (read_rows int_of_str rest []) as [gs | e]; cbn [bind app]; [|reflexivity].
    rewrite <- app_assoc. reflexivity.
Qed.

(** X7.  Blank rows are passed over without a word: two sources with the
    same header whose data rows differ only in blank rows, and whose
    iteration ends alike, give the same records or the same error; a source
    whose data rows are all blank gives the empty list, or the exception
    that ended the iteration; and a source without any row, read to its
    end, gives the empty list and no error. *)
Theorem blank_rows_are_skipped (w : world) (p p' : path) (text text' : string)
    (header : DictReader.row) (data data' : list DictReader.row) (failure : option exn) :
  lookup_file p (files w) = Some text ->
  lookup_file p' (files w) = Some text' ->
  csv_reader text = (header :: data, failure) ->
  (csv_reader text' = (header :: data', failure) ->
   filter (fun r => negb (DictReader.is_blank r)) data
     = filter (fun r => negb (DictReader.is_blank r)) data' ->
   read_game_stats csv_reader int_of_str p' w = read_game_stats csv_reader int_of_str p w) /\
  (Forall (fun r => r = []) data ->
   read_game_stats csv_reader int_of_str p w =
     (w, match failure with Some e => Raise e | None => Ok [] end)) /\
  (csv_reader text' = ([], None) ->
   read_game_stats csv_reader int_of_str p' w = (w, Ok [])).
Proof.
  intros Hl Hl' Hr. rewrite !read_game_stats_eq, Hl, Hl', Hr. unfold read_source.
  split; [|split].
  - intros Hr' Hf. rewrite Hr'. cbn [fst snd DictReader.rows]. rewrite Hf. reflexivity.
  - intros Hb. cbn [fst snd DictReader.rows]. rewrite (filter_all_blank data Hb). reflexivity.
  - intros ->. reflexivity.
Qed.

End ReaderEdges.

Lemma fields_are_found_by_name_witness :
  game_of_row IntLiteral.of_string
    (DictReader.row_dict
       ["result"; "week"; "game_id"; "date"; "opponent"; "home_away"; "turnovers";
        "passing_yards"; "rushing_yards"; "points_allowed"; "points_scored"]
       ["W"; "1"; "7"; "2024-09-08"; "DAL"; "home"; "1"; "200"; "100"; "20"; "30";
        "surplus"])
  = game_of_row IntLiteral.of_string
      (DictReader.row_dict fieldnames
         ["7"; "2024-09-08"; "DAL"; "home"; "30"; "20"; "100"; "200"; "1"; "W"]).
Proof.
  apply fields_are_found_by_name.
  intros k Hk. cbn [In fieldnames] in Hk.
  repeat (destruct Hk as [<- | Hk]; [reflexivity|]). contradiction.
Defined.

Lemma blank_rows_are_skipped_witness :
  read_game_stats Plain.rows IntLiteral.of_string ("input", "b.csv") Fixture.twice
    = read_game_stats Plain.rows IntLiteral.of_string ("input", "a.csv") Fixture.twice.
Proof.
  refine (proj1 (blank_rows_are_skipped Plain.rows IntLiteral.of_string Fixture.twice
                   ("input", "a.csv") ("input", "b.csv")
                   Sample.two_games Fixture.spaced_out
                   fieldnames
                   [ ["1"; "2024-09-08"; "DAL"; "home"; "30"; "20"; "100"; "200"; "1"; "W"];
                     ["2"; "2024-09-15"; "NYG"; "away"; "17"; "24"; "80"; "250"; "2"; "L"] ]
                   [ [];
                     ["1"; "2024-09-08"; "DAL"; "home"; "30"; "20"; "100"; "200"; "1"; "W"];
                     [];
                     ["2"; "2024-09-15"; "NYG"; "away"; "17"; "24"; "80"; "250"; "2"; "L"] ]
                   None
                   _ _ _) _ _); vm_compute; reflexivity.
Defined.

(* ================================================================== *)
(** * More on the orchestrator *)


Section RunFacts.

Variable csv_reader : string -> list DictReader.row * option exn.
Variable int_of_str : string -> option Z.
Variable float_repr : PyNum.float -> string.


(** The result of a run is a function of what its sources hold and of
    whether the writer can write. *)
Lemma run_result_ext (input_dir output_dir output_dir' : string) (w w' : world) :
  glob_csv input_dir w' = glob_csv input_dir w ->
  (forall p, In p (glob_csv input_dir w) ->
             lookup_file p (files w') = lookup_file p (files w)) ->
  write_error (output_dir', report_name) (entries w')
    = write_error (output_dir, report_name) (entries w) ->
  snd (run_analytics csv_reader int_of_str float_repr input_dir output_dir' w')
    = snd (run_analytics csv_reader int_of_str float_repr input_dir output_dir w).
Proof.
  intros Hg Hl Hw. rewrite !run_analytics_eq, Hg, Hw.
  destruct (glob_csv input_dir w) as [ | q qs] eqn:Eg; [reflexivity|].
  rewrite (read_all_ext csv_reader int_of_str (q :: qs) w w' []).
  2:{ intros p Hp.
      rewrite (read_listed input_dir w' p) by (rewrite Hg; exact Hp).
      rewrite (read_listed input_dir w p) by (rewrite Eg; exact Hp).
      rewrite (Hl p Hp). reflexivity. }
  destruct (snd (read_all csv_reader int_of_str (q :: qs) [] w)) as [games | e];
    [|reflexivity].
  destruct (calculate_analytics games); [|reflexivity].
  destruct (write_error (output_dir, report_name) (entries w)); reflexivity.
Qed.

(** X8.  A run never touches what is there: whatever happens, every regular
    file other than the report holds after the run what it held before, and
    every directory is still a directory.  When the output directory exists
    before the run, every directory lists the same CSV sources in the same
    order after it, so that the report is never picked up as a source, even
    when output and input directory coincide. *)
Theorem inputs_are_untouched (input_dir output_dir : string) (w : world) (p : path) :
  let w' := fst (run_analytics csv_reader int_of_str float_repr input_dir output_dir w) in
  (path_eqb p (output_dir, report_name) = false ->
   lookup_file p (files w') = lookup_file p (files w)) /\
  (forall D, is_directory D (entries w) = true -> is_directory D (entries w') = true) /\
  (is_directory (PosixPath.parse output_dir) (entries w) = true ->
   forall dir, glob_csv dir w' = glob_csv dir w).
Proof.
  cbv zeta. rewrite run_analytics_eq.
  destruct (glob_csv input_dir w) as [ | q qs]; [repeat split; auto|].
  destruct (snd (read_all csv_reader int_of_str (q :: qs) [] w)) as [games | e];
    [|repeat split; auto].
  destruct (calculate_analytics games) as [a | e]; [|repeat split; auto].
  destruct (write_error (output_dir, report_name) (entries w)); [repeat split; auto|].
  cbn [fst]. split; [|split].
  - intros Hp. unfold files. cbn [entries]. rewrite regular_store, regular_new_dirs.
    apply lookup_store_other. exact Hp.
  - intros D HD. cbn [entries]. rewrite is_directory_store. apply is_directory_more. exact HD.
  - intros Hd dir. rewrite (created_none (output_dir, report_name) (entries w) Hd).
    cbn [map]. rewrite app_nil_r.
    rewrite (glob_csv_store dir (output_dir, report_name) _ _ _ (stdout w)) by reflexivity.
    reflexivity.
Qed.

(** X9.  A run is all or nothing.  When it raises, the world is as it was:
    nothing written, nothing printed.  When it returns for a listing that is
    not empty, the report file holds the JSON text of the very value
    returned, and exactly one line was printed. *)
Theorem run_is_all_or_nothing (input_dir output_dir : string) (w : world) :
  let run := run_analytics csv_reader int_of_str float_repr input_dir output_dir w in
  (forall e, snd run = Raise e -> fst run = w) /\
  (forall a, snd run = Ok a -> glob_csv input_dir w <> [] ->
     lookup_file (output_dir, report_name) (files (fst run))
       = Some (Json.dumps float_repr a) /\
     exists line, stdout (fst run) = (stdout w ++ [line])%list).
Proof.
  cbv zeta. rewrite run_analytics_eq.
  destruct (glob_csv input_dir w) as [ | q qs].
  - split; [discriminate|]. intros a _ H. contradiction.
  - destruct (snd (read_all csv_reader int_of_str (q :: qs) [] w)) as [games | e].
    2:{ split; [reflexivity | discriminate]. }
    destruct (calculate_analytics games) as [a | e].
    2:{ split; [reflexivity | discriminate]. }
    destruct (write_error (output_dir, report_name) (entries w)).
    { split; [reflexivity | discriminate]. }
    split; [discriminate|].
    intros a' H _. cbn [snd] in H. injection H as <-. cbn [fst stdout].
    unfold files. cbn [entries]. rewrite regular_store.
    split; [apply lookup_store_same | eauto].
Qed.


(** X11.  The result of a run is a function of the CSV sources of the input
    directory and of the writer's error: two worlds that list the same
    sources with the same bytes give the same result, whatever else they
    hold and whatever was printed, when the writer fails alike, or not at
    all, on the two reports. *)
Theorem run_depends_on_sources_only (input_dir output_dir output_dir' : string)
    (w w' : world) :
  glob_csv input_dir w' = glob_csv input_dir w ->
  (forall p, In p (glob_csv input_dir w) ->
             lookup_file p (files w') = lookup_file p (files w)) ->
  write_error (output_dir', report_name) (entries w')
    = write_error (output_dir, report_name) (entries w) ->
  snd (run_analytics csv_reader int_of_str float_repr input_dir output_dir' w')
    = snd (run_analytics csv_reader int_of_str float_repr input_dir output_dir w).
Proof. exact (run_result_ext input_dir output_dir output_dir' w w'). Qed.

(** X12.  A season may be split over several sources: a directory that
    lists two sources with the same header gives the result of a directory
    whose one source holds the data rows of the first followed by those of
    the second, errors included, when the writer fails alike, or not at all,
    in the two worlds. *)
Theorem split_sources_agree (input_dir output_dir : string) (w w' : world)
    (p p1 p2 : path) (text text1 text2 : string)
    (header : DictReader.row) (d1 d2 : list DictReader.row) (failure : option exn) :
  glob_csv input_dir w = [p] -> lookup_file p (files w) = Some text ->
  glob_csv input_dir w' = [p1; p2] ->
  lookup_file p1 (files w') = Some text1 -> lookup_file p2 (files w') = Some text2 ->
  csv_reader text1 = (header :: d1, None) -> csv_reader text2 = (header :: d2, failure) ->
  csv_reader text = (header :: (d1 ++ d2)%list, failure) ->
  write_error (output_dir, report_name) (entries w')
    = write_error (output_dir, report_name) (entries w) ->
  snd (run_analytics csv_reader int_of_str float_repr input_dir output_dir w')
    = snd (run_analytics csv_reader int_of_str float_repr input_dir output_dir w).
Proof.
  intros Hg Hl Hg' Hl1 Hl2 Hr1 Hr2 Hr Hw.
  rewrite !run_analytics_eq, Hg, Hg', Hw. cbn [read_all]. unfold io_bind.
  rewrite !read_game_stats_eq, Hl, Hl1, Hr, Hr1. unfold read_source. cbn [fst snd].
  rewrite rows_app, read_rows_app.
  destruct (read_rows int_of_str (DictReader.rows (header :: d1)) []) as [g1 | e];
    cbn [bind]; [|reflexivity].
  rewrite Hl2, Hr2. cbn [fst snd].
  rewrite (read_rows_acc int_of_str _ g1).
  destruct (read_rows int_of_str (DictReader.rows (header :: d2)) []) as [g2 | e];
    cbn [bind snd app]; unfold ret; cbn [snd app]; [|reflexivity].
  destruct failure as [e | ]; cbn [snd]; [reflexivity|].
  destruct (calculate_analytics (g1 ++ g2)); [|reflexivity].
  destruct (write_error (output_dir, report_name) (entries w)); reflexivity.
Qed.

End RunFacts.

Lemma inputs_are_untouched_witness :
  lookup_file ("input", "games.csv")
    (files (fst (run_analytics Plain.rows IntLiteral.of_string Repr.float_repr
                   "input" "output" Fixture.cluttered)))
  = Some Sample.two_games /\
  glob_csv "input" (fst (run_analytics Plain.rows IntLiteral.of_string Repr.float_repr
                           "input" "input" Fixture.cluttered))
  = [("input", "games.csv")].
Proof.
  split.
  - destruct (inputs_are_untouched Plain.rows IntLiteral.of_string Repr.float_repr
                "input" "output" Fixture.cluttered ("input", "games.csv")) as [H _].
    rewrite H; reflexivity.
  - destruct (inputs_are_untouched Plain.rows IntLiteral.of_string Repr.float_repr
                "input" "input" Fixture.cluttered ("input", "games.csv")) as (_ & _ & H).
    rewrite H; reflexivity.
Defined.

Lemma run_is_all_or_nothing_witness :
  (exists a,
     snd (run_analytics Plain.rows IntLiteral.of_string Repr.float_repr
            "input" "output" Fixture.cluttered) = Ok a /\
     lookup_file ("output", report_name)
       (files (fst (run_analytics Plain.rows IntLiteral.of_string Repr.float_repr
                      "input" "output" Fixture.cluttered)))
     = Some (Json.dumps Repr.float_repr a)) /\
  fst (run_analytics Plain.rows IntLiteral.of_string Repr.float_repr "input" "output"
         (Sample.season Sample.no_turnovers))
  = Sample.season Sample.no_turnovers /\
  fst (run_analytics Plain.rows IntLiteral.of_string Repr.float_repr "input" "output"
         Fixture.output_taken)
  = Fixture.output_taken.
Proof.
  split; [|split].
  - destruct (snd (run_analytics Plain.rows IntLiteral.of_string Repr.float_repr
                     "input" "output" Fixture.cluttered))
      as [a | e] eqn:E; [|exfalso; vm_compute in E; discriminate].
    exists a. split; [reflexivity|].
    destruct (run_is_all_or_nothing Plain.rows IntLiteral.of_string Repr.float_repr
                "input" "output" Fixture.cluttered) as [_ H].
    apply (H a E). vm_compute. discriminate.
  - destruct (run_is_all_or_nothing Plain.rows IntLiteral.of_string Repr.float_repr
                "input" "output" (Sample.season Sample.no_turnovers)) as [H _].
    apply (H TypeError). vm_compute. reflexivity.
  - destruct (run_is_all_or_nothing Plain.rows IntLiteral.of_string Repr.float_repr
                "input" "output" Fixture.output_taken) as [H _].
    apply (H FileExistsError). vm_compute. reflexivity.
Defined.


Lemma run_depends_on_sources_only_witness :
  snd (run_analytics Plain.rows IntLiteral.of_string Repr.float_repr
         "input" "elsewhere" Fixture.cluttered)
  = snd (run_analytics Plain.rows IntLiteral.of_string Repr.float_repr "input" "output"
           (Sample.season Sample.two_games)).
Proof.
  apply run_depends_on_sources_only.
  - reflexivity.
  - intros p Hp. change (glob_csv "input" (Sample.season Sample.two_games))
      with [("input", "games.csv")] in Hp.
    destruct Hp as [<- | []]. reflexivity.
  - reflexivity.
Defined.

Lemma split_sources_agree_witness :
  snd (run_analytics Plain.rows IntLiteral.of_string Repr.float_repr
         "input" "output" Fixture.split_season)
  = snd (run_analytics Plain.rows IntLiteral.of_string Repr.float_repr "input" "output"
           (Sample.season Sample.two_games)).
Proof.
  apply (split_sources_agree Plain.rows IntLiteral.of_string Repr.float_repr "input" "output"
           (Sample.season Sample.two_games) Fixture.split_season
           ("input", "games.csv") ("input", "week1.csv") ("input", "week2.csv")
           Sample.two_games Fixture.week_one Fixture.week_two
           fieldnames
           [ ["1"; "2024-09-08"; "DAL"; "home"; "30"; "20"; "100"; "200"; "1"; "W"] ]
           [ ["2"; "2024-09-15"; "NYG"; "away"; "17"; "24"; "80"; "250"; "2"; "L"] ]
           None);
    vm_compute; reflexivity.
Defined.

(* ================================================================== *)
(** * The entry point *)

Section MainFacts.

Variable csv_reader : string -> list DictReader.row * option exn.
Variable int_of_str : string -> option Z.
Variable float_repr : PyNum.float -> string.
Variable dict_str : list (string * pyval) -> string.

(** What a run returns is the empty dictionary or the report of a
    non-empty list of games. *)
Lemma run_result_shape (input_dir output_dir : string) (w : world) (a : pyval) :
  snd (run_analytics csv_reader int_of_str float_repr input_dir output_dir w) = Ok a ->
  a = empty_dict \/ exists games, games <> [] /\ calculate_analytics games = Ok a.
Proof.
  rewrite run_analytics_eq.
  destruct (glob_csv input_dir w) as [ | q qs].
  - cbn [snd]. intros H. left. congruence.
  - destruct (snd (read_all csv_reader int_of_str (q :: qs) [] w)) as [games | e];
      [|discriminate].
    destruct (calculate_analytics games) as [a' | e] eqn:Ec; [|discriminate].
    destruct (write_error (output_dir, report_name) (entries w)); [discriminate|].
    cbn [snd]. intros H. injection H as <-.
    destruct games as [ | g rest] eqn:Eg.
    + left. cbn in Ec. congruence.
    + right. exists (g :: rest). split; [discriminate | exact Ec].
Qed.

(** [main] is its run, started after the banner, followed by the summary
    of a truthy report. *)
Lemma main_eq (project_root : string) (w : world) :
  let run := run_analytics csv_reader int_of_str float_repr
               (path_str (project_root, "input")) (path_str (project_root, "output")) (after_banner w) in
  (forall e, snd run = Raise e ->
             main csv_reader int_of_str float_repr dict_str project_root w
               = (fst run, Raise e)) /\
  (snd run = Ok empty_dict ->
   main csv_reader int_of_str float_repr dict_str project_root w = (fst run, Ok tt)).
Proof.
  cbv zeta. unfold main, io_bind, print. cbn [entries stdout].
  change {| entries := entries w; stdout := (stdout w ++ ["Eagles Analytics"]) ++ [rule] |}
    with (after_banner w).
  destruct (run_analytics csv_reader int_of_str float_repr (path_str (project_root, "input"))
              (path_str (project_root, "output")) (after_banner w)) as [w1 [a | e]]; cbn [fst snd].
  - split; [discriminate|]. intros H. injection H as ->. reflexivity.
  - split; [|discriminate]. intros e' H. injection H as <-. reflexivity.
Qed.

(** On a report, [main] finds every field it prints. *)
Lemma main_on_report (project_root : string) (w : world) (games : list game) (a : pyval) :
  let run := run_analytics csv_reader int_of_str float_repr
               (path_str (project_root, "input")) (path_str (project_root, "output")) (after_banner w) in
  snd run = Ok a -> games <> [] -> calculate_analytics games = Ok a ->
  exists wins losses pct rest,
    item2 "summary" "wins" a = Some (PyInt wins) /\
    item2 "summary" "losses" a = Some (PyInt losses) /\
    item2 "summary" "win_percentage" a = Some (PyFloat pct) /\
    List.length rest = 9%nat /\
    main csv_reader int_of_str float_repr dict_str project_root w =
      (mkWorld (entries (fst run))
         (stdout (fst run)
            ++ [ (Json.newline ++ "Season Summary:")%string;
                 ("  Record: " ++ str_of_int wins ++ "-" ++ str_of_int losses)%string;
                 ("  Win Percentage: " ++ float_repr pct ++ "%")%string ] ++ rest)%list,
       Ok tt).
Proof.
  cbv zeta. intros Hrun Hne Ec.
  destruct (calculate_analytics_shape _ _ Ec Hne) as (wp & ? & ? & ? & ? & ? & ? & ->).
  unfold main, io_bind, print. cbn [entries stdout].
  change {| entries := entries w; stdout := (stdout w ++ ["Eagles Analytics"]) ++ [rule] |}
    with (after_banner w).
  destruct (run_analytics csv_reader int_of_str float_repr (path_str (project_root, "input"))
              (path_str (project_root, "output")) (after_banner w)) as [w1 [a | e]];
    cbn [fst snd] in *; [|discriminate].
  injection Hrun as ->.
  eexists _, _, wp, _.
  split; [reflexivity|]. split; [reflexivity|]. split; [reflexivity|].
  unfold shown, lift, subscript, report, ret.
  cbn [assoc String.eqb Ascii.eqb Bool.eqb bind format_value truthy entries stdout].
  rewrite <- !app_assoc. cbn [app].
  split; [|reflexivity]. reflexivity.
Qed.

(** X13.  [main] adds no failure of its own: it raises exactly when its run
    raises, with the same exception.  In particular it never fails to find a
    field of a report it prints. *)
Theorem main_fails_only_with_its_run (project_root : string) (w : world) (e : exn) :
  snd (main csv_reader int_of_str float_repr dict_str project_root w) = Raise e <->
  snd (run_analytics csv_reader int_of_str float_repr
         (path_str (project_root, "input")) (path_str (project_root, "output")) w) = Raise e.
Proof.
  rewrite <- (run_result_ext csv_reader int_of_str float_repr
                (path_str (project_root, "input")) (path_str (project_root, "output"))
                (path_str (project_root, "output")) w (after_banner w)
                eq_refl (fun _ _ => eq_refl) eq_refl).
  destruct (main_eq project_root w) as [Hraise Hempty]. cbv zeta in *.
  destruct (snd (run_analytics csv_reader int_of_str float_repr (path_str (project_root, "input"))
                   (path_str (project_root, "output")) (after_banner w))) as [a | e'] eqn:Er.
  - split; [|discriminate]. intros H. exfalso.
    destruct (run_result_shape _ _ _ _ Er) as [-> | (games & Hne & Ec)].
    + rewrite (Hempty eq_refl) in H. discriminate.
    + destruct (main_on_report project_root w games a Er Hne Ec)
        as (? & ? & ? & ? & _ & _ & _ & _ & Hm).
      rewrite Hm in H. discriminate.
  - rewrite (Hraise e' eq_refl). cbn [snd].
    split; intros H; injection H as ->; reflexivity.
Qed.

(** X14.  [main] prints the season summary exactly for a report that is not
    empty.  After a run that returns the empty dictionary it prints nothing
    more; after a run that returns a report it prints twelve more lines,
    first the heading, the record [wins-losses] and the win percentage of
    that report, and it writes no file of its own. *)
Theorem main_prints_a_summary_of_reports (project_root : string) (w : world) (a : pyval) :
  let run := run_analytics csv_reader int_of_str float_repr
               (path_str (project_root, "input")) (path_str (project_root, "output")) (after_banner w) in
  let done := main csv_reader int_of_str float_repr dict_str project_root w in
  snd run = Ok a ->
  files (fst done) = files (fst run) /\
  (a = empty_dict -> stdout (fst done) = stdout (fst run)) /\
  (a <> empty_dict ->
   exists wins losses pct rest,
     item2 "summary" "wins" a = Some (PyInt wins) /\
     item2 "summary" "losses" a = Some (PyInt losses) /\
     item2 "summary" "win_percentage" a = Some (PyFloat pct) /\
     List.length rest = 9%nat /\
     stdout (fst done) =
       (stdout (fst run)
          ++ [ (Json.newline ++ "Season Summary:")%string;
               ("  Record: " ++ str_of_int wins ++ "-" ++ str_of_int losses)%string;
               ("  Win Percentage: " ++ float_repr pct ++ "%")%string ] ++ rest)%list).
Proof.
  cbv zeta. intros Er.
  destruct (run_result_shape _ _ _ _ Er) as [-> | (games & Hne & Ec)].
  - destruct (main_eq project_root w) as [_ Hempty]. cbv zeta in Hempty.
    rewrite (Hempty Er). cbn [fst]. split; [reflexivity|]. split; [reflexivity|].
    intros H. contradiction.
  - destruct (main_on_report project_root w games a Er Hne Ec)
      as (wins & losses & pct & rest & Hw & Hl & Hp & Hlen & Hm).
    rewrite Hm. cbn [fst stdout]. split; [reflexivity|]. split.
    + intros ->. destruct games; [contradiction | discriminate].
    + intros _. exists wins, losses, pct, rest. repeat split; assumption.
Qed.

End MainFacts.

Lemma main_fails_only_with_its_run_witness :
  snd (main Plain.rows IntLiteral.of_string Repr.float_repr (fun _ => EmptyString) "root"
         (Fixture.project Sample.no_turnovers))
  = Raise TypeError.
Proof.
  apply main_fails_only_with_its_run. vm_compute. reflexivity.
Defined.

Lemma main_prints_a_summary_of_reports_witness :
  let w := Fixture.project Sample.two_games in
  nth_error (stdout (fst (main Plain.rows IntLiteral.of_string Repr.float_repr
                            (fun _ => EmptyString) "root" w))) 4
  = Some "  Record: 1-1".
Proof.
  cbv zeta.
  destruct (snd (run_analytics Plain.rows IntLiteral.of_string Repr.float_repr
                   "root/input" "root/output"
                   (after_banner (Fixture.project Sample.two_games))))
    as [a | e] eqn:Er; [|exfalso; vm_compute in Er; discriminate].
  destruct (main_prints_a_summary_of_reports Plain.rows IntLiteral.of_string Repr.float_repr
              (fun _ => EmptyString) "root"
              (Fixture.project Sample.two_games) a Er)
    as (_ & _ & H).
  destruct H as (wins & losses & pct & rest & Hw & Hl & _ & _ & Hs).
  - intros ->. vm_compute in Er. discriminate.
  - vm_compute. reflexivity.
Defined.

(* ================================================================== *)
(** * The writer *)

Section WriterFacts.

Variable float_repr : PyNum.float -> string.

(** X15.  The writer raises exactly the error of [write_error], and then
    leaves the world as it is; in particular it raises [FileNotFoundError]
    on every file of the current directory, whose directory name is empty.
    Otherwise it replaces and never merges: the file it wrote reads back as
    the JSON text of the value, a second write to the same path leaves what
    the second alone would have left, one file is added when the path is new
    and none when it exists, every other file keeps its bytes, and nothing
    is printed. *)
Theorem writer_overwrites (first second : pyval) (p q : path) (w : world) :
  let w1 := fst (write_analytics float_repr first p w) in
  (forall e, write_error p (entries w) = Some e ->
             write_analytics float_repr first p w = (w, Raise e)) /\
  (PosixPath.is_cwd (PosixPath.parse (fst p)) = true ->
   write_analytics float_repr first p w = (w, Raise FileNotFoundError)) /\
  (write_error p (entries w) = None ->
   snd ((write_analytics float_repr first p ;;; read_text p) w)
     = Ok (Json.dumps float_repr first) /\
   files (fst ((write_analytics float_repr first p ;;;
                write_analytics float_repr second p) w))
     = files (fst (write_analytics float_repr second p w)) /\
   List.length (files w1)
     = match lookup_file p (files w) with
       | Some _ => List.length (files w)
       | None => S (List.length (files w))
       end /\
   (path_eqb q p = false -> lookup_file q (files w1) = lookup_file q (files w)) /\
   stdout w1 = stdout w).
Proof.
  cbv zeta. split; [|split].
  - intros e He. rewrite write_analytics_eq, He. reflexivity.
  - intros Hc. rewrite write_analytics_eq. unfold write_error, dirname. rewrite Hc.
    reflexivity.
  - intros Hw. unfold io_bind. rewrite !write_analytics_eq, Hw.
    destruct (write_again p (Json.dumps float_repr first) (entries w) Hw) as [Hw1 Hc1].
    rewrite write_analytics_eq. cbn [entries stdout]. rewrite Hw1, Hc1.
    unfold read_text, files. cbn [fst snd entries stdout map].
    rewrite app_nil_r, store_entry_overwrite, !regular_store, !regular_new_dirs.
    rewrite lookup_store_same, store_length.
    repeat split. intros Hq. apply lookup_store_other. exact Hq.
Qed.

End WriterFacts.

Lemma writer_overwrites_witness :
  lookup_file ("input", "games.csv")
    (files (fst (write_analytics Repr.float_repr empty_dict
                   ("output", report_name) Fixture.cluttered)))
  = Some Sample.two_games /\
  lookup_file ("output", report_name)
    (files (fst (write_analytics Repr.float_repr empty_dict
                   ("output", report_name) Fixture.cluttered)))
  = Some "{}" /\
  write_analytics Repr.float_repr empty_dict (".", report_name) Fixture.cluttered
  = (Fixture.cluttered, Raise FileNotFoundError).
Proof.
  destruct (writer_overwrites Repr.float_repr empty_dict empty_dict
              ("output", report_name) ("input", "games.csv") Fixture.cluttered)
    as (_ & _ & H).
  destruct H as (_ & _ & _ & H & _); [reflexivity|].
  split; [rewrite H; reflexivity|]. split; [reflexivity|].
  destruct (writer_overwrites Repr.float_repr empty_dict empty_dict
              (".", report_name) ("input", "games.csv") Fixture.cluttered)
    as (_ & H' & _).
  apply H'. reflexivity.
Defined.

(* ================================================================== *)
(** * From sources to report *)

Section EndToEnd.

Variable csv_reader : string -> list DictReader.row * option exn.
Variable int_of_str : string -> option Z.
Variable float_repr : PyNum.float -> string.

(** X16.  Well-formed input is enough where the writer can write: when the
    input directory lists at least one source with a data row, every listed
    source is well formed, the totals of the rows read by position are
    inside the float range and the writer has no error on the report, the
    reading loop returns the records of the rows in listing order, and the
    run raises nothing, returns the report of that list, and leaves its JSON
    text in the report file. *)
Theorem well_formed_input_succeeds (input_dir output_dir : string) (w : world)
    (tables : list (list DictReader.row)) (gss : list (list game)) :
  Forall2 (fun p data => exists text, lookup_file p (files w) = Some text /\
                                      well_formed int_of_str (csv_reader text) data)
          (glob_csv input_dir w) tables ->
  Forall2 (fun data gs =>
             Forall2 (fun cells g => game_of_cells int_of_str cells = Some g) data gs)
          tables gss ->
  List.concat gss <> [] ->
  in_float_range (List.concat gss) ->
  write_error (output_dir, report_name) (entries w) = None ->
  exists a,
    read_all csv_reader int_of_str (glob_csv input_dir w) [] w
      = (w, Ok (List.concat gss)) /\
    calculate_analytics (List.concat gss) = Ok a /\
    layout_of a = schema /\
    snd (run_analytics csv_reader int_of_str float_repr input_dir output_dir w) = Ok a /\
    lookup_file (output_dir, report_name)
      (files (fst (run_analytics csv_reader int_of_str float_repr input_dir output_dir w)))
    = Some (Json.dumps float_repr a).
Proof.
  intros Hwf Hgs Hne Hr Hw.
  assert (Hreads : Forall2 (fun p gs => read_game_stats csv_reader int_of_str p w = (w, Ok gs))
                           (glob_csv input_dir w) gss).
  { clear Hne Hr. revert gss Hgs.
    induction Hwf as [ | p data ps tables' (text & Hl & Hwd) _ IH]; intros gss Hgs;
      inversion Hgs as [ | ? gs ? gss' Hg Hrest]; subst; constructor.
    - rewrite read_game_stats_eq, Hl, (read_well_formed int_of_str _ data gs Hwd Hg).
      reflexivity.
    - apply IH. assumption. }
  destruct (calculate_analytics_ok (List.concat gss) Hne Hr)
    as (wp & a1 & a2 & a3 & a4 & a5 & a6 & _ & _ & _ & _ & _ & _ & _ & Ec).
  pose proof (read_all_ok csv_reader int_of_str (glob_csv input_dir w) w gss [] Hreads)
    as Hall.
  cbn [app] in Hall.
  eexists. split; [exact Hall|]. split; [exact Ec|]. split; [reflexivity|].
  rewrite run_analytics_eq.
  destruct (glob_csv input_dir w) as [ | q qs] eqn:Eg.
  - inversion Hreads. subst. contradiction Hne. reflexivity.
  - rewrite Hall. cbn [snd]. rewrite Ec, Hw. cbn [fst snd]. unfold files. cbn [entries].
    rewrite regular_store.
    split; [reflexivity | apply lookup_store_same].
Qed.

End EndToEnd.

Lemma well_formed_input_succeeds_witness :
  exists a,
    snd (run_analytics Plain.rows IntLiteral.of_string Repr.float_repr "input" "output"
           (Sample.season Sample.two_games)) = Ok a /\
    layout_of a = schema.
Proof.
  destruct (well_formed_input_succeeds Plain.rows IntLiteral.of_string Repr.float_repr
              "input" "output"
              (Sample.season Sample.two_games)
              [[ ["1"; "2024-09-08"; "DAL"; "home"; "30"; "20"; "100"; "200"; "1"; "W"];
                 ["2"; "2024-09-15"; "NYG"; "away"; "17"; "24"; "80"; "250"; "2"; "L"] ]]
              [[ Sample.played 1 "home" 30 20 100 200 1 "W";
                 mkGame 2 (PStr "2024-09-15") (PStr "NYG") (PStr "away") 17 24 80 250 2
                        (PStr "L") ]])
    as (a & _ & _ & Hs & Hr & _).
  - change (glob_csv "input" (Sample.season Sample.two_games)) with [("input", "games.csv")].
    constructor; [|constructor].
    exists Sample.two_games. split; [reflexivity|]. split; [vm_compute; reflexivity|].
    repeat constructor; vm_compute; discriminate.
  - repeat constructor.
  - discriminate.
  - repeat constructor.
  - reflexivity.
  - exists a. split; assumption.
Defined.
